(** * Ernesto tutor: chart heuristics, envelope repair, retrieval floor, gateway

    A shallow embedding of the logic of the tutor:
    - [extractGraphJsonBlock], [getSignals], [buildRadar],
      [ensureGenericChartsAlways] and the [POST] handler of the
      graph-producing route;
    - the [POST] handler of the retrieval-augmented route;
    - the basic-auth [middleware];
    - the request the page's [askTutor] sends.

    JavaScript strings are sequences of UTF-16 code units, numbers are
    IEEE 754 binary64 values (the Standard Library's [spec_float]),
    regular expressions are run by a backtracking matcher written after
    the continuation-passing semantics of ECMA-262, and JSON values are
    an inductive type with ordered property lists. *)

From Stdlib Require Import Ascii String.
From Stdlib Require Import List ZArith NArith Bool Lia.
From Stdlib Require Import SpecFloat.
Import ListNotations.

Local Set Warnings "-register-all".
Local Open Scope N_scope.
Local Open Scope list_scope.

(* ================================================================== *)
(** * Strings *)
(* ================================================================== *)

Module JsString.

(** A string is its sequence of UTF-16 code units. *)
Definition jsstring := list N.

Fixpoint bytes_of (s : string) : list N :=
  match s with
  | EmptyString => []
  | String a s' => N_of_ascii a :: bytes_of s'
  end.

(** Code units of a code point (surrogate pair above the BMP). *)
Definition units_of_code_point (cp : N) : list N :=
  if cp <? 0x10000 then [cp]
  else let v := cp - 0x10000 in
       [0xD800 + N.shiftr v 10; 0xDC00 + N.land v 0x3FF].

(** Source literals are written in UTF-8; [utf16] decodes their bytes. *)
Fixpoint utf16 (bs : list N) : jsstring :=
  match bs with
  | [] => []
  | b0 :: r0 =>
    if b0 <? 0x80 then b0 :: utf16 r0
    else if b0 <? 0xE0 then
      match r0 with
      | b1 :: r1 =>
        (N.shiftl (N.land b0 0x1F) 6 + N.land b1 0x3F) :: utf16 r1
      | _ => [0xFFFD]
      end
    else if b0 <? 0xF0 then
      match r0 with
      | b1 :: b2 :: r2 =>
        (N.shiftl (N.land b0 0x0F) 12 + N.shiftl (N.land b1 0x3F) 6
         + N.land b2 0x3F) :: utf16 r2
      | _ => [0xFFFD]
      end
    else
      match r0 with
      | b1 :: b2 :: b3 :: r3 =>
        units_of_code_point
          (N.shiftl (N.land b0 0x07) 18 + N.shiftl (N.land b1 0x3F) 12
           + N.shiftl (N.land b2 0x3F) 6 + N.land b3 0x3F) ++ utf16 r3
      | _ => [0xFFFD]
      end
  end.

Definition lit (s : string) : jsstring := utf16 (bytes_of s).

(** A literal written with apostrophes standing for double quotes. *)
Definition qlit (s : string) : jsstring :=
  map (fun c => if c =? 39 then 34 else c) (lit s).

(** WhiteSpace and LineTerminator of ECMA-262: what [trim] strips and
    what the class escape [\s] matches. *)
Definition isWhiteSpace (c : N) : bool :=
  ((9 <=? c) && (c <=? 13)) || (c =? 32) || (c =? 0xA0) || (c =? 0x1680)
  || ((0x2000 <=? c) && (c <=? 0x200A)) || (c =? 0x2028) || (c =? 0x2029)
  || (c =? 0x202F) || (c =? 0x205F) || (c =? 0x3000) || (c =? 0xFEFF).

Definition isDigit (c : N) : bool := (48 <=? c) && (c <=? 57).

Fixpoint dropWhile (p : N -> bool) (s : jsstring) : jsstring :=
  match s with
  | [] => []
  | c :: s' => if p c then dropWhile p s' else s
  end.

Definition trimStart (s : jsstring) : jsstring := dropWhile isWhiteSpace s.
Definition trimEnd (s : jsstring) : jsstring :=
  rev (dropWhile isWhiteSpace (rev s)).
Definition trim (s : jsstring) : jsstring := trimStart (trimEnd s).

Definition eqb (a b : jsstring) : bool :=
  if list_eq_dec N.eq_dec a b then true else false.

Fixpoint startsWith (p s : jsstring) : bool :=
  match p, s with
  | [], _ => true
  | _ :: _, [] => false
  | a :: p', b :: s' => (a =? b) && startsWith p' s'
  end.

(** [s.includes(needle)] *)
Fixpoint includes (s needle : jsstring) : bool :=
  startsWith needle s ||
  match s with
  | [] => false
  | _ :: s' => includes s' needle
  end.

(** [s.replace(pat, rep)] for a string pattern: the first occurrence only.
    The replacements used by the program hold no [$] pattern. *)
Fixpoint replace (s pat rep : jsstring) : jsstring :=
  if startsWith pat s then rep ++ skipn (length pat) s
  else match s with
       | [] => []
       | c :: s' => c :: replace s' pat rep
       end.

(** [s.split(sep)] for a separator of one code unit. *)
Fixpoint split (sep : N) (s : jsstring) : list jsstring :=
  match s with
  | [] => [[]]
  | c :: s' =>
    if c =? sep then [] :: split sep s'
    else match split sep s' with
         | h :: t => (c :: h) :: t
         | [] => [[c]]
         end
  end.

(** [parts.join(sep)] *)
Fixpoint join (sep : jsstring) (parts : list jsstring) : jsstring :=
  match parts with
  | [] => []
  | [p] => p
  | p :: rest => p ++ sep ++ join sep rest
  end.

(** ASCII case mapping, the part of the Unicode case mapping the regular
    expressions of the program can observe. *)
Definition asciiUpper (c : N) : N :=
  if (97 <=? c) && (c <=? 122) then c - 32 else c.
Definition asciiLower (c : N) : N :=
  if (65 <=? c) && (c <=? 90) then c + 32 else c.

(** A [toLowerCase] for the Basic Latin and Latin-1 Supplement blocks; code
    units outside them are left as they are.  The program is embedded
    over an arbitrary [toLowerCase]; this one instantiates it on concrete
    texts. *)
Definition lowerLatin1Unit (c : N) : N :=
  if (65 <=? c) && (c <=? 90) then c + 32
  else if (0xC0 <=? c) && (c <=? 0xDE) && negb (c =? 0xD7) then c + 32
  else c.
Definition toLowerCaseLatin1 (s : jsstring) : jsstring := map lowerLatin1Unit s.

End JsString.
Import JsString.
Arguments lit s%_string.
Arguments qlit s%_string.

(* ================================================================== *)
(** * Numbers *)
(* ================================================================== *)

Module JsNumber.

(** The Number type: binary64, without NaN payloads. *)
Definition number := spec_float.
Definition prec : Z := 53.
Definition emax : Z := 1024.

Definition NaN : number := S754_nan.
Definition posZero : number := S754_zero false.

(** [Number.isFinite] *)
Definition isFinite (x : number) : bool :=
  match x with
  | S754_zero _ | S754_finite _ _ _ => true
  | S754_infinity _ | S754_nan => false
  end.

(** SameValueZero, the equality of [Set]: NaN equals NaN, the two zeros
    are equal. *)
Definition sameValueZero (x y : number) : bool :=
  match x, y with
  | S754_nan, S754_nan => true
  | _, _ => SFeqb x y
  end.

(** [x >= y] *)
Definition geb (x y : number) : bool := SFleb y x.

(** The Number value of a non-zero integer. *)
Definition ofPositive (neg : bool) (m : positive) : number :=
  binary_round prec emax neg m 0.

(** The Number value of the quotient of two positive integers, rounded to
    nearest, ties to even. *)
Definition ofQuotient (neg : bool) (a b : positive) : number :=
  SFdiv prec emax (S754_finite neg a 0) (S754_finite false b 0).

(** The Number value of [mant * 10 ^ e10] (the rounding of the
    mathematical value of a decimal literal). *)
Definition ofDecimal (neg : bool) (mant : N) (e10 : Z) : number :=
  match mant with
  | N0 => S754_zero neg
  | Npos m =>
    if (0 <=? e10)%Z then ofPositive neg (m * Z.to_pos (10 ^ e10))
    else ofQuotient neg m (Z.to_pos (10 ^ (- e10)))
  end.

Definition ofZ (z : Z) : number :=
  match z with
  | Z0 => posZero
  | Zpos p => ofPositive false p
  | Zneg p => ofPositive true p
  end.

Fixpoint digitsValue (radix : N) (acc : N) (ds : jsstring) : N :=
  match ds with
  | [] => acc
  | d :: r =>
    let v := if d <? 58 then d - 48 else asciiUpper d - 55 in
    digitsValue radix (radix * acc + v) r
  end.

Fixpoint takeWhile (p : N -> bool) (s : jsstring) : jsstring :=
  match s with
  | [] => []
  | c :: s' => if p c then c :: takeWhile p s' else []
  end.

(** StrUnsignedDecimalLiteral without [Infinity]: mantissa and decimal
    exponent of [digits . digits e±digits]. *)
Definition parseDecimal (s : jsstring) : option (N * Z) :=
  let ip := takeWhile isDigit s in
  let r1 := dropWhile isDigit s in
  let '(fp, r2) :=
    match r1 with
    | 46 :: r => (takeWhile isDigit r, dropWhile isDigit r)
    | _ => ([], r1)
    end in
  match ip ++ fp with
  | [] => None
  | ds =>
    let mant := digitsValue 10 0 ds in
    let frac := Z.of_nat (length fp) in
    match r2 with
    | [] => Some (mant, (- frac)%Z)
    | e :: r3 =>
      if (e =? 101) || (e =? 69) then
        let '(eneg, r4) :=
          match r3 with
          | 45 :: r => (true, r)
          | 43 :: r => (false, r)
          | _ => (false, r3)
          end in
        match r4 with
        | [] => None
        | _ =>
          if forallb isDigit r4 then
            let ev := Z.of_N (digitsValue 10 0 r4) in
            Some (mant, ((if eneg then - ev else ev) - frac)%Z)
          else None
        end
      else None
    end
  end.

Definition isRadixDigit (radix : N) (c : N) : bool :=
  (isDigit c && (c - 48 <? radix))
  || ((radix =? 16) && (65 <=? asciiUpper c) && (asciiUpper c <=? 70)).

Definition parseRadix (radix : N) (ds : jsstring) : number :=
  match ds with
  | [] => NaN
  | _ => if forallb (isRadixDigit radix) ds
         then ofZ (Z.of_N (digitsValue radix 0 ds)) else NaN
  end.

(** [Number(s)]: StringToNumber. *)
Definition Number (s : jsstring) : number :=
  match trim s with
  | [] => posZero
  | 48 :: x :: ds =>
    if asciiUpper x =? 88 then parseRadix 16 ds
    else if asciiUpper x =? 79 then parseRadix 8 ds
    else if asciiUpper x =? 66 then parseRadix 2 ds
    else match parseDecimal (48 :: x :: ds) with
         | Some (m, e) => ofDecimal false m e
         | None => NaN
         end
  | t =>
    let '(neg, u) :=
      match t with
      | 45 :: u => (true, u)
      | 43 :: u => (false, u)
      | _ => (false, t)
      end in
    if JsString.eqb u (lit "Infinity") then S754_infinity neg
    else match parseDecimal u with
         | Some (m, e) => ofDecimal neg m e
         | None => NaN
         end
  end.

(** ** Number::toString, radix 10 *)

Fixpoint decimalDigits (fuel : nat) (n : N) (acc : jsstring) : jsstring :=
  match fuel with
  | O => acc
  | S f =>
    if n <? 10 then (48 + n) :: acc
    else decimalDigits f (n / 10) ((48 + n mod 10) :: acc)
  end.

Definition digitsOf (n : N) : jsstring :=
  decimalDigits (S (N.to_nat (N.log2 n))) n [].

Definition zeros (n : Z) : jsstring := repeat 48 (Z.to_nat n).

(** A positive finite value as an exact fraction. *)
Definition fractionOf (m : positive) (e : Z) : positive * positive :=
  match e with
  | Z0 => (m, 1%positive)
  | Zpos p => ((m * Z.to_pos (2 ^ e))%positive, 1%positive)
  | Zneg p => (m, Z.to_pos (2 ^ (- e)))
  end.

(** The least [j >= from] with [den <= num * 10 ^ j]. *)
Fixpoint firstScale (fuel : nat) (j : Z) (num den : positive) : Z :=
  match fuel with
  | O => j
  | S f =>
    if (Zpos den <=? Zpos num * 10 ^ j)%Z then j
    else firstScale f (j + 1)%Z num den
  end.

(** The [n] with [10 ^ (n - 1) <= num / den < 10 ^ n]. *)
Definition decimalExponent (num den : positive) : Z :=
  if (den <=? num)%positive
  then Z.of_nat (length (digitsOf (Npos num / Npos den)))
  else (1 - firstScale 400 1 num den)%Z.

(** [x / 10 ^ (n - k)] as a fraction. *)
Definition scaled (num den : positive) (n k : Z) : Z * Z :=
  if (n <=? k)%Z then ((Zpos num * 10 ^ (k - n))%Z, Zpos den)
  else (Zpos num, (Zpos den * 10 ^ (n - k))%Z).

Definition sameNumber (x y : number) : bool :=
  match x, y with
  | S754_finite s1 m1 e1, S754_finite s2 m2 e2 =>
    Bool.eqb s1 s2 && (m1 =? m2)%positive && (e1 =? e2)%Z
  | _, _ => false
  end.

(** The digits [s] of [k] places for which [s * 10 ^ (n - k)] is the
    Number [x], when there are some: the one nearest to [x], the even one
    of two equally near. *)
Definition candidate (x : number) (num den : positive) (n k : Z)
  : option (Z * bool) :=
  let '(a, b) := scaled num den n k in
  let lo := (a / b)%Z in
  let hi := (lo + 1)%Z in
  let ok s := sameNumber (ofDecimal false (Z.to_N s) (n - k)) x in
  let oklo := ok lo in
  let okhi := (hi <=? 10 ^ k)%Z && ok hi in
  let pick s := Some (s, (s =? 10 ^ k)%Z) in
  match oklo, okhi with
  | false, false => None
  | true, false => pick lo
  | false, true => pick hi
  | true, true =>
    match (2 * a ?= (2 * lo + 1) * b)%Z with
    | Lt => pick lo
    | Gt => pick hi
    | Eq => if Z.even lo then pick lo else pick hi
    end
  end.

Fixpoint shortest (fuel : nat) (x : number) (num den : positive) (n k : Z)
  : jsstring * Z :=
  match candidate x num den n k with
  | Some (s, carried) =>
    if carried then ([49], (n + 1)%Z) else (digitsOf (Z.to_N s), n)
  | None =>
    match fuel with
    | O => let '(a, b) := scaled num den n k in (digitsOf (Z.to_N (a / b)), n)
    | S f => shortest f x num den n (k + 1)%Z
    end
  end.

Definition formatDigits (ds : jsstring) (n : Z) : jsstring :=
  let k := Z.of_nat (length ds) in
  if ((k <=? n) && (n <=? 21))%Z then ds ++ zeros (n - k)
  else if ((0 <? n) && (n <=? 21))%Z
  then firstn (Z.to_nat n) ds ++ [46] ++ skipn (Z.to_nat n) ds
  else if ((-6 <? n) && (n <=? 0))%Z then [48; 46] ++ zeros (- n) ++ ds
  else
    let e := (n - 1)%Z in
    let ex := (if (e <? 0)%Z then [45] else [43]) ++ digitsOf (Z.to_N (Z.abs e)) in
    match ds with
    | [d] => [d; 101] ++ ex
    | d :: rest => d :: 46 :: rest ++ [101] ++ ex
    | [] => []
    end.

(** [String(x)] for a Number. *)
Definition toString (x : number) : jsstring :=
  match x with
  | S754_nan => lit "NaN"
  | S754_zero _ => [48]
  | S754_infinity s => (if s then [45] else []) ++ lit "Infinity"
  | S754_finite s m e =>
    let '(num, den) := fractionOf m e in
    let n := decimalExponent num den in
    let '(ds, n') := shortest 20 (S754_finite false m e) num den n 1 in
    (if s then [45] else []) ++ formatDigits ds n'
  end.

(** [x.toFixed(f)] *)
Definition toFixed (x : number) (f : Z) : jsstring :=
  match x with
  | S754_finite s m e =>
    let '(num, den) := fractionOf m e in
    if (Zpos den * 10 ^ 21 <=? Zpos num)%Z then toString x
    else
      let n := ((2 * 10 ^ f * Zpos num + Zpos den) / (2 * Zpos den))%Z in
      let ds := digitsOf (Z.to_N n) in
      let k := Z.of_nat (length ds) in
      let ds' := if (k <=? f)%Z then zeros (f + 1 - k) ++ ds else ds in
      let cut := (length ds' - Z.to_nat f)%nat in
      (if s then [45] else []) ++
      (if (f =? 0)%Z then ds'
       else firstn cut ds' ++ [46] ++ skipn cut ds')
  | S754_zero _ =>
    if (f =? 0)%Z then [48] else [48; 46] ++ zeros f
  | _ => toString x
  end.

End JsNumber.
Import JsNumber.

(* ================================================================== *)
(** * Regular expressions *)
(* ================================================================== *)

Module RegExp.

(** Patterns.  [Quant greedy min max r] is [r{min,max}] ([None]: no upper
    bound), lazy when [greedy] is [false]. *)
Inductive regex : Type :=
| Empty
| Lit (c : N)
| Class (p : N -> bool)
| Seq (r1 r2 : regex)
| Alt (r1 r2 : regex)
| Quant (greedy : bool) (min : nat) (max : option nat) (r : regex)
| WordBoundary
| Group (i : nat) (r : regex).

(** The matcher's state: the code units before the current position (the
    nearest first), those from it on, and the captures made so far. *)
Record state := mkState {
  before : jsstring;
  after : jsstring;
  captures : list (nat * jsstring)
}.

Definition cont := state -> option state.

(** Canonicalize, for the ignore-case flag without the unicode flag.  The
    patterns of the program hold ASCII characters and the caseless [°]
    and [€]; a code unit above 127 never canonicalizes to an ASCII one,
    and none canonicalizes to [°] or [€], so the ASCII mapping decides
    every comparison they take part in.  The classes of the patterns
    ([\d], [\s], [[.,]], [[\s\S]]) are closed under canonicalization: a
    class is tested on the unit itself. *)
Definition canonicalize (ignoreCase : bool) (c : N) : N :=
  if ignoreCase then asciiUpper c else c.

Definition isWordChar (c : option N) : bool :=
  match c with
  | None => false
  | Some c =>
    ((97 <=? c) && (c <=? 122)) || ((65 <=? c) && (c <=? 90))
    || isDigit c || (c =? 95)
  end.

Definition step (x : state) (c : N) (rest : jsstring) : state :=
  mkState (c :: before x) rest (captures x).

Fixpoint groupsOf (r : regex) : list nat :=
  match r with
  | Seq a b | Alt a b => groupsOf a ++ groupsOf b
  | Quant _ _ _ a => groupsOf a
  | Group i a => i :: groupsOf a
  | _ => []
  end.

Definition clearCaptures (gs : list nat) (x : state) : state :=
  mkState (before x) (after x)
    (filter (fun kv => negb (existsb (Nat.eqb (fst kv)) gs)) (captures x)).

Definition setCapture (i : nat) (s : jsstring) (x : state) : state :=
  mkState (before x) (after x)
    ((i, s) :: filter (fun kv => negb (Nat.eqb (fst kv) i)) (captures x)).

Definition consumed (x y : state) : jsstring :=
  firstn (length (after x) - length (after y)) (after x).

(** RepeatMatcher of ECMA-262 for a body matcher [m] holding the groups
    [gs]: an iteration that consumes nothing is refused once [min] is
    zero, so that at most [min + length (after x)] iterations are ever
    entered and the fuel given by [run] is never used up
    ([repeatMatcher_fuel] below). *)
Fixpoint repeatMatcher (m : state -> cont -> option state) (gs : list nat)
         (greedy : bool) (fuel : nat) (min : nat) (max : option nat)
         (x : state) (k : cont) {struct fuel} : option state :=
  match max with
  | Some O => k x
  | _ =>
    match fuel with
    | O => None
    | S fuel' =>
      let d := fun y =>
        if Nat.eqb min 0 && Nat.eqb (length (after y)) (length (after x))
        then None
        else repeatMatcher m gs greedy fuel' (pred min) (option_map pred max)
                           y k in
      let xr := clearCaptures gs x in
      if negb (Nat.eqb min 0) then m xr d
      else if greedy then
        match m xr d with
        | Some z => Some z
        | None => k x
        end
      else
        match k x with
        | Some z => Some z
        | None => m xr d
        end
    end
  end.

(** The matcher of a pattern, after the Matcher/Continuation semantics of
    ECMA-262. *)
Fixpoint run (ic : bool) (r : regex) (x : state) (k : cont) {struct r}
  : option state :=
  match r with
  | Empty => k x
  | Lit c =>
    match after x with
    | ch :: rest =>
      if canonicalize ic ch =? canonicalize ic c then k (step x ch rest)
      else None
    | [] => None
    end
  | Class p =>
    match after x with
    | ch :: rest => if p ch then k (step x ch rest) else None
    | [] => None
    end
  | Seq r1 r2 => run ic r1 x (fun y => run ic r2 y k)
  | Alt r1 r2 =>
    match run ic r1 x k with
    | Some z => Some z
    | None => run ic r2 x k
    end
  | Quant greedy min max r' =>
    repeatMatcher (run ic r') (groupsOf r') greedy
                  (S (min + length (after x))) min max x k
  | WordBoundary =>
    let a := isWordChar (hd_error (before x)) in
    let b := isWordChar (hd_error (after x)) in
    if xorb a b then k x else None
  | Group i r' =>
    run ic r' x (fun y => k (setCapture i (consumed x y) y))
  end.

(** Continuations that agree on the states with at most [n] units left:
    all a matcher started with [n] units left can tell apart. *)
Definition agreeUpTo (n : nat) (k k' : cont) : Prop :=
  forall y, (length (after y) <= n)%nat -> k y = k' y.

(** The result of a successful match: [index], [m[0]] and the groups. *)
Record matchResult := mkMatch {
  index : nat;
  matched : jsstring;
  groups : list (nat * jsstring)
}.

(** [m[i]] for [i >= 1]: [None] stands for [undefined]. *)
Definition group (m : matchResult) (i : nat) : option jsstring :=
  option_map snd (find (fun kv => Nat.eqb (fst kv) i) (groups m)).

(** RegExpBuiltinExec from a position on: the first position at which
    the pattern matches. *)
Fixpoint execFrom (ic : bool) (r : regex) (bef aft : jsstring)
  : option matchResult :=
  let x := mkState bef aft [] in
  match run ic r x (fun y => Some y) with
  | Some y => Some (mkMatch (length bef) (consumed x y) (captures y))
  | None =>
    match aft with
    | [] => None
    | c :: rest => execFrom ic r (c :: bef) rest
    end
  end.

(** [s.match(re)] for a pattern without the global flag. *)
Definition exec (ic : bool) (r : regex) (s : jsstring) : option matchResult :=
  execFrom ic r [] s.

(** [re.test(s)] *)
Definition test (ic : bool) (r : regex) (s : jsstring) : bool :=
  match exec ic r s with Some _ => true | None => false end.

(** [s.match(re)] with the global flag: every [m[0]], the search resuming
    where the last match ended (one unit further after an empty match). *)
Fixpoint matchAllFrom (fuel : nat) (ic : bool) (r : regex)
         (bef aft : jsstring) : list jsstring :=
  match fuel with
  | O => []
  | S f =>
    match execFrom ic r bef aft with
    | None => []
    | Some m =>
      let e := (index m - length bef + length (matched m))%nat in
      let e' := match matched m with [] => S e | _ => e end in
      if (length aft <? e')%nat then [matched m]
      else matched m ::
           matchAllFrom f ic r (rev (firstn e' aft) ++ bef) (skipn e' aft)
    end
  end.

Definition matchAll (ic : bool) (r : regex) (s : jsstring) : list jsstring :=
  matchAllFrom (S (length s)) ic r [] s.

(** Pattern syntax. *)
Definition seq (rs : list regex) : regex := fold_right Seq Empty rs.
Definition alt (r : regex) (rs : list regex) : regex := fold_left Alt rs r.
Definition str (s : string) : regex := seq (map Lit (lit s)).
Definition star (r : regex) : regex := Quant true 0 None r.
Definition lazyStar (r : regex) : regex := Quant false 0 None r.
Definition plus (r : regex) : regex := Quant true 1 None r.
Definition opt (r : regex) : regex := Quant true 0 (Some 1%nat) r.
Definition ws : regex := Class isWhiteSpace.
Definition digit : regex := Class isDigit.
Definition oneOf (s : string) : regex :=
  Class (fun c => existsb (N.eqb c) (lit s)).

End RegExp.
Import RegExp.
Arguments str s%_string.
Arguments oneOf s%_string.

(* ================================================================== *)
(** * JSON values *)
(* ================================================================== *)

Module Json.

(** The values [JSON.parse] produces and the handlers build.  Properties
    are kept in insertion order (the reordering of integer-like keys is
    not modelled); an array may carry named properties next to its
    elements, as an assignment [a.p = v] gives it. *)
Inductive value : Type :=
| VNull
| VBool (b : bool)
| VNum (n : number)
| VStr (s : jsstring)
| VArr (elems : list value) (named : list (jsstring * value))
| VObj (props : list (jsstring * value)).

Definition arr (l : list value) : value := VArr l [].
Definition num (z : Z) : value := VNum (ofZ z).
Definition text (s : string) : value := VStr (lit s).
Definition strings (l : list string) : value := arr (map text l).
Definition nums (l : list Z) : value := arr (map num l).

Fixpoint lookup (k : jsstring) (ps : list (jsstring * value)) : option value :=
  match ps with
  | [] => None
  | (k', v) :: r => if JsString.eqb k k' then Some v else lookup k r
  end.

Fixpoint update (k : jsstring) (v : value) (ps : list (jsstring * value))
  : list (jsstring * value) :=
  match ps with
  | [] => [(k, v)]
  | (k', v') :: r =>
    if JsString.eqb k k' then (k, v) :: r else (k', v') :: update k v r
  end.

(** [o.k] for a named (non-index) property: [None] stands for
    [undefined]. *)
Definition get (o : value) (k : jsstring) : option value :=
  match o with
  | VObj ps => lookup k ps
  | VArr _ ps => lookup k ps
  | _ => None
  end.

(** [o.k = v] on an object or an array. *)
Definition set (o : value) (k : jsstring) (v : value) : value :=
  match o with
  | VObj ps => VObj (update k v ps)
  | VArr es ps => VArr es (update k v ps)
  | _ => o
  end.

(** [typeof v === "object"] with [v] not [null]. *)
Definition isObject (v : value) : bool :=
  match v with
  | VObj _ | VArr _ _ => true
  | _ => false
  end.

(** [Array.isArray(v)], with the elements. *)
Definition asArray (v : option value) : option (list value) :=
  match v with
  | Some (VArr es _) => Some es
  | _ => None
  end.

(** ToBoolean *)
Definition truthy (v : value) : bool :=
  match v with
  | VNull => false
  | VBool b => b
  | VNum n => match n with S754_zero _ | S754_nan => false | _ => true end
  | VStr s => match s with [] => false | _ => true end
  | VArr _ _ | VObj _ => true
  end.

(** ** JSON.parse *)

Definition isJsonSpace (c : N) : bool :=
  (c =? 9) || (c =? 10) || (c =? 13) || (c =? 32).

Definition skipSpace (s : jsstring) : jsstring := dropWhile isJsonSpace s.

Definition isHex (c : N) : bool := isRadixDigit 16 c.

(** The characters of a string after its opening quote. *)
Fixpoint parseChars (s : jsstring) (acc : jsstring)
  : option (jsstring * jsstring) :=
  match s with
  | [] => None
  | c :: r =>
    if c =? 34 then Some (rev acc, r)
    else if c =? 92 then
      match r with
      | [] => None
      | e :: r' =>
        if (e =? 34) || (e =? 92) || (e =? 47) then parseChars r' (e :: acc)
        else if e =? 98 then parseChars r' (8 :: acc)
        else if e =? 102 then parseChars r' (12 :: acc)
        else if e =? 110 then parseChars r' (10 :: acc)
        else if e =? 114 then parseChars r' (13 :: acc)
        else if e =? 116 then parseChars r' (9 :: acc)
        else if e =? 117 then
          match r' with
          | h1 :: h2 :: h3 :: h4 :: r'' =>
            if forallb isHex [h1; h2; h3; h4]
            then parseChars r'' (digitsValue 16 0 [h1; h2; h3; h4] :: acc)
            else None
          | _ => None
          end
        else None
      end
    else if c <? 32 then None
    else parseChars r (c :: acc)
  end.

(** A number token: [-? (0 | [1-9] digits) (. digits)? ([eE] [+-]? digits)?] *)
Definition parseNumber (s : jsstring) : option (number * jsstring) :=
  let '(neg, r0) := match s with 45 :: r => (true, r) | _ => (false, s) end in
  let ip := takeWhile isDigit r0 in
  let r1 := dropWhile isDigit r0 in
  let intOk :=
    match ip with
    | [] => false
    | [_] => true
    | d :: _ => negb (d =? 48)
    end in
  let '(fp, fracOk, r2) :=
    match r1 with
    | 46 :: r =>
      let fp := takeWhile isDigit r in
      (fp, negb (Nat.eqb (length fp) 0), dropWhile isDigit r)
    | _ => ([], true, r1)
    end in
  let '(ev, expOk, r3) :=
    match r2 with
    | e :: r =>
      if (e =? 101) || (e =? 69) then
        let '(eneg, r') :=
          match r with
          | 45 :: r' => (true, r')
          | 43 :: r' => (false, r')
          | _ => (false, r)
          end in
        let ds := takeWhile isDigit r' in
        let v := Z.of_N (digitsValue 10 0 ds) in
        ((if eneg then - v else v)%Z, negb (Nat.eqb (length ds) 0),
         dropWhile isDigit r')
      else (0%Z, true, r2)
    | [] => (0%Z, true, r2)
    end in
  if intOk && fracOk && expOk
  then Some (ofDecimal neg (digitsValue 10 0 (ip ++ fp))
                       (ev - Z.of_nat (length fp)), r3)
  else None.

Fixpoint parseValue (fuel : nat) (s : jsstring) {struct fuel}
  : option (value * jsstring) :=
  match fuel with
  | O => None
  | S f =>
    match skipSpace s with
    | [] => None
    | c :: r =>
      if c =? 123 then
        match skipSpace r with
        | 125 :: r' => Some (VObj [], r')
        | _ => parseMembers f r []
        end
      else if c =? 91 then
        match skipSpace r with
        | 93 :: r' => Some (arr [], r')
        | _ => parseElements f r []
        end
      else if c =? 34 then
        match parseChars r [] with
        | Some (str, r') => Some (VStr str, r')
        | None => None
        end
      else if startsWith (lit "true") (c :: r)
      then Some (VBool true, skipn 4 (c :: r))
      else if startsWith (lit "false") (c :: r)
      then Some (VBool false, skipn 5 (c :: r))
      else if startsWith (lit "null") (c :: r)
      then Some (VNull, skipn 4 (c :: r))
      else
        match parseNumber (c :: r) with
        | Some (n, r') => Some (VNum n, r')
        | None => None
        end
    end
  end

with parseElements (fuel : nat) (s : jsstring) (acc : list value)
       {struct fuel} : option (value * jsstring) :=
  match fuel with
  | O => None
  | S f =>
    match parseValue f s with
    | Some (v, r) =>
      match skipSpace r with
      | 44 :: r' => parseElements f r' (v :: acc)
      | 93 :: r' => Some (arr (rev (v :: acc)), r')
      | _ => None
      end
    | None => None
    end
  end

with parseMembers (fuel : nat) (s : jsstring)
       (acc : list (jsstring * value)) {struct fuel}
  : option (value * jsstring) :=
  match fuel with
  | O => None
  | S f =>
    match skipSpace s with
    | 34 :: r =>
      match parseChars r [] with
      | Some (key, r1) =>
        match skipSpace r1 with
        | 58 :: r2 =>
          match parseValue f r2 with
          | Some (v, r3) =>
            match skipSpace r3 with
            | 44 :: r4 => parseMembers f r4 (update key v acc)
            | 125 :: r4 => Some (VObj (update key v acc), r4)
            | _ => None
            end
          | None => None
          end
        | _ => None
        end
      | None => None
      end
    | _ => None
    end
  end.

(** [JSON.parse(s)]; [None] stands for the SyntaxError it throws. *)
Definition parse (s : jsstring) : option value :=
  match parseValue (2 * length s + 2) s with
  | Some (v, r) => match skipSpace r with [] => Some v | _ => None end
  | None => None
  end.

End Json.
Import Json.

(* ================================================================== *)
(** * The graph-producing route *)
(* ================================================================== *)

Module Tutor.

Inductive Speed := VITE | APPROFONDIE.

Definition Speed_eqb (a b : Speed) : bool :=
  match a, b with
  | VITE, VITE | APPROFONDIE, APPROFONDIE => true
  | _, _ => false
  end.

(** [/<GRAPH_JSON>\s*([\s\S]*?)\s*<\/GRAPH_JSON>/i] *)
Definition anyUnit : regex :=
  Class (fun c => isWhiteSpace c || negb (isWhiteSpace c)).
Definition graphJsonBlock : regex :=
  seq [str "<GRAPH_JSON>"; star ws; Group 1 (lazyStar anyUnit); star ws;
       str "</GRAPH_JSON>"].

(** The parts of the pattern after its opening marker, from the greedy
    whitespace, from the group and from the whitespace before the closing
    marker on. *)
Definition afterOpening : regex :=
  seq [star ws; Group 1 (lazyStar anyUnit); star ws; str "</GRAPH_JSON>"].
Definition groupPart : regex :=
  seq [Group 1 (lazyStar anyUnit); star ws; str "</GRAPH_JSON>"].
Definition closingPart : regex := seq [star ws; str "</GRAPH_JSON>"].

(** What a match leaves to tell: the units not consumed and the groups. *)
Definition outcome (z : option state)
  : option (jsstring * list (nat * jsstring)) :=
  option_map (fun z => (after z, captures z)) z.

Record extraction := mkExtraction {
  text : jsstring;
  json : option jsstring
}.

Definition extractGraphJsonBlock (raw : jsstring) : extraction :=
  match exec true graphJsonBlock raw with
  | Some m =>
    match group m 1 with
    | Some (c :: cs) =>
      mkExtraction (trim (replace raw (matched m) [])) (Some (trim (c :: cs)))
    | _ => mkExtraction (trim raw) None
    end
  | None => mkExtraction (trim raw) None
  end.

(** ** The delimited block, as the extraction is described

    The description of the extraction, to compare the pattern with: the
    payload is delimited by the first opening marker and the first closing
    marker after it, the markers being compared without regard to the case
    of ASCII letters; the narrative text is the raw output with that block
    removed and trimmed, the candidate the content between the markers,
    trimmed. *)
Module BlockSpec.

Definition openMarker : jsstring := lit "<GRAPH_JSON>".
Definition closeMarker : jsstring := lit "</GRAPH_JSON>".

Fixpoint startsWithIgnoreCase (p s : jsstring) : bool :=
  match p, s with
  | [], _ => true
  | _ :: _, [] => false
  | a :: p', b :: s' =>
    (asciiUpper b =? asciiUpper a) && startsWithIgnoreCase p' s'
  end.

(** The first occurrence of a marker: what precedes it, the occurrence,
    what follows it. *)
Fixpoint findMarker (marker s : jsstring)
  : option (jsstring * jsstring * jsstring) :=
  if startsWithIgnoreCase marker s
  then Some ([], firstn (length marker) s, skipn (length marker) s)
  else match s with
       | [] => None
       | c :: s' =>
         match findMarker marker s' with
         | Some (b, m, a) => Some (c :: b, m, a)
         | None => None
         end
       end.

Record block := mkBlock {
  pre : jsstring;
  opening : jsstring;
  body : jsstring;
  closing : jsstring;
  post : jsstring
}.

Definition findBlock (raw : jsstring) : option block :=
  match findMarker openMarker raw with
  | Some (pre, opening, rest) =>
    match findMarker closeMarker rest with
    | Some (body, closing, post) => Some (mkBlock pre opening body closing post)
    | None => None
    end
  | None => None
  end.

(** Where the pattern's lazy group stops: the least number of units
    after which only whitespace precedes a closing marker. *)
Definition closeAt (s : jsstring) : bool :=
  startsWithIgnoreCase closeMarker (dropWhile isWhiteSpace s).

Fixpoint lazyFind (s : jsstring) : option nat :=
  if closeAt s then Some O
  else match s with
       | [] => None
       | _ :: s' => option_map S (lazyFind s')
       end.

End BlockSpec.

(** ** Heuristics: detect variables and values *)

Inductive Topic :=
  farines | fours | economie | concurrence | organisation | general.

Record Signals := mkSignals {
  msg : jsstring;
  nums : list number;
  hasVariables : bool;
  hasUnits : bool;
  isComparison : bool;
  isProtocol : bool;
  topic : Topic
}.

(** [/-?\d+(?:[.,]\d+)?/g] *)
Definition numberPattern : regex :=
  seq [opt (Lit 45); plus digit; opt (seq [oneOf ".,"; plus digit])].

(** [/%|°c|c\b|w\d+|w\s*\d+|h\b|heures?|min\b|minutes?|€|eur|kg\b|g\b|gr\b|t°|temp/i] *)
Definition unitsPattern : regex :=
  alt (str "%")
    [str "°c"; seq [str "c"; WordBoundary]; seq [str "w"; plus digit];
     seq [str "w"; star ws; plus digit]; seq [str "h"; WordBoundary];
     seq [str "heure"; opt (str "s")]; seq [str "min"; WordBoundary];
     seq [str "minute"; opt (str "s")]; str "€"; str "eur";
     seq [str "kg"; WordBoundary]; seq [str "g"; WordBoundary];
     seq [str "gr"; WordBoundary]; str "t°"; str "temp"].

(** [/\bou\b/] *)
Definition ouPattern : regex := seq [WordBoundary; str "ou"; WordBoundary].
(** [/(\d+)\s*h\b/] *)
Definition hoursPattern : regex :=
  seq [Group 1 (plus digit); star ws; str "h"; WordBoundary].
(** [/(\d+)\s*min\b/] *)
Definition minutesPattern : regex :=
  seq [Group 1 (plus digit); star ws; str "min"; WordBoundary].
(** [/w\d+/] *)
Definition strengthPattern : regex := seq [str "w"; plus digit].

Definition has (s : jsstring) (needle : string) : bool :=
  includes s (lit needle).
Arguments has s needle%_string.

Section WithHost.

(** [String.prototype.toLowerCase] of the host. *)
Variable toLowerCase : jsstring -> jsstring.

Definition getSignals (message : jsstring) : Signals :=
  let msg := toLowerCase message in
  let numberMatches := matchAll false numberPattern msg in
  let nums :=
    filter isFinite
      (map (fun s => Number (replace s (lit ",") (lit "."))) numberMatches) in
  let hasUnits := test true unitsPattern msg in
  let hasVariables :=
    (0 <? length nums)%nat && (hasUnits || has msg "w260" || has msg "w320") in
  let isComparison :=
    has msg "comparer" || has msg "comparaison" || has msg "vs"
    || has msg "versus" || has msg "w260" || has msg "w320"
    || test false ouPattern msg in
  let isProtocol :=
    has msg "protocole" || has msg "planning" || has msg "timeline"
    || has msg "pointage" || has msg "apprêt" || has msg "appret"
    || has msg "frigo" || has msg "48h" || has msg "48 h" || has msg "24h"
    || has msg "24 h" || has msg "72h" || has msg "72 h"
    || test false hoursPattern msg || test false minutesPattern msg in
  let topic :=
    if has msg "farine" || test false strengthPattern msg then farines
    else if has msg "four" || has msg "cuisson" || has msg "sole"
            || has msg "voûte" || has msg "voute" then fours
    else if has msg "marge" || has msg "rentable" || has msg "coût"
            || has msg "cout" || has msg "€" then economie
    else if has msg "concurrence" || has msg "positionnement"
            || has msg "usp" then concurrence
    else if has msg "organisation" || has msg "process" || has msg "rush"
            || has msg "service" then organisation
    else general in
  mkSignals msg nums hasVariables hasUnits isComparison isProtocol topic.

End WithHost.

Definition clamp (n lo hi : Z) : Z := Z.max lo (Z.min hi n).

Definition obj (ps : list (string * value)) : value :=
  VObj (map (fun kv => (lit (fst kv), snd kv)) ps).

Definition radarData (labels : list string) (values : list Z) (note : string)
  : value :=
  obj [("labels", strings labels); ("values", Json.nums values);
       ("note", Json.text note)]%string.

Definition buildRadar (topic : Topic) : value :=
  match topic with
  | farines =>
    radarData
      ["Force (W)"; "Tolérance froid"; "Extensibilité"; "Absorption";
       "Régularité"; "Risques (tenace)"]%string
      [70; 75; 60; 65; 70; 55]%Z
      "Radar qualitatif (0–100). Ajustable dès que tu fournis % hydratation, T°, inoculation et durée."
  | fours =>
    radarData
      ["Stabilité T°"; "Récupération"; "Sole (homog.)"; "Puissance";
       "Consommation"; "Budget/ROI"]%string
      [70; 70; 65; 75; 55; 60]%Z
      "Radar qualitatif (0–100) pour comparer des options de fours."
  | economie =>
    radarData
      ["Coût matière"; "Temps prep"; "Prix perçu"; "Marge"; "Complexité";
       "Vitesse service"]%string
      [65; 60; 70; 70; 55; 65]%Z
      "Radar qualitatif (0–100). Fournis 2-3 coûts pour le rendre chiffré."
  | organisation =>
    radarData
      ["Mise en place"; "Flux"; "Standardisation"; "Qualité"; "Stress";
       "Débit"]%string
      [65; 60; 65; 70; 55; 60]%Z
      "Radar qualitatif (0–100) sur l'efficacité opérationnelle."
  | concurrence =>
    radarData
      ["Différenciation"; "Lisibilité offre"; "Prix"; "Localisation";
       "Preuves qualité"; "Répétabilité"]%string
      [65; 60; 60; 55; 70; 60]%Z
      "Radar qualitatif (0–100) pour structurer un positionnement."
  | general =>
    radarData
      ["Fermentation"; "Hydratation"; "Pétrissage"; "Façonnage"; "Cuisson";
       "Organisation"]%string
      [60; 60; 60; 60; 60; 60]%Z
      "Radar générique (0–100). Donne 3 paramètres pour le personnaliser."
  end.

Definition chart (type title description : string) (data : value) : value :=
  obj [("type", Json.text type); ("title", Json.text title);
       ("description", Json.text description); ("data", data)]%string.

Definition radarChart (topic : Topic) : value :=
  chart "radar" "Radar (auto) — lecture scientifique"
    "Scores qualitatifs (0–100) pour visualiser compromis / risques / leviers."
    (buildRadar topic).

Definition timelineStep (step : string * Z * string) : value :=
  let '(label, minutes, purpose) := step in
  obj [("label", Json.text label); ("minutes", num minutes);
       ("purpose", Json.text purpose)]%string.

Definition timelineSchedule : list (string * Z * string) :=
  [("Pétrissage", 15%Z,
    "Développer réseau sans chauffer (viser T° pâte stable)");
   ("Pointage", 60%Z, "Démarrage fermentation (observer volume/tension)");
   ("Boulage", 10%Z, "Créer tension de surface (pâtons homogènes)");
   ("Froid", 2880%Z, "48h frigo (maturation/tenue)");
   ("Remise T°", 120%Z, "Réactiver fermentation avant cuisson")]%string.

Definition timelineSteps : list value := map timelineStep timelineSchedule.

Definition timelineChart : value :=
  chart "timeline" "Timeline (auto) — structure du protocole"
    "Étapes typiques (à ajuster selon T° frigo, inoculation, force farine)."
    (obj [("steps", arr timelineSteps);
          ("note", Json.text
             "Timeline indicative. Donne T° frigo + inoculation (% levure/levain) pour calibrer.")
         ]%string).

Definition barChart (topic : Topic) : value :=
  chart "bar" "Comparaison (auto) — scores relatifs"
    "Plus haut = plus adapté au cas décrit (qualitatif)."
    (obj [("labels",
           match topic with
           | farines => strings ["Option A (W260)"; "Option B (W320)"]%string
           | _ => strings ["Option A"; "Option B"]%string
           end);
          ("values",
           match topic with
           | farines => Json.nums [60; 78]%Z
           | _ => Json.nums [65; 70]%Z
           end);
          ("unit", Json.text "score");
          ("note", Json.text
             "Scores indicatifs (qualitatifs). Ajoute 2–3 paramètres pour quantifier.")
         ]%string).

(** [Array.from(new Set(l))]: the values in the order of their first
    occurrence, equal ones (SameValueZero) once, [-0] stored as [+0]. *)
Definition stored (v : number) : number :=
  match v with S754_zero _ => posZero | _ => v end.
Definition setAdd (acc : list number) (v : number) : list number :=
  if existsb (sameValueZero v) acc then acc else acc ++ [stored v].
Definition uniques (l : list number) : list number := fold_left setAdd l [].

(** No two values equal (SameValueZero). *)
Definition distinct (l : list number) : Prop :=
  ForallOrdPairs (fun a b => sameValueZero a b = false) l.

Definition point (x : number) (y : Z) (label : jsstring) : value :=
  obj [("x", VNum x); ("y", num y); ("label", VStr label)]%string.

Fixpoint scatterPoints (i : Z) (x : list number) : list value :=
  match x with
  | [] => []
  | v :: x' =>
    point v (clamp (55 + i * 6) 40 90) (toString v) :: scatterPoints (i + 1) x'
  end.

Definition scatterWith (points : list value) : value :=
  chart "scatter" "Scatter (auto) — sensibilité (qualitative)"
    "Projection qualitative : comment une variable (x) peut influencer un score (y)."
    (obj [("x_label", Json.text "Valeur détectée");
          ("y_label", Json.text "Score qualitatif");
          ("points", arr points);
          ("note", Json.text
             "Scatter qualitatif (démonstration). Pour du chiffré: précise la variable (hydratation, T°, inoculation) et la mesure cible.")
         ]%string).

Definition scatterChart (nums : list number) : value :=
  let x := firstn 6 (uniques (firstn 6 nums)) in
  scatterWith (scatterPoints 0 x).

Definition tableChart (recap_table : value) : value :=
  chart "table" "Tableau (auto) — synthèse"
    "Généré automatiquement (structure)." recap_table.

Definition minimalRecapTable : value :=
  obj [("columns", strings ["Levier"; "Action"; "Indicateur"]%string);
       ("rows", arr []);
       ("note", Json.text "Tableau créé automatiquement (structure).")
      ]%string.

Definition prop (o : value) (k : string) : option value := get o (lit k).
Definition assign (o : value) (k : string) (v : value) : value :=
  set o (lit k) v.
Arguments prop o k%_string.
Arguments assign o k%_string v.

(** [Array.isArray(o.k) ? o.k : []] *)
Definition arrayOrEmpty (o : value) (k : string) : value :=
  match prop o k with
  | Some (VArr es ps) => VArr es ps
  | _ => arr []
  end.
Arguments arrayOrEmpty o k%_string.

Definition lengthOf (v : option value) : nat :=
  match v with
  | Some (VArr es _) => length es
  | _ => O
  end.

(** The chart list of an envelope (empty when it has none). *)
Definition chartsOf (graph : value) : list value :=
  match prop graph "charts" with
  | Some (VArr es _) => es
  | _ => []
  end.

(** The minute durations of the steps of a timeline chart. *)
Definition timelineMinutes (c : value) : list number :=
  match prop c "data" with
  | Some d =>
    match prop d "steps" with
    | Some (VArr es _) =>
      flat_map (fun st => match prop st "minutes" with
                          | Some (VNum n) => [n]
                          | _ => []
                          end) es
    | _ => []
    end
  | None => []
  end.

(** In APPROFONDIE: if variables in play, always charts. *)
Definition needCharts (speed : Speed) (s : Signals) : bool :=
  Speed_eqb speed APPROFONDIE
  && (hasVariables s || isComparison s || isProtocol s).

(** The charts pushed in turn: radar, then timeline, bar and scatter as
    the signals call for them. *)
Definition autoCharts (s : Signals) : list value :=
  [radarChart (topic s)]
  ++ (if isProtocol s then [timelineChart] else [])
  ++ (if isComparison s then [barChart (topic s)] else [])
  ++ (if (2 <=? length (nums s))%nat then [scatterChart (nums s)] else []).

(** [recap_table.columns = ...; recap_table.rows = ...; recap_table.note = ...] *)
Definition populateRecapTable (t : value) : value :=
  let t := assign t "columns" (strings ["Levier"; "Action"; "Indicateur"]%string) in
  let t := assign t "rows"
    (arr [strings ["Température"; "Stabiliser T° pâte et T° frigo";
                   "T° pâte (sonde) + tenue pâtons"]%string;
          strings ["Temps"; "Ajuster 1 variable à la fois";
                   "Volume + extensibilité + bullage"]%string;
          strings ["Inoculation"; "Réduire/augmenter levure/levain selon T°";
                   "Odeur + vitesse de pousse"]%string]) in
  assign t "note"
    (Json.text "Tableau auto (à personnaliser dès que tu donnes 3 paramètres).").

Section WithHost.

Variable toLowerCase : jsstring -> jsstring.

Definition ensureGenericChartsAlways (graph : value) (speed : Speed)
           (message : jsstring) : value :=
  if negb (truthy graph) || negb (isObject graph) then graph
  else
    let s := getSignals toLowerCase message in
    (* Ensure required structure exists *)
    let graph := assign graph "charts" (arrayOrEmpty graph "charts") in
    let graph := assign graph "checklist" (arrayOrEmpty graph "checklist") in
    let graph := assign graph "questions" (arrayOrEmpty graph "questions") in
    let graph :=
      match prop graph "recap_table" with
      | Some t => if isObject t then graph
                  else assign graph "recap_table" minimalRecapTable
      | None => assign graph "recap_table" minimalRecapTable
      end in
    if negb (needCharts speed s) then graph
    else if (0 <? lengthOf (prop graph "charts"))%nat then graph
    else
      let recap := match prop graph "recap_table" with
                   | Some t => t
                   | None => VNull
                   end in
      let rowsMissing :=
        match prop recap "rows" with
        | Some (VArr es _) => Nat.eqb (length es) 0
        | _ => true
        end in
      (* the table chart shares the recap table object, so it shows the
         rows given to that object afterwards *)
      let recap' := if rowsMissing then populateRecapTable recap else recap in
      let charts :=
        match autoCharts s with
        | [] => [tableChart recap']
        | charts => charts
        end in
      let graph := assign graph "charts" (arr charts) in
      assign graph "recap_table" recap'.

End WithHost.

(** ** The handler and the completion gateway *)

(** What is sent to the completion gateway: the fixed instruction texts
    are left out, the interpolated fields are kept. *)
Inductive prompt :=
| PrimaryPrompt (sp : Speed) (isFirstTurn : bool) (message : jsstring)
| RepairPrompt (sp : Speed) (message : jsstring) (jsonToRepair : jsstring).

(** The outcome of [client.responses.create]: the promise is rejected, or
    resolves to a response with its [output_text] ([None]: absent). *)
Inductive completion :=
| Rejected
| Resolved (output_text : option jsstring).

(** The gateway answers the [n]-th call of a request as it pleases. *)
Definition Gateway := nat -> prompt -> completion.

(** A computation that calls the gateway: from the calls made so far to
    a result ([None]: an exception leaves the handler) and the calls made
    by then. *)
Definition M (A : Type) := list prompt -> option A * list prompt.

Definition ret {A} (a : A) : M A := fun log => (Some a, log).
Definition bind {A B} (c : M A) (f : A -> M B) : M B :=
  fun log =>
    match c log with
    | (Some a, log') => f a log'
    | (None, log') => (None, log')
    end.
Notation "x <- c ;; k" := (bind c (fun x => k))
  (at level 61, c at next level, right associativity).

(** An exception raised before any call. *)
Definition throw {A} : M A := fun log => (None, log).

Definition create (gw : Gateway) (p : prompt) : M jsstring :=
  fun log =>
    match gw (length log) p with
    | Rejected => (None, log ++ [p])
    | Resolved o => (Some (match o with Some t => t | None => [] end),
                     log ++ [p])
    end.

Definition placeholder : value :=
  obj [("title", Json.text "Synthèse");
       ("summary", Json.text "Données structurées indisponibles (erreur JSON).");
       ("confidence", num 40);
       ("charts", arr []);
       ("checklist", arr []);
       ("recap_table",
        obj [("columns", strings ["Levier"; "Action"; "Indicateur"]%string);
             ("rows", arr []);
             ("note", Json.text "JSON non récupérable.")]%string);
       ("questions", arr [])]%string.

(** [try { graph = JSON.parse(s) } catch { graph = fallback }] *)
Definition parseOr (s : jsstring) (fallback : value) : value :=
  match parse s with
  | Some v => v
  | None => fallback
  end.

(** Extraction, parse and the repair pass: from the primary output to the
    narrative text and the graph handed to the chart pass. *)
Definition repair (gw : Gateway) (raw1 : jsstring) (sp : Speed)
           (message : jsstring) : M (jsstring * value) :=
  let e := extractGraphJsonBlock raw1 in
  let text_fr := text e in
  let graph :=
    match json e with
    | Some (c :: cs) => parseOr (c :: cs) VNull
    | _ => VNull
    end in
  if negb (truthy graph) then
    raw2 <- create gw (RepairPrompt sp message
                         (match json e with
                          | Some j => j
                          | None => lit "(vide)"
                          end)) ;;
    ret (text_fr, parseOr (trim raw2) placeholder)
  else ret (text_fr, graph).

Record requestBody := mkBody {
  message : option jsstring;
  isFirstTurn : option bool;
  speed : option Speed
}.

(** The request as the handler reads it, with [await req.json()] and the
    destructuring of what it gives, both outside any [try]: a body that
    is not JSON, or [null], cannot be destructured; a body that is not an
    object (a number, a string, a boolean) has none of the three fields.
    The message is nullish, a string, or of another type; [isFirstTurn]
    and [speed] are taken at their declared types. *)
Inductive request :=
| Unreadable
| IllTyped
| Readable (body : requestBody).

Inductive response :=
| ErrorResponse (status : Z) (error : jsstring)
| TutorResponse (text_fr : jsstring) (graph : value).

Definition nonEmpty (o : option jsstring) : bool :=
  match o with
  | Some (_ :: _) => true
  | _ => false
  end.

(** A gateway that gives the same answer to every call. *)
Definition answering (t : string) : Gateway :=
  fun _ _ => Resolved (Some (lit t)).

Section WithHost.

Variable toLowerCase : jsstring -> jsstring.

(** [Unreadable]: the first statement throws.  [IllTyped]: the key is
    checked first, then [message?.trim()] throws, [trim] not being a
    function of the message. *)
Definition POST (OPENAI_API_KEY : option jsstring) (gw : Gateway)
           (req : request) : M response :=
  match req with
  | Unreadable => throw
  | IllTyped =>
    if negb (nonEmpty OPENAI_API_KEY)
    then ret (ErrorResponse 500 (lit "Missing OPENAI_API_KEY"))
    else throw
  | Readable body =>
    if negb (nonEmpty OPENAI_API_KEY)
    then ret (ErrorResponse 500 (lit "Missing OPENAI_API_KEY"))
    else
      match message body with
      | None => ret (ErrorResponse 400 (lit "Empty message"))
      | Some message =>
        match trim message with
        | [] => ret (ErrorResponse 400 (lit "Empty message"))
        | _ =>
          let sp := match speed body with Some s => s | None => VITE end in
          let first :=
            match isFirstTurn body with Some b => b | None => false end in
          raw1 <- create gw (PrimaryPrompt sp first message) ;;
          tg <- repair gw raw1 sp message ;;
          ret (TutorResponse (fst tg)
                 (ensureGenericChartsAlways toLowerCase (snd tg) sp message))
        end
      end
  end.

End WithHost.

End Tutor.

(* ================================================================== *)
(** * The retrieval-augmented route *)
(* ================================================================== *)

Module Rag.

(** A row returned by the [match_chunks] procedure. *)
Record chunk := mkChunk {
  similarity : option number;
  content : jsstring;
  chunk_index : value;
  document_id : value
}.

Definition nl : jsstring := [10].

(** The literal [0.2]. *)
Definition floor : number := Number (lit "0.2").

(** [m.similarity ?? 0] *)
Definition similarityOf (m : chunk) : number :=
  match similarity m with
  | Some s => s
  | None => posZero
  end.

Definition retrieve (matches : option (list chunk)) : list chunk :=
  firstn 6
    (filter (fun m => geb (similarityOf m) floor)
       (match matches with Some l => l | None => [] end)).

Definition noExcerpt : jsstring :=
  lit "(Aucun extrait pertinent trouvé dans les documents.)".

Fixpoint excerpts (i : nat) (l : list chunk) : list jsstring :=
  match l with
  | [] => []
  | m :: l' =>
    (lit "EXTRAIT #" ++ digitsOf (N.of_nat (i + 1)) ++ lit " (sim="
     ++ toFixed (similarityOf m) 2 ++ lit "):" ++ nl ++ content m)
    :: excerpts (S i) l'
  end.

Definition retrievedContext (retrieved : list chunk) : jsstring :=
  match retrieved with
  | [] => noExcerpt
  | _ => join (nl ++ nl ++ lit "---" ++ nl ++ nl) (excerpts 0 retrieved)
  end.

Definition userPromptText (retrieved : list chunk)
           (contextText : option jsstring) (message : jsstring) : jsstring :=
  trim (nl ++ lit "DOCUMENTS EPPPN / LIVRES (extraits) :" ++ nl
        ++ retrievedContext retrieved ++ nl
        ++ nl ++ lit "Contexte utilisateur (optionnel) :" ++ nl
        ++ (match contextText with Some c => c | None => lit "(non fourni)" end)
        ++ nl
        ++ nl ++ lit "Question :" ++ nl
        ++ message ++ nl).

(** The request as the handler reads it. *)
Inductive requestBody :=
| Unreadable
| FormData (message : option jsstring) (contextText : option jsstring)
           (image : option (jsstring * jsstring))
| JsonBody (message : option jsstring) (contextText : option jsstring).

Record environment := mkEnv {
  OPENAI_API_KEY : option jsstring;
  SUPABASE_URL : option jsstring;
  SUPABASE_SERVICE_ROLE_KEY : option jsstring
}.

(** The user content sent to the completion gateway (the system text is
    fixed and left out). *)
Record completionRequest := mkRequest {
  input_text : jsstring;
  input_image : option jsstring
}.

Inductive rpcResult :=
| RpcRejected
| RpcResult (data : option (list chunk)) (error : bool).

(** The Supabase client, as far as the handler uses it: its [rpc] call
    of the [match_chunks] procedure, with the query embedding and the
    match count. *)
Record client := mkClient {
  match_chunks : list number -> nat -> rpcResult
}.

(** The collaborators of the handler: [createClient(url, key)] of the
    Supabase library ([None]: it throws, as it does for a URL that is
    not an http or https one), the embedding call ([None]: it is
    rejected) and the completion call. *)
Record world := mkWorld {
  createClient : jsstring -> jsstring -> option client;
  embed : jsstring -> option (list number);
  complete : completionRequest -> Tutor.completion
}.

Record ragTop := mkTop {
  top_similarity : option number;
  top_chunk_index : value;
  top_document_id : value
}.

Inductive response :=
| ErrorResponse (status : Z) (error : jsstring)
| Answer (answer_fr : jsstring) (used : nat) (top : list ragTop)
         (received_image : bool).

Definition orEmpty (o : option jsstring) : jsstring :=
  match o with Some s => s | None => [] end.

Definition serverError : response := ErrorResponse 500 (lit "Server error").

(** [message], [contextText] and [imageDataUrl] as the handler sets them
    from the request. *)
Definition messageOf (body : requestBody) : jsstring :=
  trim (orEmpty (match body with
                 | FormData m _ _ | JsonBody m _ => m
                 | Unreadable => None
                 end)).

Definition contextTextOf (body : requestBody) : option jsstring :=
  match body with
  | FormData _ c _ => if Tutor.nonEmpty c then c else None
  | JsonBody _ c => c
  | Unreadable => None
  end.

Definition imageDataUrlOf (body : requestBody) : option jsstring :=
  match body with
  | FormData _ _ (Some (mime, base64)) =>
    Some (lit "data:"
          ++ (match mime with [] => lit "image/jpeg" | _ => mime end)
          ++ lit ";base64," ++ base64)
  | _ => None
  end.

Definition isSome {A} (o : option A) : bool :=
  match o with Some _ => true | None => false end.

Definition topOf (m : chunk) : ragTop :=
  mkTop (similarity m) (chunk_index m) (document_id m).

Definition POST (env : environment) (w : world) (body : requestBody)
  : response :=
  match body with
  | Unreadable => serverError
  | _ =>
    let message := messageOf body in
    let contextText := contextTextOf body in
    let imageDataUrl := imageDataUrlOf body in
    if negb (Tutor.nonEmpty (OPENAI_API_KEY env))
    then ErrorResponse 500 (lit "Missing OPENAI_API_KEY")
    else if negb (Tutor.nonEmpty (SUPABASE_URL env))
            || negb (Tutor.nonEmpty (SUPABASE_SERVICE_ROLE_KEY env))
    then ErrorResponse 500 (lit "Missing SUPABASE_URL or SUPABASE_SERVICE_ROLE_KEY")
    else
      match message with
      | [] => ErrorResponse 400 (lit "Empty message")
      | _ =>
        match createClient w (orEmpty (SUPABASE_URL env))
                           (orEmpty (SUPABASE_SERVICE_ROLE_KEY env)) with
        | None => serverError
        | Some supabase =>
          match embed w message with
          | None => serverError
          | Some queryEmbedding =>
            match match_chunks supabase queryEmbedding 6 with
            | RpcRejected => serverError
            | RpcResult matches matchErr =>
              (* matchErr is logged; the handler goes on *)
              let retrieved := retrieve matches in
              let userPromptText :=
                userPromptText retrieved contextText message in
              match complete w (mkRequest userPromptText imageDataUrl) with
              | Tutor.Rejected => serverError
              | Tutor.Resolved output_text =>
                Answer (orEmpty output_text) (length retrieved)
                  (map topOf retrieved) (isSome imageDataUrl)
              end
            end
          end
        end
      end
  end.

(** A row below the floor, and collaborators that return it with an
    error reported; the client is made for an http or https URL only. *)
Definition lowChunk : chunk :=
  mkChunk (Some (Number (lit "0.19"))) (lit "pâte") VNull VNull.

Definition quietClient : client :=
  mkClient (fun _ _ => RpcResult (Some [lowChunk]) true).

Definition quietWorld : world :=
  mkWorld (fun url _ =>
             if startsWith (lit "http://") url
                || startsWith (lit "https://") url
             then Some quietClient else None)
          (fun _ => Some [])
          (fun _ => Tutor.Resolved (Some (lit "Bonjour"))).

(** Settings with which the client is made. *)
Definition settings : environment :=
  mkEnv (Some (lit "sk-ernesto")) (Some (lit "https://ernesto.supabase.co"))
        (Some (lit "service-role")).

End Rag.

(* ================================================================== *)
(** * The basic-auth middleware *)
(* ================================================================== *)

Module Middleware.

(** [unauthorized()] answers 401 with a Basic challenge for the realm
    Ernesto; [NextResponse.next()] lets the request through. *)
Inductive outcome := Unauthorized | Next.

(** The standard base64 alphabet. *)
Definition sextet (c : N) : option N :=
  if (65 <=? c) && (c <=? 90) then Some (c - 65)
  else if (97 <=? c) && (c <=? 122) then Some (c - 71)
  else if isDigit c then Some (c + 4)
  else if c =? 43 then Some 62
  else if c =? 47 then Some 63
  else None.

Fixpoint sextets (s : jsstring) : list N :=
  match s with
  | [] => []
  | c :: r => match sextet c with
              | Some v => v :: sextets r
              | None => []
              end
  end.

Fixpoint octets (l : list N) : list N :=
  match l with
  | a :: b :: c :: d :: r =>
    (4 * a + b / 16) :: (16 * (b mod 16) + c / 4) :: (64 * (c mod 4) + d)
    :: octets r
  | [a; b; c] => [4 * a + b / 16; 16 * (b mod 16) + c / 4]
  | [a; b] => [4 * a + b / 16]
  | _ => []
  end.

(** A decoder for well-formed base64 of UTF-8 text, to instantiate the
    host's [Buffer.from(s, "base64").toString("utf-8")]. *)
Definition decodeBase64 (s : jsstring) : jsstring := utf16 (octets (sextets s)).

Section WithHost.

(** [Buffer.from(encoded, "base64").toString("utf-8")] of the host. *)
Variable decode : jsstring -> jsstring.

Definition middleware (USER PASS : option jsstring)
           (authorization : option jsstring) : outcome :=
  if negb (Tutor.nonEmpty USER) || negb (Tutor.nonEmpty PASS) then Unauthorized
  else
    match authorization with
    | Some (a :: auth') =>
      let parts := split 32 (a :: auth') in
      let scheme := nth_error parts 0 in
      let encoded := nth_error parts 1 in
      match scheme, encoded with
      | Some scheme, Some (e :: enc') =>
        if negb (JsString.eqb scheme (lit "Basic")) then Unauthorized
        else
          let decoded := decode (e :: enc') in
          let cred := split 58 decoded in
          match nth_error cred 0, nth_error cred 1, USER, PASS with
          | Some user, Some pass, Some USER, Some PASS =>
            if JsString.eqb user USER && JsString.eqb pass PASS then Next
            else Unauthorized
          | _, _, _, _ => Unauthorized
          end
      | _, _ => Unauthorized
      end
    | _ => Unauthorized
    end.

End WithHost.

End Middleware.

(* ================================================================== *)
(** * The page *)
(* ================================================================== *)

Module Page.

Inductive Role := user | ernesto.

Record ChatMsg := mkMsg {
  id : jsstring;
  role : Role;
  text : jsstring;
  graph : option value
}.

(** The request [askTutor] sends for a text, if it sends one: none for a
    blank text, none while an answer is awaited.  The body is given as
    the handler reads it back from the JSON sent. *)
Definition askTutorRequest (chat : list ChatMsg) (loading : bool)
           (speed : Tutor.Speed) (text : jsstring)
  : option Tutor.requestBody :=
  let userText := trim text in
  match userText with
  | [] => None
  | _ =>
    if loading then None
    else Some (Tutor.mkBody (Some userText)
                            (Some (Nat.eqb (length chat) 0))
                            (Some speed))
  end.

End Page.

(* ================================================================== *)
(** * Properties *)
(* ================================================================== *)

Local Open Scope bool_scope.

Module ModelChecks.
Import Tutor.

(** The conversions between strings and numbers, on values whose
    results are well known. *)
Example Number_tenth :
  Number (lit "0.1") = S754_finite false 7205759403792794 (-56).
Proof. vm_compute. reflexivity. Qed.

Example Number_forms :
  map Number [lit "260"; lit " 1,5 "; lit "-0"; lit ""; lit "0x1F"; lit "1e3";
              lit "Infinity"; lit ".5"; lit "5."]
  = [ofZ 260; NaN; S754_zero true; posZero; ofZ 31; ofZ 1000;
     S754_infinity false; Number (lit "0.5"); ofZ 5].
Proof. vm_compute. reflexivity. Qed.

Example toString_forms :
  map (fun s => toString (Number (lit s)))
      ["0.1"; "260"; "-1.5"; "1e21"; "1e23"; "0.000001"; "0.0000001"; "100";
       "5e-324"; "1.7976931348623157e308"; "0.30000000000000004";
       "9007199254740993"; "99999999999999999999"; "1.50"; "007"]%string
  = map lit
      ["0.1"; "260"; "-1.5"; "1e+21"; "1e+23"; "0.000001"; "1e-7"; "100";
       "5e-324"; "1.7976931348623157e+308"; "0.30000000000000004";
       "9007199254740992"; "100000000000000000000"; "1.5"; "7"]%string.
Proof. vm_compute. reflexivity. Qed.

Example toFixed_forms :
  map (fun s => toFixed (Number (lit s)) 2)
      ["0.1"; "0.456"; "1.005"; "0.125"; "1"; "-0.001"; "12.345"]%string
  = map lit ["0.10"; "0.46"; "1.00"; "0.13"; "1.00"; "-0.00"; "12.35"]%string.
Proof. vm_compute. reflexivity. Qed.

(** The number pattern, on a text with signs, commas and dots. *)
Example numberPattern_matches :
  matchAll false numberPattern (lit "a-12,5 b 3.x 4.50 --7 12-3 1,2,3")
  = map lit ["-12,5"; "3"; "4.50"; "-7"; "12"; "-3"; "1,2"; "3"]%string.
Proof. vm_compute. reflexivity. Qed.

Example ouPattern_tests :
  map (test false ouPattern) [lit "pain ou pizza"; lit "four"; lit "ou"]
  = [true; false; true].
Proof. vm_compute. reflexivity. Qed.

Example unitsPattern_tests :
  map (test true unitsPattern)
      [lit "12 %"; lit "w 260"; lit "2 kg"; lit "2 kgs"; lit "12 34";
       lit "3 h"; lit "t°"; lit "5 €"]
  = [true; true; true; false; false; true; true; true].
Proof. vm_compute. reflexivity. Qed.

(** The block pattern stops at the first closing marker and strips the
    whitespace around the content. *)
Example graphJsonBlock_match :
  exec true graphJsonBlock
       (lit "abc <graph_json>  {x}  y  </GRAPH_json> tail </GRAPH_JSON>")
  = Some (mkMatch 4 (lit "<graph_json>  {x}  y  </GRAPH_json>")
                  [(1%nat, lit "{x}  y")]).
Proof. vm_compute. reflexivity. Qed.

Example parse_forms :
  map parse [qlit " {'a' : [1, 2.5e1, true, null, 'xé'], 'b':{}, 'a': 'z'} ";
             lit "null"; lit "01"; lit "[1,]"; lit ""; lit "1 2";
             qlit "{'a':1,}"; lit "-"; lit "1.e3"; lit "[1 , 2 ]"]
  = [Some (VObj [(lit "a", Json.text "z"); (lit "b", VObj [])]);
     Some VNull; None; None; None; None; None; None; None;
     Some (arr [num 1; num 2])].
Proof. vm_compute. reflexivity. Qed.

Lemma lowerLatin1_asciiUpper (c : N) :
  lowerLatin1Unit (asciiUpper c) = lowerLatin1Unit c.
Proof.
  unfold lowerLatin1Unit, asciiUpper.
  destruct (N.leb_spec 97 c), (N.leb_spec c 122); cbn [andb];
    repeat match goal with
           | |- context [?a <=? ?b] =>
             destruct (N.leb_spec a b); cbn [andb negb]
           | |- context [?a =? ?b] =>
             destruct (N.eqb_spec a b); cbn [andb negb]
           end; try reflexivity; lia.
Qed.

(** With the Latin-1 lowering, a text and the text with its ASCII letters
    in upper case have the same signals. *)
Lemma getSignals_ignores_ascii_case (message : jsstring) :
  getSignals toLowerCaseLatin1 (map asciiUpper message)
  = getSignals toLowerCaseLatin1 message.
Proof.
  assert (E : toLowerCaseLatin1 (map asciiUpper message)
              = toLowerCaseLatin1 message).
  { unfold toLowerCaseLatin1. rewrite map_map. apply map_ext.
    apply lowerLatin1_asciiUpper. }
  change (getSignals (fun s => s) (toLowerCaseLatin1 (map asciiUpper message))
          = getSignals (fun s => s) (toLowerCaseLatin1 message)).
  now rewrite E.
Qed.

End ModelChecks.

Module JsStringFacts.

Lemma eqb_eq (a b : jsstring) : JsString.eqb a b = true <-> a = b.
Proof.
  unfold JsString.eqb. destruct (list_eq_dec N.eq_dec a b); split; congruence.
Qed.

Lemma eqb_refl (a : jsstring) : JsString.eqb a a = true.
Proof. now apply eqb_eq. Qed.

Lemma eqb_neq (a b : jsstring) : JsString.eqb a b = false <-> a <> b.
Proof.
  unfold JsString.eqb. destruct (list_eq_dec N.eq_dec a b); split; congruence.
Qed.

Lemma eqb_sym (a b : jsstring) : JsString.eqb a b = JsString.eqb b a.
Proof.
  destruct (JsString.eqb b a) eqn:E.
  - apply eqb_eq in E. subst. apply eqb_refl.
  - apply eqb_neq in E. apply eqb_neq. congruence.
Qed.

End JsStringFacts.
Import JsStringFacts.

Module JsonFacts.

Lemma lookup_update_eq k v ps : lookup k (update k v ps) = Some v.
Proof.
  induction ps as [|[k' v'] ps IH]; simpl.
  - now rewrite eqb_refl.
  - destruct (JsString.eqb k k') eqn:E; simpl; rewrite ?eqb_refl, ?E; auto.
Qed.

Lemma lookup_update_ne k k' v ps :
  JsString.eqb k k' = false -> lookup k (update k' v ps) = lookup k ps.
Proof.
  intros Hne. induction ps as [|[k2 v2] ps IH]; simpl.
  - now rewrite Hne.
  - destruct (JsString.eqb k' k2) eqn:E; simpl.
    + apply eqb_eq in E. subst k2. now rewrite Hne.
    + destruct (JsString.eqb k k2); auto.
Qed.

Lemma get_set_eq o k v : isObject o = true -> get (set o k v) k = Some v.
Proof. destruct o; simpl; try discriminate; intros _; apply lookup_update_eq. Qed.

Lemma get_set_ne o k k' v :
  JsString.eqb k k' = false -> get (set o k' v) k = get o k.
Proof. intros H. destruct o; simpl; auto; now apply lookup_update_ne. Qed.

Lemma isObject_set o k v : isObject (set o k v) = isObject o.
Proof. now destruct o. Qed.

Lemma isObject_truthy o : isObject o = true -> truthy o = true.
Proof. now destruct o. Qed.

End JsonFacts.
Import JsonFacts.

Module ParseFacts.

Lemma dropWhile_length (p : N -> bool) (l : jsstring) :
  (length (dropWhile p l) <= length l)%nat.
Proof.
  induction l as [|c l IH]; cbn; [lia|]. destruct (p c); cbn; lia.
Qed.

Lemma takeWhile_dropWhile_length (p : N -> bool) (l : jsstring) :
  (length (takeWhile p l) + length (dropWhile p l) = length l)%nat.
Proof.
  induction l as [|c l IH]; cbn; [lia|]. destruct (p c); cbn; lia.
Qed.

Lemma skipSpace_length (s : jsstring) :
  (length (skipSpace s) <= length s)%nat.
Proof. apply dropWhile_length. Qed.

Lemma parseChars_length (s acc key r : jsstring) :
  parseChars s acc = Some (key, r) -> (length r < length s)%nat.
Proof.
  remember (length s) as n eqn:Hn. revert s acc Hn.
  induction n as [n IH] using lt_wf_ind. intros s acc Hn.
  destruct s as [|c s]; [discriminate|]. cbn [parseChars].
  assert (Rec : forall t acc', (length t <= length s)%nat ->
                  parseChars t acc' = Some (key, r) ->
                  (length r < length t)%nat).
  { intros t acc' Ht. apply (IH (length t)); [cbn in Hn; lia|reflexivity]. }
  destruct (c =? 34); [intros [= <- <-]; cbn in *; lia|].
  destruct (c =? 92).
  - destruct s as [|e s']; [discriminate|].
    assert (Rec' : forall acc', parseChars s' acc' = Some (key, r) ->
                                (length r < n)%nat).
    { intros acc' H. apply Rec in H; cbn in *; lia. }
    destruct ((e =? 34) || (e =? 92) || (e =? 47)); [apply Rec'|].
    destruct (e =? 98); [apply Rec'|].
    destruct (e =? 102); [apply Rec'|].
    destruct (e =? 110); [apply Rec'|].
    destruct (e =? 114); [apply Rec'|].
    destruct (e =? 116); [apply Rec'|].
    destruct (e =? 117); [|discriminate].
    destruct s' as [|h1 [|h2 [|h3 [|h4 s'']]]]; try discriminate.
    destruct (forallb isHex [h1; h2; h3; h4]); [|discriminate].
    intros H. apply Rec in H; cbn in *; lia.
  - destruct (c <? 32); [discriminate|].
    intros H. apply Rec in H; cbn in *; lia.
Qed.

Lemma parseNumber_length (s : jsstring) (n : number) (r : jsstring) :
  parseNumber s = Some (n, r) -> (length r < length s)%nat.
Proof.
  unfold parseNumber.
  set (r0 := match s with 45 :: t => t | _ => s end).
  assert (H0 : (length r0 <= length s)%nat).
  { unfold r0. destruct s as [|c t]; [cbn; lia|].
    destruct c as [|p]; [cbn; lia|].
    destruct (Pos.eq_dec p 45) as [->|Hne]; [cbn; lia|].
    repeat (destruct p as [p|p|]; try (cbn; lia)). }
  replace (match s with 45 :: t => (true, t) | _ => (false, s) end)
    with (match s with 45 :: _ => true | _ => false end, r0).
  2:{ unfold r0. destruct s as [|c t]; [reflexivity|].
      destruct c as [|p]; [reflexivity|].
      repeat (destruct p as [p|p|]; try reflexivity). }
  pose proof (takeWhile_dropWhile_length isDigit r0) as Hip.
  set (ip := takeWhile isDigit r0) in *.
  set (r1 := dropWhile isDigit r0) in *.
  set (intOk := match ip with [] => false | [_] => true | d :: _ :: _ => negb (d =? 48) end).
  assert (Hint : intOk = true -> (length r1 < length r0)%nat).
  { unfold intOk. destruct ip; [discriminate|]. cbn in Hip. lia. }
  set (fr := match r1 with
             | 46 :: t => (takeWhile isDigit t, negb (Nat.eqb (length (takeWhile isDigit t)) 0), dropWhile isDigit t)
             | _ => ([], true, r1)
             end).
  assert (H2 : (length (snd fr) <= length r1)%nat).
  { unfold fr. destruct r1 as [|c t]; [cbn; lia|].
    pose proof (dropWhile_length isDigit t).
    destruct c as [|p]; [cbn; lia|].
    repeat (destruct p as [p|p|]; try (cbn [snd length]; lia)). }
  destruct fr as [[fp fracOk] r2]. cbn [snd] in H2.
  set (ex := match r2 with
             | e :: t =>
               if (e =? 101) || (e =? 69) then
                 let '(eneg, r') :=
                   match t with
                   | 45 :: r' => (true, r')
                   | 43 :: r' => (false, r')
                   | _ => (false, t)
                   end in
                 let ds := takeWhile isDigit r' in
                 let v := Z.of_N (digitsValue 10 0 ds) in
                 ((if eneg then - v else v)%Z, negb (Nat.eqb (length ds) 0),
                  dropWhile isDigit r')
               else (0%Z, true, r2)
             | [] => (0%Z, true, r2)
             end).
  assert (H3 : (length (snd ex) <= length r2)%nat).
  { unfold ex. destruct r2 as [|e t]; [cbn; lia|].
    destruct ((e =? 101) || (e =? 69)); [|cbn; lia].
    assert (Ht : forall u, (length u <= length t)%nat ->
                   (length (dropWhile isDigit u) <= length (e :: t))%nat).
    { intros u Hu. pose proof (dropWhile_length isDigit u). cbn. lia. }
    destruct t as [|c t']; [cbn; lia|].
    destruct c as [|p]; [apply Ht; lia|].
    repeat (destruct p as [p|p|]; try (apply Ht; cbn; lia)). }
  destruct ex as [[ev expOk] r3]. cbn [snd] in H3.
  destruct intOk; [|discriminate]. specialize (Hint eq_refl).
  destruct (true && fracOk && expOk); [|discriminate].
  intros [= _ <-]. lia.
Qed.


Lemma startsWith_length (p s : jsstring) :
  startsWith p s = true -> (length p <= length s)%nat.
Proof.
  revert s. induction p as [|a p IH]; intros s H; [cbn; lia|].
  destruct s as [|b s]; [discriminate|]. cbn in H.
  apply andb_true_iff in H. destruct H as [_ H]. apply IH in H. cbn. lia.
Qed.

Lemma parseValue_S (f : nat) (s : jsstring) :
  parseValue (S f) s
  = match skipSpace s with
    | [] => None
    | c :: r =>
      if c =? 123 then
        match skipSpace r with
        | 125 :: r' => Some (VObj [], r')
        | _ => parseMembers f r []
        end
      else if c =? 91 then
        match skipSpace r with
        | 93 :: r' => Some (arr [], r')
        | _ => parseElements f r []
        end
      else if c =? 34 then
        match parseChars r [] with
        | Some (str, r') => Some (VStr str, r')
        | None => None
        end
      else if startsWith (lit "true") (c :: r)
      then Some (VBool true, skipn 4 (c :: r))
      else if startsWith (lit "false") (c :: r)
      then Some (VBool false, skipn 5 (c :: r))
      else if startsWith (lit "null") (c :: r)
      then Some (VNull, skipn 4 (c :: r))
      else
        match parseNumber (c :: r) with
        | Some (n, r') => Some (VNum n, r')
        | None => None
        end
    end.
Proof. reflexivity. Qed.

Ltac shorter :=
  repeat match goal with
         | H : skipSpace ?s = _ |- _ =>
           let L := fresh "L" in
           pose proof (skipSpace_length s) as L; rewrite H in L;
           cbn [length] in L; clear H
         | H : parseChars _ _ = Some _ |- _ => apply parseChars_length in H
         | H : parseNumber _ = Some _ |- _ => apply parseNumber_length in H
         end;
  cbn [length] in *; try lia.

(** Each of the three parsers consumes at least one unit. *)
Lemma parse_consumes (fuel : nat) :
  (forall s v r, parseValue fuel s = Some (v, r) ->
                 (length r < length s)%nat)
  /\ (forall s acc v r, parseElements fuel s acc = Some (v, r) ->
                        (length r < length s)%nat)
  /\ (forall s acc v r, parseMembers fuel s acc = Some (v, r) ->
                        (length r < length s)%nat).
Proof.
  induction fuel as [|f (IHv & IHe & IHm)];
    [repeat split; intros; discriminate|].
  repeat split.
  - intros s v r. rewrite parseValue_S.
    destruct (skipSpace s) as [|c r0] eqn:Es; [discriminate|].
    destruct (c =? 123).
    { destruct (skipSpace r0) as [|c1 r1] eqn:E1.
      - intros H. apply IHm in H. shorter.
      - destruct (N.eq_dec c1 125) as [->|Hne].
        + intros [= <- <-]. shorter.
        + intros H.
          assert (H' : parseMembers f r0 [] = Some (v, r)).
          { destruct c1 as [|p]; [exact H|].
            repeat (destruct p as [p|p|]; try exact H). congruence. }
          apply IHm in H'. clear H. shorter. }
    destruct (c =? 91).
    { destruct (skipSpace r0) as [|c1 r1] eqn:E1.
      - intros H. apply IHe in H. shorter.
      - destruct (N.eq_dec c1 93) as [->|Hne].
        + intros [= <- <-]. shorter.
        + intros H.
          assert (H' : parseElements f r0 [] = Some (v, r)).
          { destruct c1 as [|p]; [exact H|].
            repeat (destruct p as [p|p|]; try exact H). congruence. }
          apply IHe in H'. clear H. shorter. }
    destruct (c =? 34).
    { destruct (parseChars r0 []) as [[str r']|] eqn:P; [|discriminate].
      intros [= <- <-]. shorter. }
    destruct (startsWith (lit "true") (c :: r0)) eqn:T1.
    { intros H. assert (E : r = skipn 4 (c :: r0)) by congruence.
      apply startsWith_length in T1.
      rewrite E, length_skipn. change (length (lit "true")) with 4%nat in T1.
      clear IHv IHe IHm H E. shorter. }
    destruct (startsWith (lit "false") (c :: r0)) eqn:T2.
    { intros H. assert (E : r = skipn 5 (c :: r0)) by congruence.
      apply startsWith_length in T2.
      rewrite E, length_skipn. change (length (lit "false")) with 5%nat in T2.
      clear IHv IHe IHm H E. shorter. }
    destruct (startsWith (lit "null") (c :: r0)) eqn:T3.
    { intros H. assert (E : r = skipn 4 (c :: r0)) by congruence.
      apply startsWith_length in T3.
      rewrite E, length_skipn. change (length (lit "null")) with 4%nat in T3.
      clear IHv IHe IHm H E. shorter. }
    destruct (parseNumber (c :: r0)) as [[n r']|] eqn:P; [|discriminate].
    intros [= <- <-]. shorter.
  - intros s acc v r. cbn [parseElements].
    destruct (parseValue f s) as [[v1 r1]|] eqn:P; [|discriminate].
    apply IHv in P.
    destruct (skipSpace r1) as [|c r2] eqn:E1; [discriminate|].
    destruct (N.eq_dec c 44) as [->|H44].
    + intros H. apply IHe in H. shorter.
    + destruct (N.eq_dec c 93) as [->|H93].
      * intros [= <- <-]. shorter.
      * intros H. exfalso. destruct c as [|p]; [discriminate|].
        repeat (destruct p as [p|p|]; try discriminate); congruence.
  - intros s acc v r. cbn [parseMembers].
    destruct (skipSpace s) as [|c r0] eqn:Es; [discriminate|].
    destruct (N.eq_dec c 34) as [->|H34].
    2:{ intros H. exfalso. destruct c as [|p]; [discriminate|].
        repeat (destruct p as [p|p|]; try discriminate); congruence. }
    destruct (parseChars r0 []) as [[key r1]|] eqn:Pk; [|discriminate].
    destruct (skipSpace r1) as [|c2 r2] eqn:E2; [discriminate|].
    destruct (N.eq_dec c2 58) as [->|H58].
    2:{ intros H. exfalso. destruct c2 as [|p]; [discriminate|].
        repeat (destruct p as [p|p|]; try discriminate); congruence. }
    destruct (parseValue f r2) as [[v1 r3]|] eqn:P; [|discriminate].
    apply IHv in P.
    destruct (skipSpace r3) as [|c4 r4] eqn:E4; [discriminate|].
    destruct (N.eq_dec c4 44) as [->|H44].
    + intros H. apply IHm in H. shorter.
    + destruct (N.eq_dec c4 125) as [->|H125].
      * intros [= <- <-]. shorter.
      * intros H. exfalso. destruct c4 as [|p]; [discriminate|].
        repeat (destruct p as [p|p|]; try discriminate); congruence.
Qed.


(** Fuel beyond two units per unit of input is never used. *)
Lemma parse_fuel (fuel extra : nat) :
  (forall s, (2 * length s + 1 <= fuel)%nat ->
             parseValue (fuel + extra) s = parseValue fuel s)
  /\ (forall s acc, (2 * length s + 2 <= fuel)%nat ->
                    parseElements (fuel + extra) s acc
                    = parseElements fuel s acc)
  /\ (forall s acc, (2 * length s + 2 <= fuel)%nat ->
                    parseMembers (fuel + extra) s acc
                    = parseMembers fuel s acc).
Proof.
  induction fuel as [|f (IHv & IHe & IHm)];
    [repeat split; intros; lia|].
  destruct (parse_consumes f) as (Cv & _ & _).
  repeat split.
  - intros s Hs. cbn [Nat.add]. rewrite !parseValue_S.
    destruct (skipSpace s) as [|c r0] eqn:Es; [reflexivity|].
    pose proof (skipSpace_length s) as L. rewrite Es in L. cbn [length] in L.
    rewrite (IHm r0 []) by lia. rewrite (IHe r0 []) by lia. reflexivity.
  - intros s acc Hs. cbn [Nat.add parseElements].
    rewrite (IHv s) by lia.
    destruct (parseValue f s) as [[v r1]|] eqn:P; [|reflexivity].
    apply Cv in P.
    destruct (skipSpace r1) as [|c r2] eqn:E1; [reflexivity|].
    pose proof (skipSpace_length r1) as L. rewrite E1 in L. cbn [length] in L.
    rewrite (IHe r2 (v :: acc)) by lia. reflexivity.
  - intros s acc Hs. cbn [Nat.add parseMembers].
    destruct (skipSpace s) as [|c r0] eqn:Es; [reflexivity|].
    pose proof (skipSpace_length s) as L. rewrite Es in L. cbn [length] in L.
    destruct (parseChars r0 []) as [[key r1]|] eqn:Pk.
    2:{ destruct c as [|p]; [reflexivity|].
        repeat (destruct p as [p|p|]; try reflexivity). }
    apply parseChars_length in Pk.
    destruct (skipSpace r1) as [|c2 r2] eqn:E2.
    { destruct c as [|p]; [reflexivity|].
      repeat (destruct p as [p|p|]; try reflexivity). }
    pose proof (skipSpace_length r1) as L2. rewrite E2 in L2.
    cbn [length] in L2.
    rewrite (IHv r2) by lia.
    destruct (parseValue f r2) as [[v r3]|] eqn:P.
    2:{ destruct c as [|p]; [reflexivity|].
        repeat (destruct p as [p|p|]; try reflexivity);
          destruct c2 as [|q]; try reflexivity;
          repeat (destruct q as [q|q|]; try reflexivity). }
    apply Cv in P.
    destruct (skipSpace r3) as [|c4 r4] eqn:E4.
    { destruct c as [|p]; [reflexivity|].
      repeat (destruct p as [p|p|]; try reflexivity). }
    pose proof (skipSpace_length r3) as L4. rewrite E4 in L4.
    cbn [length] in L4.
    rewrite (IHm r4 (update key v acc)) by lia. reflexivity.
Qed.

(** The fuel [parse] gives to the parser is enough: more changes
    nothing. *)
Theorem parse_fuel_enough (s : jsstring) (extra : nat) :
  parseValue (2 * length s + 2 + extra) s = parseValue (2 * length s + 2) s.
Proof. apply (parse_fuel (2 * length s + 2) extra). lia. Qed.

End ParseFacts.
Import ParseFacts.

Module TutorFacts.
Import Tutor.

Section WithHost.
Variable toLowerCase : jsstring -> jsstring.

Lemma prop_assign_eq o k v : isObject o = true -> prop (assign o k v) k = Some v.
Proof. apply get_set_eq. Qed.

Lemma prop_assign_ne o k k' v :
  JsString.eqb (lit k) (lit k') = false -> prop (assign o k' v) k = prop o k.
Proof. apply get_set_ne. Qed.

Lemma isObject_assign o k v : isObject (assign o k v) = isObject o.
Proof. apply isObject_set. Qed.

(** The shape pass gives the graph a chart array: its own when it had
    one, an empty one otherwise. *)
Lemma ensure_charts (graph : value) (speed : Speed) (message : jsstring) :
  isObject graph = true ->
  prop (ensureGenericChartsAlways toLowerCase graph speed message) "charts"
  = Some (if needCharts speed (getSignals toLowerCase message)
             && Nat.eqb (lengthOf (prop graph "charts")) 0
          then arr (autoCharts (getSignals toLowerCase message))
          else arrayOrEmpty graph "charts").
Proof.
  intros Hobj. unfold ensureGenericChartsAlways.
  rewrite (isObject_truthy _ Hobj), Hobj. cbn [negb orb].
  set (s := getSignals toLowerCase message).
  set (g1 := assign graph "charts" (arrayOrEmpty graph "charts")).
  set (g2 := assign g1 "checklist" (arrayOrEmpty g1 "checklist")).
  set (g3 := assign g2 "questions" (arrayOrEmpty g2 "questions")).
  set (g4 := match prop g3 "recap_table" with
             | Some t => if isObject t then g3
                         else assign g3 "recap_table" minimalRecapTable
             | None => assign g3 "recap_table" minimalRecapTable
             end).
  assert (H1 : prop g1 "charts" = Some (arrayOrEmpty graph "charts"))
    by (apply prop_assign_eq; exact Hobj).
  assert (H3 : prop g3 "charts" = Some (arrayOrEmpty graph "charts")).
  { unfold g3, g2. rewrite !prop_assign_ne by reflexivity. exact H1. }
  assert (H4 : prop g4 "charts" = Some (arrayOrEmpty graph "charts")).
  { unfold g4. destruct (prop g3 "recap_table") as [t|];
      [destruct (isObject t)|]; rewrite ?prop_assign_ne by reflexivity; exact H3. }
  assert (O4 : isObject g4 = true).
  { unfold g4. destruct (prop g3 "recap_table") as [t|];
      [destruct (isObject t)|]; rewrite ?isObject_assign;
      unfold g3, g2, g1; now rewrite !isObject_assign. }
  assert (HL : lengthOf (Some (arrayOrEmpty graph "charts"))
               = lengthOf (prop graph "charts")).
  { unfold arrayOrEmpty. destruct (prop graph "charts") as [[]|]; reflexivity. }
  rewrite H4, HL.
  destruct (needCharts speed s); cbn [negb andb].
  - destruct (lengthOf (prop graph "charts")) eqn:EL; cbn [Nat.ltb Nat.leb Nat.eqb].
    + rewrite prop_assign_ne by reflexivity.
      rewrite prop_assign_eq by exact O4.
      unfold autoCharts. reflexivity.
    + exact H4.
  - exact H4.
Qed.


Lemma chartsOf_ensure (graph : value) (speed : Speed) (message : jsstring) :
  isObject graph = true ->
  chartsOf (ensureGenericChartsAlways toLowerCase graph speed message)
  = if needCharts speed (getSignals toLowerCase message)
       && Nat.eqb (length (chartsOf graph)) 0
    then autoCharts (getSignals toLowerCase message)
    else chartsOf graph.
Proof.
  intros Hobj. unfold chartsOf at 1. rewrite (ensure_charts _ _ _ Hobj).
  assert (HL : lengthOf (prop graph "charts") = length (chartsOf graph)).
  { unfold chartsOf, lengthOf. destruct (prop graph "charts") as [[]|]; reflexivity. }
  rewrite HL.
  destruct (needCharts speed (getSignals toLowerCase message)
            && Nat.eqb (length (chartsOf graph)) 0); [reflexivity|].
  unfold arrayOrEmpty, chartsOf.
  destruct (prop graph "charts") as [[]|]; reflexivity.
Qed.

Lemma chartsOf_nonempty_object (graph : value) :
  chartsOf graph <> [] -> isObject graph = true.
Proof.
  unfold chartsOf, prop. destruct graph; simpl; congruence.
Qed.

(** The pass is the identity on what is not an object. *)
Lemma ensure_not_object (graph : value) (speed : Speed) (message : jsstring) :
  isObject graph = false ->
  ensureGenericChartsAlways toLowerCase graph speed message = graph.
Proof.
  intros H. unfold ensureGenericChartsAlways. rewrite H.
  now rewrite orb_true_r.
Qed.

(** The signals are a function of the lowered text alone. *)
Lemma getSignals_lowered (message : jsstring) :
  getSignals toLowerCase message
  = getSignals (fun s => s) (toLowerCase message).
Proof. reflexivity. Qed.

End WithHost.

(** ** The set of the first values *)

Lemma SFcompare_refl (x : number) :
  x <> S754_nan -> SFcompare x x = Some Eq.
Proof.
  destruct x as [s|s| |s m e]; simpl; try congruence; intros _.
  - now destruct s.
  - destruct s; rewrite Z.compare_refl, Pos.compare_cont_refl; reflexivity.
Qed.

Lemma sameValueZero_refl (x : number) : sameValueZero x x = true.
Proof.
  destruct x as [s|s| |s m e]; [| |reflexivity|];
    unfold sameValueZero, SFeqb; rewrite SFcompare_refl; congruence.
Qed.

Lemma compare_cont_Eq_eq (p q : positive) :
  Pos.compare_cont Eq p q = Eq -> p = q.
Proof. apply Pos.compare_eq. Qed.

Lemma SFeqb_sym (x y : number) : SFeqb x y = SFeqb y x.
Proof.
  unfold SFeqb.
  destruct x as [s1|s1| |s1 m1 e1], y as [s2|s2| |s2 m2 e2]; simpl;
    try reflexivity;
    try (destruct s1, s2; reflexivity);
    try (destruct s1; reflexivity); try (destruct s2; reflexivity).
  destruct s1, s2; try reflexivity;
    rewrite (Z.compare_antisym e1 e2);
    destruct (e1 ?= e2)%Z eqn:E; simpl; try reflexivity;
    fold (Pos.compare m1 m2); fold (Pos.compare m2 m1);
    rewrite (Pos.compare_antisym m1 m2);
    destruct (m1 ?= m2)%positive; reflexivity.
Qed.

Lemma sameValueZero_sym (x y : number) : sameValueZero x y = sameValueZero y x.
Proof.
  unfold sameValueZero.
  destruct x, y; try reflexivity; apply SFeqb_sym.
Qed.

Lemma sameValueZero_stored_l (v a : number) :
  sameValueZero (stored v) a = sameValueZero v a.
Proof. destruct v as [s|s| |s m e]; reflexivity. Qed.

Lemma sameValueZero_stored_r (v a : number) :
  sameValueZero a (stored v) = sameValueZero a v.
Proof.
  now rewrite sameValueZero_sym, sameValueZero_stored_l, sameValueZero_sym.
Qed.

(** Equal values (SameValueZero) can stand for each other in a
    comparison with a third. *)
Lemma sameValueZero_trans (x y z : number) :
  sameValueZero x y = true -> sameValueZero y z = sameValueZero x z.
Proof.
  unfold sameValueZero, SFeqb.
  destruct x as [s1|s1| |s1 m1 e1], y as [s2|s2| |s2 m2 e2]; simpl;
    try discriminate; try reflexivity;
    try (destruct s1, s2; try discriminate; reflexivity);
    try (destruct s1; discriminate); try (destruct s2; discriminate).
  destruct s1, s2; try discriminate;
    destruct (e1 ?= e2)%Z eqn:E; try discriminate;
    apply Z.compare_eq in E; subst e2;
    destruct (Pos.compare_cont Eq m1 m2) eqn:E2; try discriminate;
    apply Pos.compare_eq in E2; subst m2; reflexivity.
Qed.


Lemma distinct_app_one (l : list number) (v : number) :
  distinct l -> existsb (sameValueZero v) l = false -> distinct (l ++ [v]).
Proof.
  induction 1 as [|a l Ha Hl IH]; simpl; intros Hv.
  - constructor; [constructor|constructor].
  - apply orb_false_iff in Hv. destruct Hv as [Hva Hvl].
    constructor; [|now apply IH].
    apply Forall_app. split; [exact Ha|].
    constructor; [|constructor]. now rewrite sameValueZero_sym.
Qed.

Lemma existsb_stored (v : number) (l : list number) :
  existsb (sameValueZero (stored v)) l = existsb (sameValueZero v) l.
Proof.
  induction l as [|a l IH]; simpl; [reflexivity|].
  now rewrite sameValueZero_stored_l, IH.
Qed.

Lemma existsb_app_one (v u : number) (l : list number) :
  existsb (sameValueZero v) (l ++ [u])
  = existsb (sameValueZero v) l || sameValueZero v u.
Proof. rewrite existsb_app. simpl. now rewrite orb_false_r. Qed.

Lemma setAdd_spec (acc : list number) (v u : number) :
  existsb (sameValueZero u) (setAdd acc v)
  = existsb (sameValueZero u) acc || sameValueZero u v.
Proof.
  unfold setAdd.
  destruct (existsb (sameValueZero v) acc) eqn:E.
  - destruct (sameValueZero u v) eqn:Euv; [|now rewrite orb_false_r].
    rewrite orb_true_r. rewrite <- E.
    clear E. induction acc as [|a acc IH]; simpl; [reflexivity|].
    rewrite IH. f_equal. symmetry. now apply sameValueZero_trans.
  - now rewrite existsb_app_one, sameValueZero_stored_r.
Qed.

Lemma setAdd_length (acc : list number) (v : number) :
  (length (setAdd acc v) <= S (length acc))%nat.
Proof.
  unfold setAdd. destruct (existsb _ acc); [lia|].
  rewrite length_app. simpl. lia.
Qed.

Lemma setAdd_distinct (acc : list number) (v : number) :
  distinct acc -> distinct (setAdd acc v).
Proof.
  intros H. unfold setAdd.
  destruct (existsb (sameValueZero v) acc) eqn:E; [exact H|].
  apply distinct_app_one; [exact H|]. now rewrite existsb_stored.
Qed.

Lemma fold_setAdd_spec (l acc : list number) (u : number) :
  existsb (sameValueZero u) (fold_left setAdd l acc)
  = existsb (sameValueZero u) acc || existsb (sameValueZero u) l.
Proof.
  revert acc. induction l as [|v l IH]; intros acc; simpl.
  - now rewrite orb_false_r.
  - now rewrite IH, setAdd_spec, orb_assoc.
Qed.

Lemma fold_setAdd_length (l acc : list number) :
  (length (fold_left setAdd l acc) <= length acc + length l)%nat.
Proof.
  revert acc. induction l as [|v l IH]; intros acc; simpl; [lia|].
  specialize (IH (setAdd acc v)). pose proof (setAdd_length acc v). lia.
Qed.

Lemma fold_setAdd_distinct (l acc : list number) :
  distinct acc -> distinct (fold_left setAdd l acc).
Proof.
  revert acc. induction l as [|v l IH]; intros acc H; simpl; [exact H|].
  apply IH. now apply setAdd_distinct.
Qed.

(** [uniques] keeps one value for each class of equal values of its
    argument, and nothing else. *)
Lemma uniques_spec (l : list number) (u : number) :
  existsb (sameValueZero u) (uniques l) = existsb (sameValueZero u) l.
Proof. unfold uniques. now rewrite fold_setAdd_spec. Qed.

Lemma uniques_length (l : list number) : (length (uniques l) <= length l)%nat.
Proof. unfold uniques. apply (fold_setAdd_length l []). Qed.

Lemma uniques_distinct (l : list number) : distinct (uniques l).
Proof. unfold uniques. apply fold_setAdd_distinct. constructor. Qed.

Lemma scatterPoints_nth (xs : list number) (j : Z) (i : nat) (v : number) :
  nth_error xs i = Some v ->
  nth_error (scatterPoints j xs) i
  = Some (point v (clamp (55 + (j + Z.of_nat i) * 6) 40 90) (toString v)).
Proof.
  revert j i. induction xs as [|x xs IH]; intros j i H.
  - destruct i; discriminate.
  - destruct i as [|i]; cbn [nth_error scatterPoints] in *.
    + injection H as ->. now rewrite Z.add_0_r.
    + rewrite (IH _ _ H).
      replace (j + Z.of_nat (S i))%Z with (j + 1 + Z.of_nat i)%Z by lia.
      reflexivity.
Qed.

Lemma scatterPoints_length (xs : list number) (j : Z) :
  length (scatterPoints j xs) = length xs.
Proof. revert j. induction xs; intros j; simpl; auto. Qed.

End TutorFacts.
Import TutorFacts.

Module TrimFacts.

Lemma startsWith_app (p s : jsstring) : startsWith p (p ++ s) = true.
Proof. induction p; simpl; [reflexivity|]. now rewrite N.eqb_refl. Qed.

Lemma includes_prefix (s needle : jsstring) :
  startsWith needle s = true -> includes s needle = true.
Proof. intros H. destruct s; simpl; now rewrite H. Qed.

Lemma includes_app (a needle b : jsstring) :
  includes (a ++ needle ++ b) needle = true.
Proof.
  induction a as [|c a IH].
  - cbn [app]. apply includes_prefix. apply startsWith_app.
  - simpl. rewrite IH. apply orb_true_r.
Qed.

Lemma dropWhile_app (p : N -> bool) (a b : jsstring) :
  dropWhile p a <> [] -> dropWhile p (a ++ b) = dropWhile p a ++ b.
Proof.
  induction a as [|c a IH]; simpl; [congruence|].
  destruct (p c); [exact IH|reflexivity].
Qed.

Lemma dropWhile_all (p : N -> bool) (a b : jsstring) :
  forallb p a = true -> dropWhile p (a ++ b) = dropWhile p b.
Proof.
  induction a as [|c a IH]; simpl; [reflexivity|].
  destruct (p c); [exact IH|discriminate].
Qed.

Lemma dropWhile_nil_iff (p : N -> bool) (a : jsstring) :
  dropWhile p a = [] <-> forallb p a = true.
Proof.
  induction a as [|c a IH]; simpl; [tauto|].
  destruct (p c); simpl; [exact IH|split; discriminate].
Qed.

Lemma forallb_rev (p : N -> bool) (a : jsstring) :
  forallb p (rev a) = forallb p a.
Proof.
  induction a as [|c a IH]; simpl; [reflexivity|].
  rewrite forallb_app, IH. simpl. rewrite andb_true_r. apply andb_comm.
Qed.

(** Trailing whitespace is stripped from the last part only, when that
    part is not all whitespace. *)
Lemma trimEnd_app (a b : jsstring) :
  forallb isWhiteSpace b = false -> trimEnd (a ++ b) = a ++ trimEnd b.
Proof.
  intros H. unfold trimEnd. rewrite rev_app_distr, dropWhile_app.
  - now rewrite rev_app_distr, rev_involutive.
  - intros E. apply dropWhile_nil_iff in E.
    rewrite forallb_rev in E. congruence.
Qed.

Lemma trimEnd_all (b : jsstring) :
  forallb isWhiteSpace b = true -> trimEnd b = [].
Proof.
  intros H. unfold trimEnd.
  assert (E : dropWhile isWhiteSpace (rev b) = [])
    by (apply dropWhile_nil_iff; now rewrite forallb_rev).
  now rewrite E.
Qed.

Lemma dropWhile_stop (p : N -> bool) (a b : jsstring) (c : N) :
  p c = false -> dropWhile p (a ++ c :: b) = dropWhile p a ++ c :: b.
Proof.
  intros Hc. induction a as [|x a IH]; simpl; [now rewrite Hc|].
  destruct (p x); [exact IH|reflexivity].
Qed.

Lemma trimEnd_stop (a b : jsstring) (d : N) :
  isWhiteSpace d = false -> trimEnd ((a ++ [d]) ++ b) = (a ++ [d]) ++ trimEnd b.
Proof.
  intros Hd. unfold trimEnd.
  rewrite rev_app_distr, rev_app_distr. cbn [rev app].
  rewrite dropWhile_stop by exact Hd.
  rewrite rev_app_distr. cbn [rev]. now rewrite rev_involutive.
Qed.

(** A part of a string flanked by two units that are not whitespace
    survives [trim]. *)
Lemma includes_trim (a a' needle b' b : jsstring) (c d : N) (s : jsstring) :
  s = a ++ (c :: a') ++ needle ++ (b' ++ [d]) ++ b ->
  isWhiteSpace c = false -> isWhiteSpace d = false ->
  includes (trim s) needle = true.
Proof.
  intros -> Hc Hd. unfold trim.
  replace (a ++ (c :: a') ++ needle ++ (b' ++ [d]) ++ b)
    with (((a ++ (c :: a') ++ needle ++ b') ++ [d]) ++ b)
    by (now rewrite <- !app_assoc).
  rewrite trimEnd_stop by exact Hd.
  unfold trimStart. rewrite <- !app_assoc. cbn [app].
  rewrite dropWhile_stop by exact Hc.
  replace (dropWhile isWhiteSpace a ++ c :: a' ++ needle ++ b' ++ d :: trimEnd b)
    with ((dropWhile isWhiteSpace a ++ c :: a') ++ needle
          ++ (b' ++ d :: trimEnd b))
    by (now rewrite <- !app_assoc).
  apply includes_app.
Qed.

End TrimFacts.
Import TrimFacts.

Module RegExpFacts.
Import Tutor.BlockSpec.

Lemma clearCaptures_none (b a : jsstring) (c : list (nat * jsstring)) :
  clearCaptures [] (mkState b a c) = mkState b a c.
Proof.
  unfold clearCaptures. cbn [before after captures existsb negb]. f_equal.
  induction c as [|kv c IH]; simpl; [reflexivity|now rewrite IH].
Qed.

(** A sequence of pattern characters, under the ignore-case flag, matches
    the units it is a prefix of up to ASCII case. *)
Lemma run_literal (p : jsstring) (b a : jsstring) (c : list (nat * jsstring))
      (k : cont) :
  run true (seq (map Lit p)) (mkState b a c) k
  = if startsWithIgnoreCase p a
    then k (mkState (rev (firstn (length p) a) ++ b) (skipn (length p) a) c)
    else None.
Proof.
  revert b a. induction p as [|q p IH]; intros b a.
  - reflexivity.
  - cbn [map seq fold_right run after]. destruct a as [|ch rest]; [reflexivity|].
    cbn [startsWithIgnoreCase canonicalize]. destruct (asciiUpper ch =? asciiUpper q);
      [|reflexivity].
    unfold step. cbn [before captures andb]. fold (seq (map Lit p)).
    rewrite IH. cbn [length firstn skipn rev]. now rewrite <- app_assoc.
Qed.

Lemma agreeUpTo_le (n n' : nat) (k k' : cont) :
  (n' <= n)%nat -> agreeUpTo n k k' -> agreeUpTo n' k k'.
Proof. intros Hn H y Hy. apply H. lia. Qed.

Section Repeat.

Variable m : state -> cont -> option state.
Variable gs : list nat.
Variable greedy : bool.

(** The body matcher only moves forward: it cannot tell apart two
    continuations that agree from its position on. *)
Hypothesis m_local :
  forall x k k', agreeUpTo (length (after x)) k k' -> m x k = m x k'.

Lemma repeatMatcher_local (fuel min : nat) (max : option nat) (x : state)
      (k k' : cont) :
  agreeUpTo (length (after x)) k k' ->
  repeatMatcher m gs greedy fuel min max x k
  = repeatMatcher m gs greedy fuel min max x k'.
Proof.
  revert min max x. induction fuel as [|fuel IH]; intros min max x H.
  - destruct max as [[|mx]|]; cbn; auto.
  - assert (Hx : k x = k' x) by (apply H; lia).
    assert (Hd : forall mx',
               m (clearCaptures gs x)
                 (fun y =>
                    if Nat.eqb min 0
                       && Nat.eqb (length (after y)) (length (after x))
                    then None
                    else repeatMatcher m gs greedy fuel (pred min) mx' y k)
               = m (clearCaptures gs x)
                   (fun y =>
                      if Nat.eqb min 0
                         && Nat.eqb (length (after y)) (length (after x))
                      then None
                      else repeatMatcher m gs greedy fuel (pred min) mx' y k')).
    { intros mx'. apply m_local. intros y Hy.
      destruct (Nat.eqb min 0 && _); [reflexivity|].
      apply IH. apply agreeUpTo_le with (length (after x)); [exact Hy|exact H]. }
    destruct max as [[|mx]|]; cbn [repeatMatcher]; auto;
      rewrite Hd, Hx; reflexivity.
Qed.

(** Fuel beyond [min + length (after x)] iterations is never used. *)
Lemma repeatMatcher_fuel (fuel extra min : nat) (max : option nat)
      (x : state) (k : cont) :
  (S (min + length (after x)) <= fuel)%nat ->
  repeatMatcher m gs greedy (fuel + extra) min max x k
  = repeatMatcher m gs greedy fuel min max x k.
Proof.
  revert min max x. induction fuel as [|fuel IH]; intros min max x H; [lia|].
  assert (Hd : forall mx',
             m (clearCaptures gs x)
               (fun y =>
                  if Nat.eqb min 0
                     && Nat.eqb (length (after y)) (length (after x))
                  then None
                  else repeatMatcher m gs greedy (fuel + extra) (pred min)
                                     mx' y k)
             = m (clearCaptures gs x)
                 (fun y =>
                    if Nat.eqb min 0
                       && Nat.eqb (length (after y)) (length (after x))
                    then None
                    else repeatMatcher m gs greedy fuel (pred min) mx' y k)).
  { intros mx'. apply m_local. intros y Hy. cbn [clearCaptures after] in Hy.
    destruct (Nat.eqb min 0) eqn:E0; cbn [andb].
    - destruct (Nat.eqb (length (after y)) (length (after x))) eqn:E1;
        [reflexivity|].
      apply Nat.eqb_eq in E0. apply Nat.eqb_neq in E1. apply IH. lia.
    - apply Nat.eqb_neq in E0. apply IH. lia. }
  destruct max as [[|mx]|]; cbn [repeatMatcher Nat.add]; auto;
    rewrite Hd; reflexivity.
Qed.

End Repeat.

Lemma run_local (ic : bool) (r : regex) (x : state) (k k' : cont) :
  agreeUpTo (length (after x)) k k' -> run ic r x k = run ic r x k'.
Proof.
  revert x k k'.
  induction r as [|c|p|r1 IH1 r2 IH2|r1 IH1 r2 IH2|g mn mx r IH| |i r IH];
    intros x k k' H; cbn [run].
  - apply H. lia.
  - destruct (after x) as [|ch rest] eqn:E; [reflexivity|].
    destruct (_ =? _); [|reflexivity]. apply H. cbn. lia.
  - destruct (after x) as [|ch rest] eqn:E; [reflexivity|].
    destruct (p ch); [|reflexivity]. apply H. cbn. lia.
  - apply IH1. intros y Hy. apply IH2.
    now apply agreeUpTo_le with (length (after x)).
  - now rewrite (IH1 x k k' H), (IH2 x k k' H).
  - apply repeatMatcher_local; [exact IH|exact H].
  - destruct (xorb _ _); [|reflexivity]. apply H. lia.
  - apply IH. intros y Hy. apply H. exact Hy.
Qed.

(** The fuel [run] gives to a quantifier is enough: more changes
    nothing. *)
Theorem run_quantifier_fuel (ic greedy : bool) (min : nat) (max : option nat)
        (r : regex) (x : state) (k : cont) (extra : nat) :
  repeatMatcher (run ic r) (groupsOf r) greedy
                (S (min + length (after x)) + extra) min max x k
  = run ic (Quant greedy min max r) x k.
Proof.
  cbn [run]. apply repeatMatcher_fuel; [|lia].
  intros y h h'. apply run_local.
Qed.

Lemma length_neq_S (n : nat) : Nat.eqb n (S n) = false.
Proof. apply Nat.eqb_neq. lia. Qed.

(** One step of a greedy star over a class. *)
Lemma run_star_class (ic : bool) (p : N -> bool) (b a : jsstring)
      (c : list (nat * jsstring)) (k : cont) :
  run ic (star (Class p)) (mkState b a c) k
  = match a with
    | ch :: rest =>
      if p ch then
        match run ic (star (Class p)) (mkState (ch :: b) rest c) k with
        | Some z => Some z
        | None => k (mkState b a c)
        end
      else k (mkState b a c)
    | [] => k (mkState b a c)
    end.
Proof.
  unfold star. cbn [run repeatMatcher]. cbn [after Nat.add length].
  cbn [groupsOf Nat.eqb negb andb]. rewrite clearCaptures_none.
  cbn [after]. destruct a as [|ch rest]; [reflexivity|].
  destruct (p ch); [|reflexivity].
  cbn [length]. rewrite length_neq_S. unfold step. cbn [before captures pred option_map].
  reflexivity.
Qed.

(** One step of a lazy star over a class. *)
Lemma run_lazyStar_class (ic : bool) (p : N -> bool) (b a : jsstring)
      (c : list (nat * jsstring)) (k : cont) :
  run ic (lazyStar (Class p)) (mkState b a c) k
  = match k (mkState b a c) with
    | Some z => Some z
    | None =>
      match a with
      | ch :: rest =>
        if p ch then run ic (lazyStar (Class p)) (mkState (ch :: b) rest c) k
        else None
      | [] => None
      end
    end.
Proof.
  unfold lazyStar. cbn [run repeatMatcher]. cbn [after Nat.add length].
  cbn [groupsOf Nat.eqb negb andb]. rewrite clearCaptures_none.
  cbn [after]. destruct (k (mkState b a c)); [reflexivity|].
  destruct a as [|ch rest]; [reflexivity|].
  destruct (p ch); [|reflexivity].
  cbn [length]. rewrite length_neq_S. unfold step. cbn [before captures pred option_map].
  reflexivity.
Qed.


(** ** The search *)

Lemma consumed_length (x y : state) :
  (length (consumed x y) <= length (after x))%nat.
Proof. unfold consumed. rewrite length_firstn. lia. Qed.

Lemma execFrom_bounds (ic : bool) (r : regex) (bef aft : jsstring)
      (m : matchResult) :
  execFrom ic r bef aft = Some m ->
  exists i, index m = (length bef + i)%nat
            /\ (i + length (matched m) <= length aft)%nat.
Proof.
  revert bef. induction aft as [|c rest IH]; intros bef; cbn [execFrom].
  - destruct (run ic r (mkState bef [] []) (fun y => Some y)) as [y|];
      [|discriminate].
    intros [= <-]. exists O. cbn [index matched]. split; [lia|].
    apply (consumed_length (mkState bef [] []) y).
  - destruct (run ic r (mkState bef (c :: rest) []) (fun y => Some y)) as [y|].
    + intros [= <-]. exists O. cbn [index matched]. split; [lia|].
      apply (consumed_length (mkState bef (c :: rest) []) y).
    + intros H. destruct (IH _ H) as (i & Hi & Hl).
      exists (S i). cbn [length] in *. lia.
Qed.

(** The fuel [matchAll] gives to the search is enough: every round
    moves on by one unit at least. *)
Lemma matchAllFrom_fuel (ic : bool) (r : regex) (fuel extra : nat)
      (bef aft : jsstring) :
  (S (length aft) <= fuel)%nat ->
  matchAllFrom (fuel + extra) ic r bef aft = matchAllFrom fuel ic r bef aft.
Proof.
  revert bef aft. induction fuel as [|fuel IH]; intros bef aft H; [lia|].
  cbn [Nat.add matchAllFrom].
  destruct (execFrom ic r bef aft) as [m|] eqn:E; [|reflexivity].
  destruct (execFrom_bounds _ _ _ _ _ E) as (i & Hi & Hl).
  set (e := (index m - length bef + length (matched m))%nat).
  set (e' := match matched m with [] => S e | _ :: _ => e end).
  assert (He : (1 <= e')%nat).
  { unfold e', e. destruct (matched m); cbn [length] in *; lia. }
  destruct (length aft <? e')%nat eqn:L; [reflexivity|].
  f_equal. apply IH. rewrite length_skipn. apply Nat.ltb_ge in L. lia.
Qed.

Theorem matchAll_fuel (ic : bool) (r : regex) (s : jsstring) (extra : nat) :
  matchAllFrom (S (length s) + extra) ic r [] s = matchAll ic r s.
Proof. apply matchAllFrom_fuel. lia. Qed.

End RegExpFacts.
Import RegExpFacts.

Module BlockFacts.
Import Tutor Tutor.BlockSpec.

Lemma closeMarker_head : closeMarker = 60 :: lit "/GRAPH_JSON>".
Proof. vm_compute. reflexivity. Qed.

Lemma closeMarker_length : length closeMarker = 13%nat.
Proof. vm_compute. reflexivity. Qed.

Lemma openMarker_length : length openMarker = 12%nat.
Proof. vm_compute. reflexivity. Qed.

Lemma whitespace_not_lt (ch : N) :
  isWhiteSpace ch = true -> (asciiUpper ch =? asciiUpper 60) = false.
Proof.
  intros H. change (asciiUpper 60) with 60.
  destruct (asciiUpper ch =? 60) eqn:E; [|reflexivity].
  apply N.eqb_eq in E. unfold asciiUpper in E.
  destruct ((97 <=? ch) && (ch <=? 122)) eqn:R.
  - apply andb_true_iff in R. destruct R as [R1 R2].
    apply N.leb_le in R1. lia.
  - subst ch. discriminate H.
Qed.

Lemma close_not_at_whitespace (ch : N) (rest : jsstring) :
  isWhiteSpace ch = true ->
  startsWithIgnoreCase closeMarker (ch :: rest) = false.
Proof.
  intros H. rewrite closeMarker_head. cbn [startsWithIgnoreCase].
  now rewrite (whitespace_not_lt _ H).
Qed.

Lemma close_head_not_whitespace (ch : N) (rest : jsstring) :
  startsWithIgnoreCase closeMarker (ch :: rest) = true ->
  isWhiteSpace ch = false.
Proof.
  intros H. destruct (isWhiteSpace ch) eqn:E; [|reflexivity].
  now rewrite (close_not_at_whitespace _ rest E) in H.
Qed.

Lemma closeAt_nil : closeAt [] = false.
Proof. reflexivity. Qed.

Lemma closeAt_whitespace (ch : N) (rest : jsstring) :
  isWhiteSpace ch = true -> closeAt (ch :: rest) = closeAt rest.
Proof. intros H. unfold closeAt. cbn [dropWhile]. now rewrite H. Qed.

Lemma closeAt_other (ch : N) (rest : jsstring) :
  isWhiteSpace ch = false ->
  closeAt (ch :: rest) = startsWithIgnoreCase closeMarker (ch :: rest).
Proof. intros H. unfold closeAt. cbn [dropWhile]. now rewrite H. Qed.


Lemma run_closing (a b : jsstring) (c : list (nat * jsstring)) :
  run true closingPart (mkState b a c) (fun y => Some y)
  = if closeAt a
    then Some (mkState (rev (firstn 13 (dropWhile isWhiteSpace a))
                        ++ rev (takeWhile isWhiteSpace a) ++ b)
                       (skipn 13 (dropWhile isWhiteSpace a)) c)
    else None.
Proof.
  revert b. induction a as [|ch rest IH]; intros b.
  - reflexivity.
  - unfold closingPart, ws in *. cbn [seq fold_right] in *.
    change (run true (Seq (star (Class isWhiteSpace))
                          (Seq (str "</GRAPH_JSON>") Empty))
                (mkState b (ch :: rest) c) (fun y => Some y))
      with (run true (star (Class isWhiteSpace)) (mkState b (ch :: rest) c)
                (fun y => run true (seq (map Lit closeMarker)) y
                              (fun y => Some y))).
    rewrite run_star_class.
    change (run true (star (Class isWhiteSpace)) (mkState (ch :: b) rest c)
                (fun y => run true (seq (map Lit closeMarker)) y
                              (fun y => Some y)))
      with (run true (Seq (star (Class isWhiteSpace))
                          (Seq (str "</GRAPH_JSON>") Empty))
                (mkState (ch :: b) rest c) (fun y => Some y)).
    rewrite IH, run_literal, closeMarker_length.
    destruct (isWhiteSpace ch) eqn:W.
    + rewrite (close_not_at_whitespace _ _ W), (closeAt_whitespace _ _ W).
      cbn [dropWhile takeWhile]. rewrite W. cbn [rev].
      rewrite <- !app_assoc. cbn [app].
      destruct (closeAt rest); reflexivity.
    + rewrite (closeAt_other _ _ W). cbn [dropWhile takeWhile]. rewrite W.
      reflexivity.
Qed.


Lemma anyUnit_all (ch : N) : isWhiteSpace ch || negb (isWhiteSpace ch) = true.
Proof. apply orb_negb_r. Qed.

Lemma firstn_consumed (pref a : jsstring) :
  firstn (length (pref ++ a) - length a) (pref ++ a) = pref.
Proof.
  rewrite length_app.
  replace (length pref + length a - length a)%nat with (length pref + 0)%nat by lia.
  rewrite firstn_app_2. cbn [firstn]. apply app_nil_r.
Qed.

Lemma lazyFind_closeAt (a : jsstring) (j : nat) :
  lazyFind a = Some j -> closeAt (skipn j a) = true.
Proof.
  revert j. induction a as [|ch rest IH]; intros j; cbn [lazyFind].
  - rewrite closeAt_nil. discriminate.
  - destruct (closeAt (ch :: rest)) eqn:E.
    + intros [= <-]. exact E.
    + destruct (lazyFind rest) as [j'|]; [|discriminate].
      intros [= <-]. cbn [skipn]. now apply IH.
Qed.

(** The lazy group [([\s\S]*?)] followed by the end of the pattern: the
    group takes the fewest units after which the end matches. *)
Lemma run_lazy_group (a pref b0 : jsstring) :
  run true (lazyStar anyUnit) (mkState (rev pref ++ b0) a [])
      (fun z => run true closingPart
                    (setCapture 1 (consumed (mkState b0 (pref ++ a) []) z) z)
                    (fun y => Some y))
  = match lazyFind a with
    | Some j =>
      run true closingPart
          (mkState (rev (pref ++ firstn j a) ++ b0) (skipn j a)
                   [(1%nat, pref ++ firstn j a)])
          (fun y => Some y)
    | None => None
    end.
Proof.
  revert pref. induction a as [|ch rest IH]; intros pref.
  - unfold anyUnit. rewrite run_lazyStar_class.
    unfold setCapture, consumed. cbn [before after captures filter].
    rewrite firstn_consumed, run_closing. reflexivity.
  - unfold anyUnit in *. rewrite run_lazyStar_class.
    unfold setCapture at 1, consumed at 1. cbn [before after captures filter].
    rewrite firstn_consumed, run_closing. cbn [lazyFind].
    destruct (closeAt (ch :: rest)) eqn:E.
    + cbn [firstn skipn]. rewrite app_nil_r, run_closing, E. reflexivity.
    + rewrite anyUnit_all.
      specialize (IH (pref ++ [ch])).
      rewrite rev_app_distr in IH. cbn [rev app] in IH.
      rewrite <- app_assoc in IH. cbn [app] in IH.
      rewrite IH. destruct (lazyFind rest) as [j|]; [|reflexivity].
      cbn [option_map firstn skipn].
      rewrite <- !app_assoc. reflexivity.
Qed.


Lemma run_groupPart (a b : jsstring) :
  run true groupPart (mkState b a []) (fun y => Some y)
  = match lazyFind a with
    | Some j =>
      run true closingPart
          (mkState (rev (firstn j a) ++ b) (skipn j a) [(1%nat, firstn j a)])
          (fun y => Some y)
    | None => None
    end.
Proof.
  exact (run_lazy_group a [] b).
Qed.

Lemma run_groupPart_none (a b : jsstring) :
  run true groupPart (mkState b a []) (fun y => Some y) = None
  <-> lazyFind a = None.
Proof.
  rewrite run_groupPart. destruct (lazyFind a) as [j|] eqn:E; [|tauto].
  rewrite run_closing, (lazyFind_closeAt _ _ E). split; discriminate.
Qed.

Lemma lazyFind_whitespace_none (ch : N) (rest : jsstring) :
  isWhiteSpace ch = true -> lazyFind rest = None ->
  lazyFind (ch :: rest) = None.
Proof.
  intros W H. cbn [lazyFind]. rewrite (closeAt_whitespace _ _ W), H.
  destruct rest; cbn [lazyFind] in H; destruct (closeAt _); try discriminate;
    reflexivity.
Qed.

Lemma lazyFind_skip_whitespace (s : jsstring) :
  lazyFind (dropWhile isWhiteSpace s) = None -> lazyFind s = None.
Proof.
  induction s as [|c r IH]; [tauto|]. cbn [dropWhile].
  destruct (isWhiteSpace c) eqn:W; [|tauto].
  intros H. apply lazyFind_whitespace_none; auto.
Qed.

(** The pattern after its opening marker: the greedy [\s*] keeps all the
    whitespace it can. *)

Lemma run_afterOpening (a b : jsstring) :
  run true afterOpening (mkState b a []) (fun y => Some y)
  = run true groupPart
        (mkState (rev (takeWhile isWhiteSpace a) ++ b)
                 (dropWhile isWhiteSpace a) [])
        (fun y => Some y).
Proof.
  revert b. induction a as [|ch rest IH]; intros b.
  - reflexivity.
  - unfold afterOpening, ws in *. cbn [seq fold_right] in *.
    change (run true (Seq (star (Class isWhiteSpace)) ?r) ?x ?k)
      with (run true (star (Class isWhiteSpace)) x (fun y => run true r y k)).
    rewrite run_star_class.
    change (run true (star (Class isWhiteSpace)) (mkState (ch :: b) rest [])
                (fun y => run true ?r y ?k))
      with (run true (Seq (star (Class isWhiteSpace)) r)
                (mkState (ch :: b) rest []) k).
    rewrite IH. cbn [takeWhile dropWhile].
    destruct (isWhiteSpace ch) eqn:W; [|reflexivity].
    cbn [rev]. rewrite <- app_assoc. cbn [app].
    destruct (run true groupPart _ _) eqn:E; [reflexivity|].
    apply run_groupPart_none in E.
    apply (run_groupPart_none (ch :: rest) b).
    apply (lazyFind_skip_whitespace (ch :: rest)).
    cbn [dropWhile]. now rewrite W.
Qed.


(** ** The markers *)

Lemma startsWithIgnoreCase_length (m s : jsstring) :
  startsWithIgnoreCase m s = true -> length (firstn (length m) s) = length m.
Proof.
  revert s. induction m as [|x m IH]; intros s H; [reflexivity|].
  destruct s as [|y s]; [discriminate|]. cbn in H.
  apply andb_true_iff in H. cbn [length firstn]. f_equal. apply IH, H.
Qed.

Lemma startsWithIgnoreCase_firstn (m s t : jsstring) :
  startsWithIgnoreCase m s = true ->
  startsWithIgnoreCase m (firstn (length m) s ++ t) = true.
Proof.
  revert s. induction m as [|x m IH]; intros s H; [reflexivity|].
  destruct s as [|y s]; [discriminate|]. cbn in H.
  apply andb_true_iff in H. destruct H as [H1 H2].
  cbn [length firstn app startsWithIgnoreCase]. rewrite H1. now apply IH.
Qed.

Lemma startsWithIgnoreCase_occurrence (m o r r' : jsstring) :
  length o = length m ->
  startsWithIgnoreCase m (o ++ r) = startsWithIgnoreCase m (o ++ r').
Proof.
  revert o. induction m as [|x m IH]; intros o H; [reflexivity|].
  destruct o as [|y o]; [discriminate|]. cbn [app startsWithIgnoreCase].
  f_equal. apply IH. now injection H.
Qed.

Lemma findMarker_some (m s b occ a : jsstring) :
  findMarker m s = Some (b, occ, a) ->
  s = b ++ occ ++ a
  /\ length occ = length m
  /\ startsWithIgnoreCase m (occ ++ a) = true
  /\ forall i, (i < length b)%nat ->
       startsWithIgnoreCase m (skipn i s) = false.
Proof.
  revert b. induction s as [|c s IH]; intros b; cbn [findMarker].
  - destruct (startsWithIgnoreCase m []) eqn:E; [|discriminate].
    intros [= <- <- <-]. rewrite firstn_skipn.
    repeat split; try reflexivity; try exact E;
      try (intros i Hi; cbn in Hi; lia).
    now apply startsWithIgnoreCase_length.
  - destruct (startsWithIgnoreCase m (c :: s)) eqn:E.
    + intros [= <- <- <-]. rewrite firstn_skipn.
      repeat split; try reflexivity; try exact E;
        try (intros i Hi; cbn in Hi; lia).
      now apply startsWithIgnoreCase_length.
    + destruct (findMarker m s) as [[[b' occ'] a']|]; [|discriminate].
      intros [= <- <- <-].
      destruct (IH b' eq_refl) as (Hs & Hl & Hm & Hb).
      repeat split; auto.
      * cbn [app]. now f_equal.
      * intros [|i] Hi; [exact E|]. cbn [skipn]. apply Hb. cbn in Hi. lia.
Qed.

Lemma findMarker_none (m s : jsstring) :
  findMarker m s = None ->
  forall i, startsWithIgnoreCase m (skipn i s) = false.
Proof.
  induction s as [|c s IH]; cbn [findMarker].
  - destruct (startsWithIgnoreCase m []) eqn:E; [discriminate|].
    intros _ i. now rewrite skipn_nil.
  - destruct (startsWithIgnoreCase m (c :: s)) eqn:E; [discriminate|].
    destruct (findMarker m s) as [[[b' occ'] a']|]; [discriminate|].
    intros _ [|i]; [exact E|]. cbn [skipn]. now apply IH.
Qed.

(** A marker found where the string starts. *)
Lemma findMarker_here (m s : jsstring) :
  startsWithIgnoreCase m s = true ->
  findMarker m s = Some ([], firstn (length m) s, skipn (length m) s).
Proof. intros H. destruct s; cbn [findMarker]; now rewrite H. Qed.

Lemma findMarker_later (m : jsstring) (c : N) (s : jsstring) :
  startsWithIgnoreCase m (c :: s) = false ->
  findMarker m (c :: s)
  = match findMarker m s with
    | Some (b, occ, a) => Some (c :: b, occ, a)
    | None => None
    end.
Proof. intros H. cbn [findMarker]. now rewrite H. Qed.

(** ** Whitespace at both ends *)

Lemma takeWhile_dropWhile (p : N -> bool) (l : jsstring) :
  l = takeWhile p l ++ dropWhile p l.
Proof.
  induction l as [|c l IH]; [reflexivity|]. cbn.
  destruct (p c); [cbn; now f_equal|reflexivity].
Qed.

Lemma takeWhile_all (p : N -> bool) (l : jsstring) :
  forallb p (takeWhile p l) = true.
Proof.
  induction l as [|c l IH]; [reflexivity|]. cbn.
  destruct (p c) eqn:E; [cbn; now rewrite E|reflexivity].
Qed.

Lemma dropWhile_head (p : N -> bool) (l : jsstring) (c : N) (r : jsstring) :
  dropWhile p l = c :: r -> p c = false.
Proof.
  induction l as [|x l IH]; [discriminate|]. cbn.
  destruct (p x) eqn:E; [exact IH|]. now intros [= <- <-].
Qed.

Lemma trimEnd_split (b : jsstring) :
  exists t, b = trimEnd b ++ t /\ forallb isWhiteSpace t = true.
Proof.
  exists (rev (takeWhile isWhiteSpace (rev b))). split.
  - unfold trimEnd. rewrite <- rev_app_distr, <- takeWhile_dropWhile.
    now rewrite rev_involutive.
  - rewrite forallb_rev. apply takeWhile_all.
Qed.

Lemma trimEnd_cons (c : N) (b : jsstring) :
  isWhiteSpace c = false -> trimEnd (c :: b) = c :: trimEnd b.
Proof.
  intros H. unfold trimEnd. cbn [rev].
  rewrite dropWhile_stop by exact H. rewrite rev_app_distr. reflexivity.
Qed.

Lemma trimEnd_nil : trimEnd [] = [].
Proof. reflexivity. Qed.

(** [trim] strips the leading whitespace of the part stripped of its
    trailing whitespace. *)
Lemma trim_leading (w b : jsstring) :
  forallb isWhiteSpace w = true ->
  (forall c r, b = c :: r -> isWhiteSpace c = false) ->
  trim (w ++ b) = trimEnd b.
Proof.
  intros Hw Hb. unfold trim. destruct b as [|c r].
  - rewrite app_nil_r, (trimEnd_all _ Hw). reflexivity.
  - pose proof (Hb c r eq_refl) as Hc.
    rewrite trimEnd_app by (cbn; now rewrite Hc).
    rewrite (trimEnd_cons _ _ Hc). unfold trimStart.
    rewrite dropWhile_stop by exact Hc.
    assert (E : dropWhile isWhiteSpace w = [])
      by now apply dropWhile_nil_iff.
    now rewrite E.
Qed.

Lemma trim_trimEnd_head (b : jsstring) :
  (forall c r, b = c :: r -> isWhiteSpace c = false) ->
  trim (trimEnd b) = trimEnd b.
Proof.
  intros Hb. unfold trim. destruct b as [|c r]; [reflexivity|].
  pose proof (Hb c r eq_refl) as Hc. rewrite (trimEnd_cons _ _ Hc).
  assert (E : trimEnd (c :: trimEnd r) = c :: trimEnd r).
  { rewrite (trimEnd_cons _ _ Hc). f_equal.
    unfold trimEnd. rewrite rev_involutive.
    destruct (dropWhile isWhiteSpace (rev r)) as [|x l] eqn:D; [reflexivity|].
    pose proof (dropWhile_head _ _ _ _ D) as Hx. cbn [dropWhile]. now rewrite Hx. }
  rewrite E. unfold trimStart. cbn [dropWhile]. now rewrite Hc.
Qed.


(** ** The lazy group and the first closing marker *)

Lemma closeAt_findMarker (s : jsstring) :
  closeAt s = true ->
  findMarker closeMarker s
  = Some (takeWhile isWhiteSpace s,
          firstn 13 (dropWhile isWhiteSpace s),
          skipn 13 (dropWhile isWhiteSpace s)).
Proof.
  induction s as [|ch rest IH]; [discriminate|].
  destruct (isWhiteSpace ch) eqn:W.
  - rewrite (closeAt_whitespace _ _ W). intros C.
    rewrite findMarker_later by now apply close_not_at_whitespace.
    rewrite (IH C). cbn [takeWhile dropWhile]. now rewrite W.
  - rewrite (closeAt_other _ _ W). intros C.
    rewrite (findMarker_here _ _ C), closeMarker_length.
    cbn [takeWhile dropWhile]. now rewrite W.
Qed.

Lemma closeAt_after_whitespace (body rest : jsstring) :
  forallb isWhiteSpace body = true ->
  startsWithIgnoreCase closeMarker rest = true ->
  closeAt (body ++ rest) = true /\ dropWhile isWhiteSpace (body ++ rest) = rest.
Proof.
  intros Hb Hr. unfold closeAt. rewrite (dropWhile_all _ _ _ Hb).
  destruct rest as [|c0 r]; [discriminate|].
  pose proof (close_head_not_whitespace _ _ Hr) as Hc.
  cbn [dropWhile]. rewrite Hc. now split.
Qed.

Lemma lazyFind_marker (a : jsstring) :
  match findMarker closeMarker a with
  | Some (body, _, _) => lazyFind a = Some (length (trimEnd body))
  | None => lazyFind a = None
  end.
Proof.
  induction a as [|ch rest IH]; [reflexivity|].
  destruct (startsWithIgnoreCase closeMarker (ch :: rest)) eqn:E.
  - rewrite (findMarker_here _ _ E). cbn [lazyFind].
    rewrite (closeAt_other _ _ (close_head_not_whitespace _ _ E)), E.
    reflexivity.
  - rewrite (findMarker_later _ _ _ E). cbn [lazyFind].
    destruct (isWhiteSpace ch) eqn:W.
    + rewrite (closeAt_whitespace _ _ W).
      destruct (closeAt rest) eqn:C.
      * rewrite (closeAt_findMarker _ C).
        rewrite trimEnd_all; [reflexivity|].
        cbn [forallb]. now rewrite W, takeWhile_all.
      * destruct (findMarker closeMarker rest) as [[[body' cl] post]|] eqn:F;
          [|now rewrite IH].
        rewrite IH. cbn [option_map]. f_equal.
        destruct (findMarker_some _ _ _ _ _ F) as (Hs & Hl & Hm & _).
        assert (Hb : forallb isWhiteSpace body' = false).
        { destruct (forallb isWhiteSpace body') eqn:B; [|reflexivity].
          destruct (closeAt_after_whitespace _ _ B Hm) as [C' _].
          rewrite <- Hs in C'. congruence. }
        change (ch :: body') with ([ch] ++ body').
        now rewrite (trimEnd_app _ _ Hb).
    + rewrite (closeAt_other _ _ W), E.
      destruct (findMarker closeMarker rest) as [[[body' cl] post]|] eqn:F;
        [|now rewrite IH].
      rewrite IH. cbn [option_map]. now rewrite (trimEnd_cons _ _ W).
Qed.

Lemma lazy_outcome (a body cl post : jsstring) :
  findMarker closeMarker a = Some (body, cl, post) ->
  firstn (length (trimEnd body)) a = trimEnd body
  /\ skipn 13 (dropWhile isWhiteSpace (skipn (length (trimEnd body)) a)) = post.
Proof.
  intros F. destruct (findMarker_some _ _ _ _ _ F) as (Hs & Hl & Hm & _).
  destruct (trimEnd_split body) as (t & Ht & Hw).
  assert (Ha : a = trimEnd body ++ t ++ cl ++ post).
  { rewrite Hs. rewrite Ht at 1. now rewrite <- app_assoc. }
  split.
  - rewrite Ha at 1. rewrite firstn_app, Nat.sub_diag, firstn_all.
    cbn [firstn]. apply app_nil_r.
  - rewrite Ha at 1. rewrite skipn_app, Nat.sub_diag, skipn_all, skipn_O.
    cbn [app].
    destruct (closeAt_after_whitespace _ _ Hw Hm) as [_ D]. rewrite D.
    rewrite closeMarker_length in Hl. rewrite <- Hl.
    rewrite skipn_app, Nat.sub_diag, skipn_all, skipn_O. reflexivity.
Qed.

Lemma findMarker_skip_whitespace (a : jsstring) :
  findMarker closeMarker a
  = match findMarker closeMarker (dropWhile isWhiteSpace a) with
    | Some (b, cl, post) => Some (takeWhile isWhiteSpace a ++ b, cl, post)
    | None => None
    end.
Proof.
  induction a as [|ch rest IH].
  - cbn [dropWhile takeWhile app].
    now destruct (findMarker closeMarker []) as [[[b cl] post]|].
  - cbn [dropWhile takeWhile]. destruct (isWhiteSpace ch) eqn:W.
    + rewrite findMarker_later by now apply close_not_at_whitespace.
      rewrite IH.
      now destruct (findMarker closeMarker (dropWhile isWhiteSpace rest))
        as [[[b cl] post]|].
    + now destruct (findMarker closeMarker (ch :: rest)) as [[[b cl] post]|].
Qed.

(** ** The whole pattern at one position *)

Lemma run_graphJsonBlock (bef s : jsstring) :
  run true graphJsonBlock (mkState bef s []) (fun y => Some y)
  = if startsWithIgnoreCase openMarker s
    then run true afterOpening
             (mkState (rev (firstn 12 s) ++ bef) (skipn 12 s) [])
             (fun y => Some y)
    else None.
Proof.
  change (run true graphJsonBlock (mkState bef s []) (fun y => Some y))
    with (run true (seq (map Lit openMarker)) (mkState bef s [])
              (fun y => run true afterOpening y (fun y => Some y))).
  now rewrite run_literal, openMarker_length.
Qed.


Lemma matches_here (bef s : jsstring) :
  outcome (run true graphJsonBlock (mkState bef s []) (fun y => Some y))
  = if startsWithIgnoreCase openMarker s then
      match findMarker closeMarker (skipn 12 s) with
      | Some (body, _, post) => Some (post, [(1%nat, trim body)])
      | None => None
      end
    else None.
Proof.
  rewrite run_graphJsonBlock.
  destruct (startsWithIgnoreCase openMarker s); [|reflexivity].
  rewrite run_afterOpening, run_groupPart.
  rewrite (findMarker_skip_whitespace (skipn 12 s)).
  set (a1 := dropWhile isWhiteSpace (skipn 12 s)).
  pose proof (lazyFind_marker a1) as L.
  destruct (findMarker closeMarker a1) as [[[b1 cl] post]|] eqn:F.
  - rewrite L, run_closing.
    rewrite (lazyFind_closeAt _ _ L).
    destruct (lazy_outcome _ _ _ _ F) as [H1 H2].
    unfold outcome. cbn [option_map after captures]. rewrite H1, H2.
    rewrite trim_leading; [reflexivity|apply takeWhile_all|].
    intros c r ->.
    destruct (findMarker_some _ _ _ _ _ F) as (Hs & _).
    cbn [app] in Hs. unfold a1 in Hs. exact (dropWhile_head _ _ _ _ Hs).
  - now rewrite L.
Qed.


(** ** The search for the first match *)

Lemma findBlock_later (c : N) (s : jsstring) :
  startsWithIgnoreCase openMarker (c :: s) = false ->
  findBlock (c :: s)
  = match findBlock s with
    | Some b => Some (mkBlock (c :: pre b) (opening b) (body b) (closing b)
                              (post b))
    | None => None
    end.
Proof.
  intros E. unfold findBlock. rewrite (findMarker_later _ _ _ E).
  destruct (findMarker openMarker s) as [[[p o] r]|]; [|reflexivity].
  now destruct (findMarker closeMarker r) as [[[b cl] po]|].
Qed.

(** Without a closing marker from some point on there is no block
    further on. *)
Lemma findBlock_none_after (s : jsstring) (n : nat) :
  (n <= 12)%nat ->
  findMarker closeMarker (skipn n s) = None -> findBlock s = None.
Proof.
  intros Hn Hc. unfold findBlock.
  destruct (findMarker openMarker s) as [[[p o] r]|] eqn:Fo; [|reflexivity].
  destruct (findMarker closeMarker r) as [[[b cl] po]|] eqn:Fc; [|reflexivity].
  exfalso.
  destruct (findMarker_some _ _ _ _ _ Fo) as (Hs & Hl & _).
  destruct (findMarker_some _ _ _ _ _ Fc) as (Hr & _ & Hm & _).
  rewrite openMarker_length in Hl.
  pose proof (findMarker_none _ _ Hc (length p + 12 + length b - n)%nat) as H.
  rewrite skipn_skipn in H.
  replace (length p + 12 + length b - n + n)%nat
    with (length ((p ++ o) ++ b)) in H
    by (rewrite !length_app; lia).
  assert (E : s = ((p ++ o) ++ b) ++ cl ++ po)
    by (rewrite Hs, Hr; now rewrite <- !app_assoc).
  rewrite E in H. rewrite skipn_app, skipn_all, Nat.sub_diag, skipn_O in H.
  cbn [app] in H. congruence.
Qed.

Lemma consumed_prefix (bef pref rest : jsstring) (y : state) :
  after y = rest ->
  consumed (mkState bef (pref ++ rest) []) y = pref.
Proof.
  intros H. unfold consumed. cbn [after]. rewrite H. apply firstn_consumed.
Qed.

Lemma execFrom_block (s bef : jsstring) :
  execFrom true graphJsonBlock bef s
  = match findBlock s with
    | Some b =>
      Some (mkMatch (length bef + length (pre b))
                    (opening b ++ body b ++ closing b)
                    [(1%nat, trim (body b))])
    | None => None
    end.
Proof.
  revert bef. induction s as [|c rest IH]; intros bef.
  - cbn [execFrom]. pose proof (matches_here bef []) as M.
    destruct (run true graphJsonBlock (mkState bef [] []) (fun y => Some y));
      [discriminate M|reflexivity].
  - cbn [execFrom]. pose proof (matches_here bef (c :: rest)) as M.
    destruct (startsWithIgnoreCase openMarker (c :: rest)) eqn:E.
    + unfold findBlock. rewrite (findMarker_here _ _ E), openMarker_length.
      destruct (findMarker closeMarker (skipn 12 (c :: rest)))
        as [[[b cl] po]|] eqn:F.
      * destruct (run true graphJsonBlock (mkState bef (c :: rest) [])
                      (fun y => Some y)) as [y|]; [|discriminate M].
        injection M as Ha Hc. cbn [pre opening body closing post length].
        rewrite Nat.add_0_r, Hc. f_equal. f_equal.
        destruct (findMarker_some _ _ _ _ _ F) as (Hs & _).
        assert (Es : c :: rest = (firstn 12 (c :: rest) ++ b ++ cl) ++ po).
        { rewrite <- (firstn_skipn 12 (c :: rest)) at 1. rewrite Hs.
          now rewrite <- !app_assoc. }
        rewrite Es at 1. now apply consumed_prefix.
      * destruct (run true graphJsonBlock (mkState bef (c :: rest) [])
                      (fun y => Some y)) as [y|]; [discriminate M|].
        rewrite IH.
        rewrite (findBlock_none_after rest 11); [reflexivity|lia|exact F].
    + destruct (run true graphJsonBlock (mkState bef (c :: rest) [])
                    (fun y => Some y)) as [y|]; [discriminate M|].
      rewrite IH, (findBlock_later _ _ E).
      destruct (findBlock rest) as [b|]; [|reflexivity].
      cbn [pre opening body closing post length]. do 2 f_equal. lia.
Qed.

(** The pattern finds the first delimited block: its match is the
    block, its group the content of the block, trimmed. *)
Theorem exec_graphJsonBlock (raw : jsstring) :
  exec true graphJsonBlock raw
  = match findBlock raw with
    | Some b =>
      Some (mkMatch (length (pre b)) (opening b ++ body b ++ closing b)
                    [(1%nat, trim (body b))])
    | None => None
    end.
Proof. apply (execFrom_block raw []). Qed.

Lemma findBlock_some (raw : jsstring) (b : block) :
  findBlock raw = Some b ->
  raw = pre b ++ opening b ++ body b ++ closing b ++ post b
  /\ length (opening b) = 12%nat
  /\ startsWithIgnoreCase openMarker (opening b) = true
  /\ (forall i, (i < length (pre b))%nat ->
        startsWithIgnoreCase openMarker (skipn i raw) = false).
Proof.
  unfold findBlock.
  destruct (findMarker openMarker raw) as [[[p o] r]|] eqn:Fo; [|discriminate].
  destruct (findMarker closeMarker r) as [[[bd cl] po]|] eqn:Fc; [|discriminate].
  intros [= <-]. cbn [pre opening body closing post].
  destruct (findMarker_some _ _ _ _ _ Fo) as (Hs & Hl & Hm & Hb).
  destruct (findMarker_some _ _ _ _ _ Fc) as (Hr & _).
  rewrite openMarker_length in Hl.
  repeat split; auto.
  - now rewrite Hs, Hr.
  - rewrite <- (app_nil_r o).
    rewrite (startsWithIgnoreCase_occurrence openMarker o [] r); [exact Hm|].
    now rewrite openMarker_length.
Qed.

End BlockFacts.
Import BlockFacts.

Module ExtractionFacts.
Import Tutor Tutor.BlockSpec.

Lemma replace_unfold (s pat rep : jsstring) :
  replace s pat rep
  = if startsWith pat s then rep ++ skipn (length pat) s
    else match s with
         | [] => []
         | c :: s' => c :: replace s' pat rep
         end.
Proof. destruct s; reflexivity. Qed.

(** Removing the first occurrence of a part that does not occur
    earlier removes that very part. *)
Lemma replace_first (p m q : jsstring) :
  (forall i, (i < length p)%nat ->
             startsWith m (skipn i (p ++ m ++ q)) = false) ->
  replace (p ++ m ++ q) m [] = p ++ q.
Proof.
  induction p as [|c p IH]; intros H.
  - cbn [app]. rewrite replace_unfold, startsWith_app.
    rewrite skipn_app, skipn_all, Nat.sub_diag, skipn_O. reflexivity.
  - cbn [app]. rewrite replace_unfold.
    pose proof (H O ltac:(cbn; lia)) as H0. cbn [skipn app] in H0.
    rewrite H0. f_equal. apply IH.
    intros i Hi. apply (H (S i)). cbn. lia.
Qed.

Lemma startsWith_split (m t : jsstring) :
  startsWith m t = true -> exists u, t = m ++ u.
Proof.
  revert t. induction m as [|x m IH]; intros t H; [now exists t|].
  destruct t as [|y t]; [discriminate|]. cbn in H.
  apply andb_true_iff in H. destruct H as [H1 H2].
  apply N.eqb_eq in H1. subst y. destruct (IH _ H2) as [u ->]. now exists u.
Qed.

Lemma trim_idempotent (b : jsstring) : trim (trim b) = trim b.
Proof.
  assert (H : forall c r, dropWhile isWhiteSpace b = c :: r ->
                          isWhiteSpace c = false)
    by (intros c r E; exact (dropWhile_head _ _ _ _ E)).
  assert (T : trim b = trimEnd (dropWhile isWhiteSpace b)).
  { rewrite (takeWhile_dropWhile isWhiteSpace b) at 1.
    apply (trim_leading _ _ (takeWhile_all _ _) H). }
  rewrite T. apply (trim_trimEnd_head _ H).
Qed.

Lemma block_removed (raw : jsstring) (b : block) :
  findBlock raw = Some b ->
  replace raw (opening b ++ body b ++ closing b) [] = pre b ++ post b.
Proof.
  intros F. destruct (findBlock_some _ _ F) as (Hr & Hl & Ho & Hp).
  assert (E : raw = pre b ++ (opening b ++ body b ++ closing b) ++ post b)
    by (rewrite Hr at 1; now rewrite <- !app_assoc).
  rewrite E at 1. apply replace_first. intros i Hi. rewrite <- E.
  destruct (startsWith _ (skipn i raw)) eqn:S; [|reflexivity].
  destruct (startsWith_split _ _ S) as [u Hu].
  specialize (Hp i Hi). rewrite Hu, <- app_assoc in Hp.
  rewrite (startsWithIgnoreCase_occurrence openMarker (opening b) _ [])
    in Hp by (now rewrite openMarker_length).
  rewrite app_nil_r in Hp. congruence.
Qed.

(** The extraction, in terms of the first delimited block. *)
Theorem extract_block (raw : jsstring) (b : block) :
  findBlock raw = Some b ->
  extractGraphJsonBlock raw
  = match trim (body b) with
    | [] => mkExtraction (trim raw) None
    | content => mkExtraction (trim (pre b ++ post b)) (Some content)
    end.
Proof.
  intros F. unfold extractGraphJsonBlock.
  rewrite exec_graphJsonBlock, F. unfold group. cbn [groups find fst Nat.eqb option_map snd matched].
  destruct (trim (body b)) as [|c cs] eqn:T; [reflexivity|].
  rewrite (block_removed _ _ F). rewrite <- T, trim_idempotent. reflexivity.
Qed.

Theorem extract_no_block (raw : jsstring) :
  findBlock raw = None ->
  extractGraphJsonBlock raw = mkExtraction (trim raw) None.
Proof.
  intros F. unfold extractGraphJsonBlock.
  now rewrite exec_graphJsonBlock, F.
Qed.

End ExtractionFacts.
Import ExtractionFacts.

Module RepairClaims.
Import Tutor Tutor.BlockSpec.

(** C4, as stated, does not hold: a block found with nothing but
    whitespace between its markers is not removed from the narrative
    text, and gives no candidate. *)
Lemma C4_counterexample :
  ~ (forall raw b,
        findBlock raw = Some b ->
        extractGraphJsonBlock raw
        = mkExtraction (trim (pre b ++ post b)) (Some (trim (body b)))).
Proof.
  intros H.
  specialize (H (lit "Bonjour. <GRAPH_JSON> </GRAPH_JSON>")
                (mkBlock (lit "Bonjour. ") (lit "<GRAPH_JSON>") (lit " ")
                         (lit "</GRAPH_JSON>") [])).
  vm_compute in H. specialize (H eq_refl). discriminate H.
Qed.

(** C4, amended: when a first delimited block is found (the first
    opening marker and the first closing marker after it, whatever the
    case of their letters) and its content is not empty once trimmed, the
    extraction returns the raw output with the block removed, trimmed, as
    narrative text and the content, trimmed, as candidate; when the
    content is empty or whitespace only there is no candidate; and when
    no block is found there is no candidate and the narrative text is the
    raw output trimmed. *)
Theorem C4_extraction (raw : jsstring) :
  match findBlock raw with
  | Some b =>
    raw = pre b ++ opening b ++ body b ++ closing b ++ post b
    /\ match trim (body b) with
       | [] => json (extractGraphJsonBlock raw) = None
       | content =>
         extractGraphJsonBlock raw
         = mkExtraction (trim (pre b ++ post b)) (Some content)
       end
  | None => extractGraphJsonBlock raw = mkExtraction (trim raw) None
  end.
Proof.
  destruct (findBlock raw) as [b|] eqn:F; [|now apply extract_no_block].
  split; [apply (findBlock_some _ _ F)|].
  rewrite (extract_block _ _ F). now destruct (trim (body b)).
Qed.

Lemma C4_extraction_witness :
  extractGraphJsonBlock (lit "Voici. <graph_json> {} </GRAPH_JSON> Fin. ")
  = mkExtraction (lit "Voici.  Fin.") (Some (lit "{}")).
Proof.
  exact (proj2 (C4_extraction
                  (lit "Voici. <graph_json> {} </GRAPH_JSON> Fin. "))).
Defined.


(** C3, as stated, does not hold: a valid JSON object that holds the
    closing marker in one of its strings, put between the markers, is cut
    at that marker; what is left does not parse, the repair call is made
    and the narrative text keeps the rest of the object. *)
Lemma C3_counterexample :
  ~ (forall (gw : Gateway) (sp : Speed) (message : jsstring)
            (log : list prompt) (before after jsonText : jsstring)
            (o : list (jsstring * value)),
        parse jsonText = Some (VObj o) ->
        repair gw (before ++ lit "<GRAPH_JSON>" ++ jsonText
                   ++ lit "</GRAPH_JSON>" ++ after) sp message log
        = (Some (trim (before ++ after), VObj o), log)).
Proof.
  intros H.
  specialize (H (answering "{}") VITE (lit "Bonjour") [] (lit "Voici. ") []
                (qlit "{'title':'</GRAPH_JSON>'}")
                [(lit "title", Json.text "</GRAPH_JSON>")]).
  vm_compute in H. specialize (H eq_refl). discriminate H.
Qed.

Lemma parse_nil : parse [] = None.
Proof. reflexivity. Qed.

(** C3, amended: when the first delimited block of the raw output
    (first opening marker, first closing marker after it) holds, between
    its markers and up to whitespace, a text that parses as a JSON object,
    the repair stage returns the raw output with the block removed,
    trimmed, as narrative text and the parsed object as envelope, and
    calls the gateway not at all. *)
Theorem C3_round_trip
        (gw : Gateway) (raw : jsstring) (sp : Speed) (message : jsstring)
        (log : list prompt) (b : block) (o : list (jsstring * value)) :
  findBlock raw = Some b ->
  parse (trim (body b)) = Some (VObj o) ->
  raw = pre b ++ opening b ++ body b ++ closing b ++ post b
  /\ repair gw raw sp message log
     = (Some (trim (pre b ++ post b), VObj o), log).
Proof.
  intros F P. split; [apply (findBlock_some _ _ F)|].
  unfold repair. rewrite (extract_block _ _ F).
  destruct (trim (body b)) as [|c cs] eqn:T; [now rewrite parse_nil in P|].
  cbn [json text]. unfold parseOr. rewrite P. reflexivity.
Qed.

Lemma C3_round_trip_witness :
  repair (answering "{}")
         (qlit "Voici. <GRAPH_JSON> {'title':'Pâte'} </GRAPH_JSON> Fin.")
         VITE (lit "Bonjour") []
  = (Some (lit "Voici.  Fin.", VObj [(lit "title", Json.text "Pâte")]), []).
Proof.
  refine (proj2 (C3_round_trip (answering "{}")
           (qlit "Voici. <GRAPH_JSON> {'title':'Pâte'} </GRAPH_JSON> Fin.")
           VITE (lit "Bonjour") []
           (mkBlock (lit "Voici. ") (lit "<GRAPH_JSON>")
                    (qlit " {'title':'Pâte'} ") (lit "</GRAPH_JSON>")
                    (lit " Fin."))
           [(lit "title", Json.text "Pâte")] _ _));
    vm_compute; reflexivity.
Defined.

(** Without a candidate that parses, the stage is the repair call
    followed by the parse of its answer. *)
Lemma repair_falls_back
      (gw : Gateway) (raw1 : jsstring) (sp : Speed) (message : jsstring) :
  let e := extractGraphJsonBlock raw1 in
  (json e = None \/ exists j, json e = Some j /\ parse j = None) ->
  repair gw raw1 sp message
  = bind (create gw (RepairPrompt sp message
                       (match json e with
                        | Some j => j
                        | None => lit "(vide)"
                        end)))
         (fun raw2 => ret (text e, parseOr (trim raw2) placeholder)).
Proof.
  intros e H.
  assert (G : match json e with
              | Some (c :: cs) => parseOr (c :: cs) VNull
              | _ => VNull
              end = VNull).
  { destruct H as [-> | (j & -> & P)]; [reflexivity|].
    destruct j; [reflexivity|]. unfold parseOr. now rewrite P. }
  unfold repair. fold e. rewrite G. reflexivity.
Qed.

(** C5: when the candidate of the primary output is missing or does
    not parse, the repair stage calls the gateway once more, and once
    only; when the answer to that call does not parse either, the stage
    returns the narrative text with the fixed placeholder envelope, and no
    exception. *)
Theorem C5_one_repair_then_placeholder
        (gw : Gateway) (raw1 : jsstring) (sp : Speed) (message : jsstring)
        (log : list prompt) :
  let e := extractGraphJsonBlock raw1 in
  let p := RepairPrompt sp message
             (match json e with Some j => j | None => lit "(vide)" end) in
  (json e = None \/ exists j, json e = Some j /\ parse j = None) ->
  snd (repair gw raw1 sp message log) = log ++ [p]
  /\ (forall output_text,
        gw (length log) p = Resolved output_text ->
        parse (trim (match output_text with Some t => t | None => [] end))
        = None ->
        repair gw raw1 sp message log
        = (Some (text e, placeholder), log ++ [p]))
  /\ prop placeholder "title" = Some (Json.text "Synthèse")
  /\ prop placeholder "confidence" = Some (num 40)
  /\ prop placeholder "charts" = Some (arr [])
  /\ prop placeholder "checklist" = Some (arr [])
  /\ prop placeholder "questions" = Some (arr [])
  /\ prop placeholder "recap_table"
     = Some (obj [("columns", strings ["Levier"; "Action"; "Indicateur"]%string);
                  ("rows", arr []);
                  ("note", Json.text "JSON non récupérable.")]%string).
Proof.
  intros e p H.
  pose proof (repair_falls_back gw raw1 sp message H) as R.
  fold e in R. fold p in R.
  apply (f_equal (fun c => c log)) in R.
  split; [|split; [|repeat split]].
  - rewrite R. unfold bind, create, ret.
    destruct (gw (length log) p); reflexivity.
  - intros o Hg Hp. rewrite R. unfold bind, create, ret. rewrite Hg.
    unfold parseOr. now rewrite Hp.
Qed.

Lemma C5_one_repair_then_placeholder_witness :
  repair (answering "desole") (lit "Pas de bloc ici.") APPROFONDIE
         (lit "Bonjour") [PrimaryPrompt APPROFONDIE true (lit "Bonjour")]
  = (Some (lit "Pas de bloc ici.", placeholder),
     [PrimaryPrompt APPROFONDIE true (lit "Bonjour");
      RepairPrompt APPROFONDIE (lit "Bonjour") (lit "(vide)")]).
Proof.
  refine (proj1 (proj2 (C5_one_repair_then_placeholder (answering "desole")
            (lit "Pas de bloc ici.") APPROFONDIE (lit "Bonjour")
            [PrimaryPrompt APPROFONDIE true (lit "Bonjour")] _))
            (Some (lit "desole")) _ _);
    vm_compute; auto.
Defined.

(** The chart pass comes after the repair stage: what the handler
    answers after two outputs that do not parse is the placeholder as the
    chart pass leaves it. *)
Lemma POST_after_failed_repair
      (toLowerCase : jsstring -> jsstring) (key : jsstring) (gw : Gateway)
      (message : jsstring) (first : option bool) (sp : Speed)
      (out1 out2 : jsstring) :
  key <> [] -> trim message <> [] ->
  let p1 := PrimaryPrompt sp (match first with Some b => b | None => false end)
                          message in
  let p2 := RepairPrompt sp message (lit "(vide)") in
  gw 0%nat p1 = Resolved (Some out1) ->
  json (extractGraphJsonBlock out1) = None ->
  gw 1%nat p2 = Resolved (Some out2) ->
  parse (trim out2) = None ->
  POST toLowerCase (Some key) gw
       (Readable (mkBody (Some message) first (Some sp))) []
  = (Some (TutorResponse (text (extractGraphJsonBlock out1))
             (ensureGenericChartsAlways toLowerCase placeholder sp message)),
     [p1; p2]).
Proof.
  intros Hk Hm p1 p2 G1 J G2 P. unfold POST.
  destruct key as [|k0 key]; [congruence|]. cbn [nonEmpty negb Tutor.message].
  destruct (trim message) as [|m0 ms] eqn:T; [congruence|].
  cbn [speed isFirstTurn]. fold p1.
  unfold bind at 1. unfold create at 1. cbn [length app]. rewrite G1.
  rewrite repair_falls_back by (left; exact J). rewrite J. fold p2.
  unfold bind, create, ret. cbn [length app]. rewrite G2.
  unfold parseOr. rewrite P. reflexivity.
Qed.

(** A request is answered with two calls to the gateway at most. *)
Lemma POST_at_most_two_calls
      (toLowerCase : jsstring -> jsstring) (key : option jsstring)
      (gw : Gateway) (req : request) :
  (length (snd (POST toLowerCase key gw req [])) <= 2)%nat.
Proof.
  unfold POST.
  destruct req as [| |body];
    [cbn; lia|destruct (negb (nonEmpty key)); cbn; lia|].
  destruct (negb (nonEmpty key)); [cbn; lia|].
  destruct (Tutor.message body) as [m|]; [|cbn; lia].
  destruct (trim m); [cbn; lia|].
  unfold bind, create, repair, ret. cbn [length app].
  destruct (gw O _) as [|o1]; [cbn; lia|].
  destruct (negb (truthy _)); [|cbn; lia].
  unfold bind, create. cbn [length app].
  destruct (gw 1%nat _); cbn; lia.
Qed.

End RepairClaims.

Module TutorClaims.
Import Tutor.

(** C1, as stated, does not hold: for the text
    "Comparer W260 vs W320 pour fermentation 48h au froid" in deep mode
    and an envelope with an empty chart list, the synthesized chart list is
    not [radar; timeline; bar]. *)
Lemma C1_counterexample :
  chartsOf
    (ensureGenericChartsAlways toLowerCaseLatin1
       (obj [("charts", arr [])]%string) APPROFONDIE
       (lit "Comparer W260 vs W320 pour fermentation 48h au froid"))
  <> [radarChart farines; timelineChart; barChart farines].
Proof.
  rewrite chartsOf_ensure by reflexivity.
  intros H. apply (f_equal (@length value)) in H.
  vm_compute in H. discriminate H.
Qed.

(** C1, amended: for the text
    "Comparer W260 vs W320 pour fermentation 48h au froid" in deep mode
    and an envelope with an empty chart list, the signals are topic
    farines, isComparison and isProtocol, and the synthesized chart list
    is exactly radar (farines preset), timeline (the 5 fixed steps), bar
    (labels Option A (W260), Option B (W320), values 60, 78) and, the
    text holding the three numbers 260, 320 and 48, a scatter chart of
    the points (260, 55), (320, 61), (48, 67). *)
Theorem C1_scenario_charts
        (toLowerCase : jsstring -> jsstring) (graph : value) :
  toLowerCase (lit "Comparer W260 vs W320 pour fermentation 48h au froid")
  = lit "comparer w260 vs w320 pour fermentation 48h au froid" ->
  isObject graph = true ->
  chartsOf graph = [] ->
  let s := getSignals toLowerCase
             (lit "Comparer W260 vs W320 pour fermentation 48h au froid") in
  topic s = farines /\ isComparison s = true /\ isProtocol s = true
  /\ chartsOf
       (ensureGenericChartsAlways toLowerCase graph APPROFONDIE
          (lit "Comparer W260 vs W320 pour fermentation 48h au froid"))
     = [radarChart farines; timelineChart; barChart farines;
        scatterWith [point (ofZ 260) 55 (lit "260");
                     point (ofZ 320) 61 (lit "320");
                     point (ofZ 48) 67 (lit "48")]].
Proof.
  intros Hlow Hobj Hempty s.
  assert (Hs : s = mkSignals
                     (lit "comparer w260 vs w320 pour fermentation 48h au froid")
                     [ofZ 260; ofZ 320; ofZ 48] true true true true farines).
  { unfold s. rewrite getSignals_lowered, Hlow. vm_compute. reflexivity. }
  repeat split; try (rewrite Hs; reflexivity).
  rewrite chartsOf_ensure by exact Hobj. fold s. rewrite Hempty, Hs.
  vm_compute. reflexivity.
Qed.

Lemma C1_scenario_charts_witness :
  chartsOf
    (ensureGenericChartsAlways toLowerCaseLatin1 placeholder APPROFONDIE
       (lit "Comparer W260 vs W320 pour fermentation 48h au froid"))
  = [radarChart farines; timelineChart; barChart farines;
     scatterWith [point (ofZ 260) 55 (lit "260");
                  point (ofZ 320) 61 (lit "320");
                  point (ofZ 48) 67 (lit "48")]].
Proof.
  apply (C1_scenario_charts toLowerCaseLatin1 placeholder);
    vm_compute; reflexivity.
Defined.

(** C6: an envelope whose chart list is not empty keeps it, whatever
    the mode and the text. *)
Theorem C6_charts_kept
        (toLowerCase : jsstring -> jsstring) (graph : value) (speed : Speed)
        (message : jsstring) :
  chartsOf graph <> [] ->
  prop (ensureGenericChartsAlways toLowerCase graph speed message) "charts"
  = prop graph "charts"
  /\ chartsOf (ensureGenericChartsAlways toLowerCase graph speed message)
     = chartsOf graph.
Proof.
  intros Hne. pose proof (chartsOf_nonempty_object _ Hne) as Hobj.
  assert (Hlen : Nat.eqb (length (chartsOf graph)) 0 = false).
  { destruct (chartsOf graph); [congruence|reflexivity]. }
  split.
  - rewrite ensure_charts by exact Hobj.
    assert (HL : lengthOf (prop graph "charts") = length (chartsOf graph)).
    { unfold chartsOf, lengthOf. destruct (prop graph "charts") as [[]|]; reflexivity. }
    rewrite HL, Hlen, andb_false_r.
    unfold arrayOrEmpty, chartsOf in *.
    destruct (prop graph "charts") as [[]|]; congruence.
  - rewrite chartsOf_ensure by exact Hobj. now rewrite Hlen, andb_false_r.
Qed.

Lemma C6_charts_kept_witness :
  chartsOf
    (ensureGenericChartsAlways toLowerCaseLatin1
       (obj [("charts", arr [barChart general])]%string) APPROFONDIE
       (lit "Comparer W260 vs W320 pour fermentation 48h au froid"))
  = [barChart general].
Proof.
  apply (C6_charts_kept toLowerCaseLatin1
           (obj [("charts", arr [barChart general])]%string)).
  vm_compute. discriminate.
Defined.

(** C7: in deep mode, for a text with protocol language and an envelope
    with an empty chart list, the second synthesized chart is the
    timeline chart; it has 5 steps, of 15, 60, 10, 2880 and 120 minutes,
    3085 minutes in all. *)
Theorem C7_protocol_timeline
        (toLowerCase : jsstring -> jsstring) (graph : value)
        (message : jsstring) :
  isObject graph = true ->
  chartsOf graph = [] ->
  isProtocol (getSignals toLowerCase message) = true ->
  nth_error
    (chartsOf (ensureGenericChartsAlways toLowerCase graph APPROFONDIE message))
    1 = Some timelineChart
  /\ prop timelineChart "type" = Some (Json.text "timeline")
  /\ timelineMinutes timelineChart = map ofZ [15; 60; 10; 2880; 120]%Z
  /\ (15 + 60 + 10 + 2880 + 120 = 3085)%Z.
Proof.
  intros Hobj Hempty Hp. split; [|repeat split].
  rewrite chartsOf_ensure by exact Hobj. rewrite Hempty.
  unfold needCharts. rewrite Hp, !orb_true_r. cbn [Speed_eqb andb length Nat.eqb].
  unfold autoCharts. rewrite Hp. reflexivity.
Qed.

Lemma C7_protocol_timeline_witness :
  nth_error
    (chartsOf (ensureGenericChartsAlways toLowerCaseLatin1 placeholder
                 APPROFONDIE (lit "Pâte 48h au frigo")))
    1 = Some timelineChart.
Proof.
  apply (C7_protocol_timeline toLowerCaseLatin1 placeholder
           (lit "Pâte 48h au frigo")); vm_compute; reflexivity.
Defined.

(** Texts holding "48h" or "frigo" are protocol texts. *)
Lemma isProtocol_48h_frigo (toLowerCase : jsstring -> jsstring)
      (message : jsstring) :
  has (toLowerCase message) "48h" = true
  \/ has (toLowerCase message) "frigo" = true ->
  isProtocol (getSignals toLowerCase message) = true.
Proof.
  intros [H|H]; cbn [getSignals isProtocol]; rewrite H;
    rewrite ?orb_true_r; reflexivity.
Qed.

(** C9: the signal extractor is a total function; the numbers it
    returns are the finite ones among the Number values of the literals
    matched in the lowered text (a decimal comma read as a dot), so all
    of them are finite; and the signals depend on the text through its
    lowered form only. *)
Theorem C9_signals_total_finite
        (toLowerCase : jsstring -> jsstring) (message : jsstring) :
  (exists s, getSignals toLowerCase message = s)
  /\ nums (getSignals toLowerCase message)
     = filter isFinite
         (map (fun l => Number (replace l (lit ",") (lit ".")))
              (matchAll false numberPattern (toLowerCase message)))
  /\ Forall (fun n => isFinite n = true)
            (nums (getSignals toLowerCase message))
  /\ forall other,
       toLowerCase other = toLowerCase message ->
       getSignals toLowerCase other = getSignals toLowerCase message.
Proof.
  split; [eexists; reflexivity|]. split; [reflexivity|]. split.
  - cbn [getSignals nums]. apply Forall_forall. intros n Hn.
    apply filter_In in Hn. tauto.
  - intros other H. now rewrite !getSignals_lowered, H.
Qed.

Lemma C9_signals_total_finite_witness :
  getSignals toLowerCaseLatin1 (lit "W260 À 48H")
  = getSignals toLowerCaseLatin1 (lit "w260 à 48h").
Proof.
  apply (C9_signals_total_finite toLowerCaseLatin1 (lit "w260 à 48h")).
  vm_compute. reflexivity.
Defined.


(** C2, as stated, does not hold: in deep mode, a text with two
    distinct numbers and no protocol or comparison language does not
    always get a radar chart followed by a scatter chart.  The text
    "12 34" gets no chart at all: without a unit marker next to its
    numbers, nothing calls for charts. *)
Lemma C2_counterexample :
  ~ (forall (toLowerCase : jsstring -> jsstring) (graph : value)
            (message : jsstring),
        isObject graph = true ->
        chartsOf graph = [] ->
        let s := getSignals toLowerCase message in
        (2 <= length (uniques (nums s)))%nat ->
        isComparison s = false ->
        isProtocol s = false ->
        chartsOf (ensureGenericChartsAlways toLowerCase graph APPROFONDIE
                    message)
        = [radarChart (topic s);
           scatterWith (scatterPoints 0 (firstn 6 (uniques (nums s))))]).
Proof.
  intros H.
  specialize (H toLowerCaseLatin1 (obj [("charts", arr [])]%string)
                (lit "12 34") eq_refl eq_refl).
  rewrite chartsOf_ensure in H by reflexivity.
  assert (Hs : getSignals toLowerCaseLatin1 (lit "12 34")
               = mkSignals (lit "12 34") [ofZ 12; ofZ 34]
                           false false false false general)
    by (vm_compute; reflexivity).
  rewrite Hs in H. cbn zeta in H.
  specialize (H ltac:(vm_compute; lia) eq_refl eq_refl).
  apply (f_equal (@length value)) in H. vm_compute in H. discriminate H.
Qed.

(** The scatter points are drawn from the first six numbers of the text:
    a seventh, new value gets no point. *)
Example scatter_first_six_only :
  chartsOf
    (ensureGenericChartsAlways toLowerCaseLatin1 placeholder APPROFONDIE
       (lit "1% 1% 1% 1% 1% 1% 2% 3%"))
  = [radarChart general; scatterWith [point (ofZ 1) 55 (lit "1")]].
Proof. vm_compute. reflexivity. Qed.

(** A point is labelled with the string of its value, not with the
    literal of the text. *)
Example scatter_label_of_value :
  chartsOf
    (ensureGenericChartsAlways toLowerCaseLatin1 placeholder APPROFONDIE
       (lit "1,50% 007%"))
  = [radarChart general;
     scatterWith [point (Number (lit "1.5")) 55 (lit "1.5");
                  point (ofZ 7) 61 (lit "7")]].
Proof. vm_compute. reflexivity. Qed.

(** C2, amended: in deep mode, for a text with at least two numbers, a
    unit marker (so that [hasVariables] holds) and no protocol or
    comparison language, and an envelope with an empty chart list, the
    synthesized chart list is exactly a radar chart followed by a scatter
    chart.  The scatter chart has one point for each distinct value among
    the first six numbers of the text, in the order of their first
    occurrence, hence at most 6 points; the point of index [i] has the
    score [55 + 6 * i], which is [clamp (55 + 6 * i) 40 90], and the
    label [String(v)] of its value [v]. *)
Theorem C2_radar_then_scatter
        (toLowerCase : jsstring -> jsstring) (graph : value)
        (message : jsstring) :
  isObject graph = true ->
  chartsOf graph = [] ->
  let s := getSignals toLowerCase message in
  hasVariables s = true ->
  (2 <= length (nums s))%nat ->
  isComparison s = false ->
  isProtocol s = false ->
  let xs := uniques (firstn 6 (nums s)) in
  chartsOf (ensureGenericChartsAlways toLowerCase graph APPROFONDIE message)
  = [radarChart (topic s); scatterWith (scatterPoints 0 xs)]
  /\ length (scatterPoints 0 xs) = length xs
  /\ (length xs <= 6)%nat
  /\ distinct xs
  /\ (forall v, existsb (sameValueZero v) xs
                = existsb (sameValueZero v) (firstn 6 (nums s)))
  /\ forall i v, nth_error xs i = Some v ->
       nth_error (scatterPoints 0 xs) i
       = Some (point v (55 + 6 * Z.of_nat i) (toString v))
       /\ clamp (55 + 6 * Z.of_nat i) 40 90 = (55 + 6 * Z.of_nat i)%Z.
Proof.
  intros Hobj Hempty s Hv Hn Hc Hp xs.
  assert (Hlen : (length xs <= 6)%nat).
  { unfold xs. etransitivity; [apply uniques_length|].
    rewrite length_firstn. lia. }
  split; [|split; [|split; [|split; [|split]]]].
  - rewrite chartsOf_ensure by exact Hobj. fold s. rewrite Hempty.
    unfold needCharts. rewrite Hv. cbn [Speed_eqb andb orb length Nat.eqb].
    unfold autoCharts. rewrite Hc, Hp.
    apply Nat.leb_le in Hn. rewrite Hn. cbn [app].
    unfold scatterChart. fold xs. now rewrite firstn_all2 by exact Hlen.
  - apply scatterPoints_length.
  - exact Hlen.
  - apply uniques_distinct.
  - intros v. apply uniques_spec.
  - intros i v Hi.
    assert (Hi6 : (i < 6)%nat).
    { apply Nat.lt_le_trans with (length xs); [|exact Hlen].
      apply nth_error_Some. congruence. }
    assert (Hcl : clamp (55 + 6 * Z.of_nat i) 40 90 = (55 + 6 * Z.of_nat i)%Z)
      by (unfold clamp; lia).
    split; [|exact Hcl].
    rewrite (scatterPoints_nth xs 0%Z i v Hi).
    replace (55 + (0 + Z.of_nat i) * 6)%Z with (55 + 6 * Z.of_nat i)%Z by lia.
    now rewrite Hcl.
Qed.

Lemma C2_radar_then_scatter_witness :
  chartsOf (ensureGenericChartsAlways toLowerCaseLatin1 placeholder
              APPROFONDIE (lit "12% 34%"))
  = [radarChart general;
     scatterWith (scatterPoints 0 (uniques (firstn 6 [ofZ 12; ofZ 34])))].
Proof.
  apply (C2_radar_then_scatter toLowerCaseLatin1 placeholder (lit "12% 34%"));
    vm_compute; solve [reflexivity | lia].
Defined.

(** A literal too long for a finite Number is dropped from the numbers. *)
Example overlong_literal_discarded :
  nums (getSignals toLowerCaseLatin1
          (lit "7 " ++ repeat 57 400 ++ lit " 8"))
  = [ofZ 7; ofZ 8].
Proof. vm_compute. reflexivity. Qed.

End TutorClaims.

Module MiddlewareClaims.
Import Middleware.

Lemma split_segments (sep : N) (s : jsstring) :
  Forall (fun seg => ~ In sep seg) (split sep s).
Proof.
  induction s as [|c s IH]; simpl.
  - constructor; [intros []|constructor].
  - destruct (c =? sep) eqn:E.
    + constructor; [intros []|exact IH].
    + destruct (split sep s) as [|h t]; inversion IH; subst.
      * constructor; [|constructor]. intros [->|[]]. now rewrite N.eqb_refl in E.
      * constructor; [|assumption]. intros [->|Hin]; [|tauto].
        now rewrite N.eqb_refl in E.
Qed.

Lemma segment_differs (decoded pass PASS : jsstring) :
  nth_error (split 58 decoded) 1 = Some pass -> In 58 PASS ->
  JsString.eqb pass PASS = false.
Proof.
  intros Hn Hin. apply eqb_neq. intros ->.
  apply nth_error_In in Hn.
  pose proof (split_segments 58 decoded) as F.
  rewrite Forall_forall in F. exact (F _ Hn Hin).
Qed.

(** C10: when the configured password holds a colon, the middleware
    answers every request with the 401 challenge, whatever its
    credentials: the password it compares is the segment between the
    first and the second colon of the decoded credentials, which holds
    none. *)
Theorem C10_colon_password_locks_out
        (decode : jsstring -> jsstring) (USER : option jsstring)
        (PASS : jsstring) (authorization : option jsstring) :
  In 58 PASS ->
  middleware decode USER (Some PASS) authorization = Unauthorized.
Proof.
  intros Hin. unfold middleware.
  destruct (negb (Tutor.nonEmpty USER) || negb (Tutor.nonEmpty (Some PASS)));
    [reflexivity|].
  destruct authorization as [[|a auth']|]; try reflexivity.
  destruct (nth_error (split 32 (a :: auth')) 0) as [scheme|]; [|reflexivity].
  destruct (nth_error (split 32 (a :: auth')) 1) as [[|e enc']|]; try reflexivity.
  destruct (negb (JsString.eqb scheme (lit "Basic"))); [reflexivity|].
  destruct (nth_error (split 58 (decode (e :: enc'))) 0) as [user|]; [|reflexivity].
  destruct (nth_error (split 58 (decode (e :: enc'))) 1) as [pass|] eqn:Hp;
    [|reflexivity].
  destruct USER as [USER|]; [|reflexivity].
  rewrite (segment_differs _ _ _ Hp Hin). now rewrite andb_false_r.
Qed.

Lemma C10_colon_password_locks_out_witness :
  decodeBase64 (lit "dXNlcjpwYTpzcw==") = lit "user:pa:ss"
  /\ middleware decodeBase64 (Some (lit "user")) (Some (lit "pa:ss"))
       (Some (lit "Basic dXNlcjpwYTpzcw==")) = Unauthorized.
Proof.
  split; [vm_compute; reflexivity|].
  apply (C10_colon_password_locks_out decodeBase64 (Some (lit "user"))
           (lit "pa:ss") (Some (lit "Basic dXNlcjpwYTpzcw=="))).
  vm_compute. tauto.
Defined.

(** Without a colon in the password the same request goes through. *)
Example colon_free_password_passes :
  middleware decodeBase64 (Some (lit "admin")) (Some (lit "secret"))
    (Some (lit "Basic YWRtaW46c2VjcmV0")) = Next.
Proof. vm_compute. reflexivity. Qed.

End MiddlewareClaims.

Module RagClaims.
Import Rag.

Lemma In_firstn {A} (n : nat) (l : list A) (x : A) :
  In x (firstn n l) -> In x l.
Proof.
  revert l. induction n as [|n IH]; intros [|a l]; simpl; try tauto.
  intros [->|H]; [now left|right; now apply IH].
Qed.

Lemma retrieve_bounds (matches : option (list chunk)) :
  (length (retrieve matches) <= 6)%nat
  /\ forall m, In m (retrieve matches) ->
       In m (match matches with Some l => l | None => [] end)
       /\ geb (similarityOf m) floor = true.
Proof.
  unfold retrieve. split.
  - rewrite length_firstn. lia.
  - intros m Hm. apply In_firstn in Hm.
    apply filter_In in Hm. exact Hm.
Qed.

Lemma retrieve_none_reaches (matches : option (list chunk)) :
  (forall m, In m (match matches with Some l => l | None => [] end) ->
             geb (similarityOf m) floor = false) ->
  retrieve matches = [].
Proof.
  intros H. unfold retrieve.
  destruct (filter _ _) as [|m l] eqn:E; [reflexivity|].
  assert (Hin : In m (m :: l)) by now left.
  rewrite <- E in Hin. apply filter_In in Hin. destruct Hin as [Hin Hge].
  rewrite (H m Hin) in Hge. discriminate.
Qed.

(** With nothing retrieved the prompt carries the fallback line. *)
Lemma prompt_shape (hdr chdr needle rest hdr' chdr' : jsstring) (c d : N) :
  hdr = c :: hdr' -> chdr = chdr' ++ [d] ->
  isWhiteSpace c = false -> isWhiteSpace d = false ->
  includes (trim (nl ++ hdr ++ nl ++ needle ++ nl ++ nl ++ chdr ++ rest))
           needle = true.
Proof.
  intros -> -> Hc Hd.
  apply (includes_trim nl (hdr' ++ nl) needle (nl ++ nl ++ chdr') rest c d);
    [|exact Hc|exact Hd].
  cbn [app]. rewrite <- !app_assoc. reflexivity.
Qed.

Lemma prompt_without_excerpt (contextText : option jsstring)
      (message : jsstring) :
  includes (userPromptText [] contextText message) noExcerpt = true.
Proof.
  unfold userPromptText. cbn [retrievedContext].
  apply prompt_shape
    with (hdr' := tl (lit "DOCUMENTS EPPPN / LIVRES (extraits) :"))
         (chdr' := removelast (lit "Contexte utilisateur (optionnel) :"))
         (c := 68) (d := 58);
    vm_compute; reflexivity.
Qed.

(** C8: for a request that reaches the retrieval call (the settings
    are there, the message is not blank, the Supabase client is made and
    the embedding is returned): of the rows returned by the retrieval
    call, the handler keeps those of similarity at least 0.2 (a missing
    similarity counting as 0) and at most 6 of them; an error reported by
    the call does not stop the handler; and when no row reaches the floor
    (or the call returned no rows), the prompt carries the fallback line
    in place of excerpts and the answer reports 0 excerpts used. *)
Theorem C8_retrieval_floor
        (env : environment) (w : world) (body : requestBody)
        (supabase : client)
        (queryEmbedding : list number) (matches : option (list chunk))
        (matchErr : bool) (output_text : option jsstring) :
  Tutor.nonEmpty (OPENAI_API_KEY env) = true ->
  Tutor.nonEmpty (SUPABASE_URL env) = true ->
  Tutor.nonEmpty (SUPABASE_SERVICE_ROLE_KEY env) = true ->
  body <> Unreadable ->
  messageOf body <> [] ->
  createClient w (orEmpty (SUPABASE_URL env))
               (orEmpty (SUPABASE_SERVICE_ROLE_KEY env)) = Some supabase ->
  embed w (messageOf body) = Some queryEmbedding ->
  match_chunks supabase queryEmbedding 6 = RpcResult matches matchErr ->
  let retrieved := retrieve matches in
  let prompt := userPromptText retrieved (contextTextOf body) (messageOf body) in
  complete w (mkRequest prompt (imageDataUrlOf body))
  = Tutor.Resolved output_text ->
  POST env w body
  = Answer (orEmpty output_text) (length retrieved) (map topOf retrieved)
           (isSome (imageDataUrlOf body))
  /\ (length retrieved <= 6)%nat
  /\ (forall m, In m retrieved ->
        In m (match matches with Some l => l | None => [] end)
        /\ geb (similarityOf m) floor = true)
  /\ ((forall m, In m (match matches with Some l => l | None => [] end) ->
                 geb (similarityOf m) floor = false) ->
      length retrieved = 0%nat
      /\ includes prompt noExcerpt = true).
Proof.
  intros K1 K2 K3 Hb Hm Hs He Hr retrieved prompt Hc.
  split; [|split; [|split]].
  - assert (Hmatch : forall (l : jsstring) (a b : response),
               l <> [] -> match l with [] => a | _ :: _ => b end = b)
      by (intros [|x l] a b H; [congruence|reflexivity]).
    unfold POST. rewrite K1, K2, K3. cbn [negb orb]. cbv zeta.
    rewrite Hmatch by exact Hm. rewrite Hs, He, Hr.
    fold retrieved. fold prompt. rewrite Hc.
    destruct body; [congruence|reflexivity|reflexivity].
  - apply retrieve_bounds.
  - apply retrieve_bounds.
  - intros Hnone. unfold prompt, retrieved.
    rewrite (retrieve_none_reaches _ Hnone). split; [reflexivity|].
    apply prompt_without_excerpt.
Qed.

Lemma C8_retrieval_floor_witness :
  POST settings quietWorld (JsonBody (Some (lit " Quelle farine ? ")) None)
  = Answer (lit "Bonjour") 0 [] false.
Proof.
  apply (C8_retrieval_floor settings quietWorld
           (JsonBody (Some (lit " Quelle farine ? ")) None)
           quietClient [] (Some [lowChunk]) true (Some (lit "Bonjour")));
    try reflexivity; discriminate.
Defined.

(** The client is made before any call: with a URL it refuses, the
    handler answers 500 and nothing is retrieved. *)
Lemma POST_client_refused (env : environment) (w : world)
      (body : requestBody) :
  Tutor.nonEmpty (OPENAI_API_KEY env) = true ->
  Tutor.nonEmpty (SUPABASE_URL env) = true ->
  Tutor.nonEmpty (SUPABASE_SERVICE_ROLE_KEY env) = true ->
  body <> Unreadable ->
  messageOf body <> [] ->
  createClient w (orEmpty (SUPABASE_URL env))
               (orEmpty (SUPABASE_SERVICE_ROLE_KEY env)) = None ->
  POST env w body = serverError.
Proof.
  intros K1 K2 K3 Hb Hm Hs. unfold POST. rewrite K1, K2, K3.
  cbn [negb orb]. cbv zeta. rewrite Hs.
  destruct body; [congruence| |]; now destruct (messageOf _).
Qed.

End RagClaims.

(* ================================================================== *)
(** * Further properties of the code *)
(* ================================================================== *)

Module EnvelopeFacts.
Import Tutor.

Lemma update_same k v ps : lookup k ps = Some v -> update k v ps = ps.
Proof.
  induction ps as [|[k' v'] ps IH]; simpl; [discriminate|].
  destruct (JsString.eqb k k') eqn:E.
  - apply eqb_eq in E. subst k'. now intros [= ->].
  - intros H. now rewrite IH.
Qed.

Lemma set_same o k v : get o k = Some v -> set o k v = o.
Proof.
  destruct o; simpl; try discriminate; intros H; now rewrite update_same.
Qed.

Lemma autoCharts_cons (s : Signals) :
  exists rest, autoCharts s = radarChart (topic s) :: rest
               /\ (length rest <= 3)%nat.
Proof.
  unfold autoCharts. eexists. split; [reflexivity|].
  destruct (isProtocol s), (isComparison s), (2 <=? length (nums s))%nat;
    cbn; lia.
Qed.

Section WithHost.
Variable toLowerCase : jsstring -> jsstring.

(** The pass on an object: the structure it gives the graph, then the
    charts and the rows it adds when charts are called for and the graph
    has none. *)
Lemma ensure_object (graph : value) (speed : Speed) (message : jsstring) :
  isObject graph = true ->
  let s := getSignals toLowerCase message in
  let t := match prop graph "recap_table" with
           | Some t0 => if isObject t0 then t0 else minimalRecapTable
           | None => minimalRecapTable
           end in
  let rowsMissing := match prop t "rows" with
                     | Some (VArr es _) => Nat.eqb (length es) 0
                     | _ => true
                     end in
  exists g4,
    isObject g4 = true
    /\ prop g4 "charts" = Some (arrayOrEmpty graph "charts")
    /\ prop g4 "checklist" = Some (arrayOrEmpty graph "checklist")
    /\ prop g4 "questions" = Some (arrayOrEmpty graph "questions")
    /\ prop g4 "recap_table" = Some t
    /\ (forall k, k <> lit "charts" -> k <> lit "checklist" ->
                  k <> lit "questions" -> k <> lit "recap_table" ->
                  get g4 k = get graph k)
    /\ g4 = ensureGenericChartsAlways toLowerCase graph VITE []
    /\ ensureGenericChartsAlways toLowerCase graph speed message
       = if needCharts speed s && Nat.eqb (length (chartsOf graph)) 0
         then assign (assign g4 "charts" (arr (autoCharts s))) "recap_table"
                     (if rowsMissing then populateRecapTable t else t)
         else g4.
Proof.
  intros Hobj s t rowsMissing.
  unfold ensureGenericChartsAlways.
  rewrite (isObject_truthy _ Hobj), Hobj. cbn [negb orb].
  fold s.
  set (g1 := assign graph "charts" (arrayOrEmpty graph "charts")).
  set (g2 := assign g1 "checklist" (arrayOrEmpty g1 "checklist")).
  set (g3 := assign g2 "questions" (arrayOrEmpty g2 "questions")).
  set (g4 := match prop g3 "recap_table" with
             | Some t => if isObject t then g3
                         else assign g3 "recap_table" minimalRecapTable
             | None => assign g3 "recap_table" minimalRecapTable
             end).
  assert (O3 : isObject g3 = true)
    by (unfold g3, g2, g1; now rewrite !isObject_assign).
  assert (A2 : arrayOrEmpty g1 "checklist" = arrayOrEmpty graph "checklist").
  { unfold arrayOrEmpty, g1. now rewrite prop_assign_ne by reflexivity. }
  assert (A3 : arrayOrEmpty g2 "questions" = arrayOrEmpty graph "questions").
  { unfold arrayOrEmpty, g2, g1. now rewrite !prop_assign_ne by reflexivity. }
  assert (R3 : prop g3 "recap_table" = prop graph "recap_table").
  { unfold g3, g2, g1. now rewrite !prop_assign_ne by reflexivity. }
  assert (C3 : prop g3 "charts" = Some (arrayOrEmpty graph "charts")).
  { unfold g3, g2. rewrite !prop_assign_ne by reflexivity.
    apply prop_assign_eq. exact Hobj. }
  assert (K3 : prop g3 "checklist" = Some (arrayOrEmpty graph "checklist")).
  { unfold g3. rewrite prop_assign_ne by reflexivity. unfold g2. rewrite A2.
    apply prop_assign_eq. unfold g1. now rewrite isObject_assign. }
  assert (Q3 : prop g3 "questions" = Some (arrayOrEmpty graph "questions")).
  { unfold g3. rewrite A3. apply prop_assign_eq.
    unfold g2, g1. now rewrite !isObject_assign. }
  assert (F3 : forall k, k <> lit "charts" -> k <> lit "checklist" ->
                         k <> lit "questions" -> get g3 k = get graph k).
  { intros k H1 H2 H3. unfold g3, g2, g1, assign.
    rewrite !get_set_ne by (now apply eqb_neq). reflexivity. }
  assert (O4 : isObject g4 = true).
  { unfold g4. destruct (prop g3 "recap_table") as [t0|];
      [destruct (isObject t0)|]; rewrite ?isObject_assign; exact O3. }
  assert (C4 : prop g4 "charts" = Some (arrayOrEmpty graph "charts")).
  { unfold g4. destruct (prop g3 "recap_table") as [t0|];
      [destruct (isObject t0)|]; rewrite ?prop_assign_ne by reflexivity;
      exact C3. }
  assert (K4 : prop g4 "checklist" = Some (arrayOrEmpty graph "checklist")).
  { unfold g4. destruct (prop g3 "recap_table") as [t0|];
      [destruct (isObject t0)|]; rewrite ?prop_assign_ne by reflexivity;
      exact K3. }
  assert (Q4 : prop g4 "questions" = Some (arrayOrEmpty graph "questions")).
  { unfold g4. destruct (prop g3 "recap_table") as [t0|];
      [destruct (isObject t0)|]; rewrite ?prop_assign_ne by reflexivity;
      exact Q3. }
  assert (R4 : prop g4 "recap_table" = Some t).
  { unfold g4, t. rewrite R3. destruct (prop graph "recap_table") as [t0|] eqn:E.
    - destruct (isObject t0); [now rewrite R3|].
      apply prop_assign_eq. exact O3.
    - apply prop_assign_eq. exact O3. }
  assert (F4 : forall k, k <> lit "charts" -> k <> lit "checklist" ->
                         k <> lit "questions" -> k <> lit "recap_table" ->
                         get g4 k = get graph k).
  { intros k H1 H2 H3 H4. unfold g4.
    destruct (prop g3 "recap_table") as [t0|]; [destruct (isObject t0)|];
      unfold assign; rewrite ?get_set_ne by (now apply eqb_neq);
      now apply F3. }
  exists g4. repeat (split; [assumption|]). split; [reflexivity|].
  assert (HL : lengthOf (prop g4 "charts") = length (chartsOf graph)).
  { rewrite C4. unfold arrayOrEmpty, chartsOf, lengthOf.
    destruct (prop graph "charts") as [[]|]; reflexivity. }
  rewrite HL, R4. fold rowsMissing.
  destruct (needCharts speed s); cbn [negb andb]; [|reflexivity].
  destruct (length (chartsOf graph)); cbn [Nat.ltb Nat.leb Nat.eqb];
    [|reflexivity].
  destruct (autoCharts_cons s) as (rest & -> & _). reflexivity.
Qed.

End WithHost.

End EnvelopeFacts.
Import EnvelopeFacts.

Module EnvelopeProperties.
Import Tutor.

Lemma arrayOrEmpty_array (o : value) (k : string) :
  exists es ps, arrayOrEmpty o k = VArr es ps.
Proof.
  unfold arrayOrEmpty. destruct (prop o k) as [[]|]; eexists; eexists; reflexivity.
Qed.

Lemma needCharts_quick (s : Signals) : needCharts VITE s = false.
Proof. reflexivity. Qed.

(** X1: in quick mode the pass adds no chart, whatever the text: the chart
    list is the one the graph came with, the result does not depend on
    the text at all, and a recap table that is an object is left as it
    is, with or without columns and rows. *)
Theorem quick_mode_adds_no_chart
        (toLowerCase : jsstring -> jsstring) (graph : value)
        (message message' : jsstring) :
  chartsOf (ensureGenericChartsAlways toLowerCase graph VITE message)
  = chartsOf graph
  /\ ensureGenericChartsAlways toLowerCase graph VITE message
     = ensureGenericChartsAlways toLowerCase graph VITE message'
  /\ match prop graph "recap_table" with
     | Some t =>
       if isObject t
       then prop (ensureGenericChartsAlways toLowerCase graph VITE message)
                 "recap_table" = Some t
       else True
     | None => True
     end.
Proof.
  destruct (isObject graph) eqn:Hobj.
  - destruct (ensure_object toLowerCase graph VITE message Hobj)
      as (g4 & _ & _ & _ & _ & R4 & _ & E4 & E).
    rewrite needCharts_quick in E. cbn [andb] in E.
    split; [|split].
    + rewrite chartsOf_ensure by exact Hobj. now rewrite needCharts_quick.
    + destruct (ensure_object toLowerCase graph VITE message' Hobj)
        as (g4' & _ & _ & _ & _ & _ & _ & E4' & E').
      rewrite needCharts_quick in E'. cbn [andb] in E'. congruence.
    + rewrite E. destruct (prop graph "recap_table") as [t|]; [|exact I].
      destruct (isObject t); [exact R4|exact I].
  - rewrite !ensure_not_object by exact Hobj. split; [reflexivity|].
    split; [reflexivity|].
    destruct (prop graph "recap_table") as [t|]; [|exact I].
    now destruct (isObject t).
Qed.


(** The structure of the result, for an object. *)
Lemma envelope_shape_facts
      (toLowerCase : jsstring -> jsstring) (graph : value) (speed : Speed)
      (message : jsstring) :
  isObject graph = true ->
  let r := ensureGenericChartsAlways toLowerCase graph speed message in
  isObject r = true
  /\ asArray (prop r "charts") <> None
  /\ asArray (prop r "checklist") <> None
  /\ asArray (prop r "questions") <> None
  /\ exists t, prop r "recap_table" = Some t /\ isObject t = true.
Proof.
  intros Hobj r.
  assert (HA : forall k, asArray (Some (arrayOrEmpty graph k)) <> None).
  { intros k. destruct (arrayOrEmpty_array graph k) as (es & ps & ->).
    discriminate. }
  assert (HC : asArray (prop r "charts") <> None).
  { unfold r. rewrite ensure_charts by exact Hobj.
    destruct (_ && _); [discriminate|apply HA]. }
  destruct (ensure_object toLowerCase graph speed message Hobj)
    as (g4 & O4 & C4 & K4 & Q4 & R4 & _ & _ & E).
  fold r in E.
  set (t := match prop graph "recap_table" with
            | Some t0 => if isObject t0 then t0 else minimalRecapTable
            | None => minimalRecapTable
            end) in *.
  assert (Ot : isObject t = true).
  { unfold t. destruct (prop graph "recap_table") as [t0|]; [|reflexivity].
    destruct (isObject t0) eqn:E0; [exact E0|reflexivity]. }
  destruct (needCharts speed (getSignals toLowerCase message)
            && Nat.eqb (length (chartsOf graph)) 0).
  - assert (O5 : isObject (assign g4 "charts"
                             (arr (autoCharts (getSignals toLowerCase message))))
                 = true) by (now rewrite isObject_assign).
    split; [rewrite E; now rewrite isObject_assign|].
    split; [exact HC|].
    split; [rewrite E, !prop_assign_ne by reflexivity; rewrite K4; apply HA|].
    split; [rewrite E, !prop_assign_ne by reflexivity; rewrite Q4; apply HA|].
    eexists. split; [rewrite E; apply prop_assign_eq; exact O5|].
    destruct (match prop t "rows" with
              | Some (VArr es _) => Nat.eqb (length es) 0
              | _ => true
              end); [|exact Ot].
    unfold populateRecapTable. now rewrite !isObject_assign.
  - rewrite E. split; [exact O4|]. split; [rewrite <- E; exact HC|].
    split; [rewrite K4; apply HA|].
    split; [rewrite Q4; apply HA|].
    exists t. split; [exact R4|exact Ot].
Qed.

Lemma ensure_arrays_kept
      (toLowerCase : jsstring -> jsstring) (graph : value) (speed : Speed)
      (message : jsstring) :
  isObject graph = true ->
  let r := ensureGenericChartsAlways toLowerCase graph speed message in
  prop r "checklist" = Some (arrayOrEmpty graph "checklist")
  /\ prop r "questions" = Some (arrayOrEmpty graph "questions").
Proof.
  intros Hobj r.
  destruct (ensure_object toLowerCase graph speed message Hobj)
    as (g4 & O4 & C4 & K4 & Q4 & R4 & _ & _ & E).
  fold r in E. rewrite E.
  destruct (_ && _); rewrite ?prop_assign_ne by reflexivity; now split.
Qed.

(** X2: whatever the mode and the text, the pass gives an object the
    structure the client reads: the chart list, the checklist and the
    questions are arrays (the graph's own when they were arrays, empty
    ones otherwise) and the recap table is an object. *)
Theorem envelope_structure
        (toLowerCase : jsstring -> jsstring) (graph : value) (speed : Speed)
        (message : jsstring) :
  isObject graph = true ->
  let r := ensureGenericChartsAlways toLowerCase graph speed message in
  isObject r = true
  /\ asArray (prop r "charts") <> None
  /\ prop r "checklist" = Some (arrayOrEmpty graph "checklist")
  /\ asArray (prop r "checklist") <> None
  /\ prop r "questions" = Some (arrayOrEmpty graph "questions")
  /\ asArray (prop r "questions") <> None
  /\ exists t, prop r "recap_table" = Some t /\ isObject t = true.
Proof.
  intros Hobj r.
  destruct (envelope_shape_facts toLowerCase graph speed message Hobj)
    as (Or & HC & HK & HQ & HR).
  destruct (ensure_arrays_kept toLowerCase graph speed message Hobj)
    as (K & Q).
  repeat split; assumption.
Qed.

Lemma envelope_structure_witness :
  let r := ensureGenericChartsAlways toLowerCaseLatin1
             (obj [("title", Json.text "Pâte"); ("charts", Json.text "aucun")]%string)
             APPROFONDIE (lit "Comparer W260 vs W320") in
  isObject r = true
  /\ asArray (prop r "charts") <> None
  /\ prop r "checklist" = Some (arr [])
  /\ asArray (prop r "checklist") <> None
  /\ prop r "questions" = Some (arr [])
  /\ asArray (prop r "questions") <> None
  /\ exists t, prop r "recap_table" = Some t /\ isObject t = true.
Proof.
  apply (envelope_structure toLowerCaseLatin1
           (obj [("title", Json.text "Pâte"); ("charts", Json.text "aucun")]%string)
           APPROFONDIE (lit "Comparer W260 vs W320")).
  reflexivity.
Defined.

(** X3: the pass touches four fields only: every other property of the
    graph is read after the pass as before it. *)
Theorem envelope_other_fields_kept
        (toLowerCase : jsstring -> jsstring) (graph : value) (speed : Speed)
        (message : jsstring) (k : jsstring) :
  k <> lit "charts" -> k <> lit "checklist" -> k <> lit "questions" ->
  k <> lit "recap_table" ->
  get (ensureGenericChartsAlways toLowerCase graph speed message) k
  = get graph k.
Proof.
  intros H1 H2 H3 H4. destruct (isObject graph) eqn:Hobj.
  - destruct (ensure_object toLowerCase graph speed message Hobj)
      as (g4 & _ & _ & _ & _ & _ & F4 & _ & ->).
    destruct (_ && _); [|now apply F4].
    unfold assign. rewrite !get_set_ne by (now apply eqb_neq). now apply F4.
  - now rewrite ensure_not_object by exact Hobj.
Qed.

Lemma envelope_other_fields_kept_witness :
  get (ensureGenericChartsAlways toLowerCaseLatin1
         (obj [("title", Json.text "Pâte"); ("charts", Json.text "aucun")]%string)
         APPROFONDIE (lit "Comparer W260 vs W320")) (lit "title")
  = Some (Json.text "Pâte").
Proof.
  apply (envelope_other_fields_kept toLowerCaseLatin1
           (obj [("title", Json.text "Pâte"); ("charts", Json.text "aucun")]%string)
           APPROFONDIE (lit "Comparer W260 vs W320") (lit "title"));
    vm_compute; discriminate.
Defined.


(** X4: a recap table that comes with rows is never overwritten: whatever
    the mode and the text, the pass leaves it as it is. *)
Theorem recap_rows_kept
        (toLowerCase : jsstring -> jsstring) (graph : value) (speed : Speed)
        (message : jsstring) (t e : value) (es : list value)
        (ps : list (jsstring * value)) :
  prop graph "recap_table" = Some t ->
  prop t "rows" = Some (VArr (e :: es) ps) ->
  prop (ensureGenericChartsAlways toLowerCase graph speed message)
       "recap_table" = Some t.
Proof.
  intros Ht Hrows.
  assert (Hobj : isObject graph = true) by (now destruct graph).
  assert (Ot : isObject t = true) by (now destruct t).
  destruct (ensure_object toLowerCase graph speed message Hobj)
    as (g4 & O4 & _ & _ & _ & R4 & _ & _ & ->).
  rewrite Ht, Ot in *. rewrite Hrows. cbn [length Nat.eqb].
  destruct (_ && _); [|exact R4].
  apply prop_assign_eq. now rewrite isObject_assign.
Qed.

Lemma recap_rows_kept_witness :
  prop (ensureGenericChartsAlways toLowerCaseLatin1
          (obj [("recap_table",
                 obj [("rows", arr [strings ["Farine"; "W320"]%string])]%string)
               ]%string)
          APPROFONDIE (lit "Comparer W260 vs W320")) "recap_table"
  = Some (obj [("rows", arr [strings ["Farine"; "W320"]%string])]%string).
Proof.
  apply (recap_rows_kept toLowerCaseLatin1
           (obj [("recap_table",
                  obj [("rows", arr [strings ["Farine"; "W320"]%string])]%string)
                ]%string)
           APPROFONDIE (lit "Comparer W260 vs W320")
           (obj [("rows", arr [strings ["Farine"; "W320"]%string])]%string)
           (strings ["Farine"; "W320"]%string) [] []);
    reflexivity.
Defined.

(** X5: when the pass synthesizes charts (deep mode, signals calling for
    charts, no chart in the graph) and the graph has no recap table with
    a non-empty row array, the recap table gets the three fixed rows, the
    fixed columns and the fixed note. *)
Theorem recap_rows_populated
        (toLowerCase : jsstring -> jsstring) (graph : value)
        (message : jsstring) :
  isObject graph = true ->
  chartsOf graph = [] ->
  needCharts APPROFONDIE (getSignals toLowerCase message) = true ->
  (forall t e es ps, prop graph "recap_table" = Some t ->
                     prop t "rows" <> Some (VArr (e :: es) ps)) ->
  exists t',
    prop (ensureGenericChartsAlways toLowerCase graph APPROFONDIE message)
         "recap_table" = Some t'
    /\ prop t' "columns" = Some (strings ["Levier"; "Action"; "Indicateur"]%string)
    /\ prop t' "rows"
       = Some (arr [strings ["Température"; "Stabiliser T° pâte et T° frigo";
                             "T° pâte (sonde) + tenue pâtons"]%string;
                    strings ["Temps"; "Ajuster 1 variable à la fois";
                             "Volume + extensibilité + bullage"]%string;
                    strings ["Inoculation";
                             "Réduire/augmenter levure/levain selon T°";
                             "Odeur + vitesse de pousse"]%string])
    /\ prop t' "note"
       = Some (Json.text
                 "Tableau auto (à personnaliser dès que tu donnes 3 paramètres).").
Proof.
  intros Hobj Hempty Hneed Hrows.
  destruct (ensure_object toLowerCase graph APPROFONDIE message Hobj)
    as (g4 & O4 & _ & _ & _ & R4 & _ & _ & ->).
  rewrite Hneed, Hempty. cbn [length Nat.eqb andb].
  set (t := match prop graph "recap_table" with
            | Some t0 => if isObject t0 then t0 else minimalRecapTable
            | None => minimalRecapTable
            end) in *.
  assert (Ot : isObject t = true).
  { unfold t. destruct (prop graph "recap_table") as [t0|]; [|reflexivity].
    destruct (isObject t0) eqn:E0; [exact E0|reflexivity]. }
  assert (Hm : match prop t "rows" with
               | Some (VArr es _) => Nat.eqb (length es) 0
               | _ => true
               end = true).
  { unfold t. destruct (prop graph "recap_table") as [t0|] eqn:E; [|reflexivity].
    destruct (isObject t0); [|reflexivity].
    specialize (Hrows t0). destruct (prop t0 "rows") as [[| | | |[|e es] ps|]|];
      try reflexivity.
    exfalso. exact (Hrows e es ps eq_refl eq_refl). }
  rewrite Hm. eexists. split.
  - apply prop_assign_eq. now rewrite isObject_assign.
  - unfold populateRecapTable. repeat split.
    + rewrite !prop_assign_ne by reflexivity. now apply prop_assign_eq.
    + rewrite prop_assign_ne by reflexivity. apply prop_assign_eq.
      now rewrite isObject_assign.
    + apply prop_assign_eq. now rewrite !isObject_assign.
Qed.

Lemma recap_rows_populated_witness :
  exists t',
    prop (ensureGenericChartsAlways toLowerCaseLatin1 placeholder APPROFONDIE
            (lit "Comparer W260 vs W320")) "recap_table" = Some t'
    /\ prop t' "columns" = Some (strings ["Levier"; "Action"; "Indicateur"]%string)
    /\ prop t' "rows"
       = Some (arr [strings ["Température"; "Stabiliser T° pâte et T° frigo";
                             "T° pâte (sonde) + tenue pâtons"]%string;
                    strings ["Temps"; "Ajuster 1 variable à la fois";
                             "Volume + extensibilité + bullage"]%string;
                    strings ["Inoculation";
                             "Réduire/augmenter levure/levain selon T°";
                             "Odeur + vitesse de pousse"]%string])
    /\ prop t' "note"
       = Some (Json.text
                 "Tableau auto (à personnaliser dès que tu donnes 3 paramètres).").
Proof.
  apply (recap_rows_populated toLowerCaseLatin1 placeholder
           (lit "Comparer W260 vs W320")); try (vm_compute; reflexivity).
  intros t e es ps Ht. vm_compute in Ht. injection Ht as <-.
  vm_compute. discriminate.
Defined.


(** X6: in deep mode, whenever the signals call for charts (variables, a
    comparison or a protocol), the graph leaves the pass with at least
    one chart: its own, or synthesized ones. *)
Theorem deep_mode_never_chartless
        (toLowerCase : jsstring -> jsstring) (graph : value)
        (message : jsstring) :
  isObject graph = true ->
  needCharts APPROFONDIE (getSignals toLowerCase message) = true ->
  chartsOf (ensureGenericChartsAlways toLowerCase graph APPROFONDIE message)
  <> [].
Proof.
  intros Hobj Hneed. rewrite chartsOf_ensure by exact Hobj. rewrite Hneed.
  cbn [andb]. destruct (chartsOf graph) as [|c cs] eqn:E; cbn [length Nat.eqb].
  - destruct (autoCharts_cons (getSignals toLowerCase message))
      as (rest & -> & _). discriminate.
  - discriminate.
Qed.

Lemma deep_mode_never_chartless_witness :
  chartsOf (ensureGenericChartsAlways toLowerCaseLatin1 (VObj []) APPROFONDIE
              (lit "Pointage 2 h ou 3 h ?"))
  <> [].
Proof.
  apply (deep_mode_never_chartless toLowerCaseLatin1 (VObj [])
           (lit "Pointage 2 h ou 3 h ?")); vm_compute; reflexivity.
Defined.

Lemma autoCharts_types (s : Signals) :
  Forall (fun c => In (prop c "type")
                      [Some (Json.text "radar"); Some (Json.text "timeline");
                       Some (Json.text "bar"); Some (Json.text "scatter")])
         (autoCharts s).
Proof.
  unfold autoCharts.
  repeat (apply Forall_app; split);
    repeat match goal with |- context [if ?b then _ else _] => destruct b end;
    repeat constructor; cbn; tauto.
Qed.

(** X7: the synthesized chart list: it starts with the radar chart of the
    topic, holds four charts at most, and each chart is a radar, a
    timeline, a bar or a scatter chart; the table chart the code keeps
    for an empty list is never produced. *)
Theorem synthesized_charts_shape
        (toLowerCase : jsstring -> jsstring) (graph : value)
        (message : jsstring) :
  isObject graph = true ->
  chartsOf graph = [] ->
  let s := getSignals toLowerCase message in
  needCharts APPROFONDIE s = true ->
  let charts :=
    chartsOf (ensureGenericChartsAlways toLowerCase graph APPROFONDIE message) in
  hd_error charts = Some (radarChart (topic s))
  /\ (1 <= length charts <= 4)%nat
  /\ Forall (fun c => In (prop c "type")
                         [Some (Json.text "radar"); Some (Json.text "timeline");
                          Some (Json.text "bar"); Some (Json.text "scatter")])
            charts
  /\ forall c, In c charts -> prop c "type" <> Some (Json.text "table").
Proof.
  intros Hobj Hempty s Hneed charts.
  assert (E : charts = autoCharts s).
  { unfold charts. rewrite chartsOf_ensure by exact Hobj. fold s.
    now rewrite Hneed, Hempty. }
  rewrite E. destruct (autoCharts_cons s) as (rest & Hr & Hl).
  split; [now rewrite Hr|]. split; [rewrite Hr; cbn [length]; lia|].
  split; [apply autoCharts_types|].
  intros c Hin. pose proof (autoCharts_types s) as F.
  rewrite Forall_forall in F. specialize (F _ Hin).
  intros T. rewrite T in F. cbn in F.
  repeat destruct F as [F|F]; try discriminate F; exact F.
Qed.

Lemma synthesized_charts_shape_witness :
  let charts :=
    chartsOf (ensureGenericChartsAlways toLowerCaseLatin1 (VObj []) APPROFONDIE
                (lit "Pointage 2 h ou 3 h ?")) in
  hd_error charts = Some (radarChart general)
  /\ (1 <= length charts <= 4)%nat
  /\ Forall (fun c => In (prop c "type")
                         [Some (Json.text "radar"); Some (Json.text "timeline");
                          Some (Json.text "bar"); Some (Json.text "scatter")])
            charts
  /\ forall c, In c charts -> prop c "type" <> Some (Json.text "table").
Proof.
  apply (synthesized_charts_shape toLowerCaseLatin1 (VObj [])
           (lit "Pointage 2 h ou 3 h ?")); vm_compute; reflexivity.
Defined.

(** A graph that has been through the pass has the structure the pass
    gives: the structure assignments leave it as it is. *)
Lemma structured_fixed (toLowerCase : jsstring -> jsstring) (r : value) :
  isObject r = true ->
  asArray (prop r "charts") <> None ->
  asArray (prop r "checklist") <> None ->
  asArray (prop r "questions") <> None ->
  (exists t, prop r "recap_table" = Some t /\ isObject t = true) ->
  ensureGenericChartsAlways toLowerCase r VITE [] = r.
Proof.
  intros Hobj HC HK HQ (t & Ht & Ot).
  assert (A : forall k : string, asArray (prop r k) <> None ->
                assign r k (arrayOrEmpty r k) = r).
  { intros k H. apply set_same. unfold arrayOrEmpty. fold (prop r k).
    destruct (prop r k) as [[]|]; cbn in H; congruence. }
  unfold ensureGenericChartsAlways.
  rewrite (isObject_truthy _ Hobj), Hobj. cbn [negb orb].
  rewrite (A "charts"%string HC), (A "checklist"%string HK),
    (A "questions"%string HQ), Ht, Ot.
  reflexivity.
Qed.

(** X8: the pass is idempotent: applied to its own result, with the same
    mode and text, it changes nothing. *)
Theorem ensure_idempotent
        (toLowerCase : jsstring -> jsstring) (graph : value) (speed : Speed)
        (message : jsstring) :
  let r := ensureGenericChartsAlways toLowerCase graph speed message in
  ensureGenericChartsAlways toLowerCase r speed message = r.
Proof.
  intros r. destruct (isObject graph) eqn:Hobj.
  - destruct (envelope_shape_facts toLowerCase graph speed message Hobj)
      as (Or & HC & HK & HQ & HR). fold r in Or, HC, HK, HQ, HR.
    destruct (ensure_object toLowerCase r speed message Or)
      as (g4 & _ & _ & _ & _ & _ & _ & E4 & ->).
    rewrite (structured_fixed toLowerCase r Or HC HK HQ HR) in E4. subst g4.
    destruct (needCharts speed (getSignals toLowerCase message)) eqn:N;
      [|reflexivity].
    assert (Hne : chartsOf r <> []).
    { unfold r. rewrite chartsOf_ensure by exact Hobj. rewrite N. cbn [andb].
      destruct (chartsOf graph) as [|c cs] eqn:E; cbn [length Nat.eqb].
      - destruct (autoCharts_cons (getSignals toLowerCase message))
          as (rest & -> & _). discriminate.
      - discriminate. }
    destruct (chartsOf r); [congruence|reflexivity].
  - unfold r. rewrite (ensure_not_object toLowerCase graph) by exact Hobj.
    now apply ensure_not_object.
Qed.

(** X9: the presets are well formed, whatever the topic: a radar has six
    axis labels and six scores, a bar chart two labels and two scores,
    and every score lies between 0 and 100. *)
Theorem presets_well_formed (topic : Topic) :
  exists labels values barLabels barValues data,
    prop (buildRadar topic) "labels" = Some (strings labels)
    /\ prop (buildRadar topic) "values" = Some (Json.nums values)
    /\ length labels = 6%nat /\ length values = 6%nat
    /\ prop (barChart topic) "data" = Some data
    /\ prop data "labels" = Some (strings barLabels)
    /\ prop data "values" = Some (Json.nums barValues)
    /\ length barLabels = 2%nat /\ length barValues = 2%nat
    /\ Forall (fun v => 0 <= v <= 100)%Z (values ++ barValues).
Proof.
  destruct topic; do 5 eexists;
    (repeat (split; [reflexivity|]));
    repeat constructor; lia.
Qed.

End EnvelopeProperties.

Module SearchFacts.
Import Tutor.

(** A needle that occurs splits the string around it. *)
Lemma includes_split (s needle : jsstring) :
  includes s needle = true -> exists a b, s = a ++ needle ++ b.
Proof.
  induction s as [|c s IH]; cbn [includes].
  - rewrite orb_false_r. intros H. destruct (startsWith_split _ _ H) as [u Hu].
    exists [], u. exact Hu.
  - intros H. apply orb_true_iff in H. destruct H as [H|H].
    + destruct (startsWith_split _ _ H) as [u Hu]. exists [], u. exact Hu.
    + destruct (IH H) as (a & b & ->). exists (c :: a), b. reflexivity.
Qed.

(** A pattern that matches at some position is found by the search. *)
Lemma execFrom_found (ic : bool) (r : regex) (a b bef : jsstring) :
  run ic r (mkState (rev a ++ bef) b []) (fun y => Some y) <> None ->
  execFrom ic r bef (a ++ b) <> None.
Proof.
  revert bef. induction a as [|c a IH]; intros bef H.
  - cbn [rev app] in *.
    destruct (run ic r (mkState bef b []) (fun y => Some y)) as [y|] eqn:E;
      [|congruence].
    destruct b; cbn [execFrom]; rewrite E; discriminate.
  - cbn [app execFrom].
    destruct (run ic r (mkState bef (c :: a ++ b) []) (fun y => Some y));
      [discriminate|].
    apply IH. cbn [rev] in H. now rewrite <- app_assoc in H.
Qed.

Lemma test_found (ic : bool) (r : regex) (a b : jsstring) :
  run ic r (mkState (rev a) b []) (fun y => Some y) <> None ->
  test ic r (a ++ b) = true.
Proof.
  intros H. unfold test, exec.
  pose proof (execFrom_found ic r a b [] ) as F. rewrite app_nil_r in F.
  destruct (execFrom ic r [] (a ++ b)); [reflexivity|]. now apply F in H.
Qed.

Lemma run_alt_l (ic : bool) (r1 r2 : regex) (x : state) (k : cont) :
  run ic r1 x k <> None -> run ic (Alt r1 r2) x k <> None.
Proof. cbn [run]. destruct (run ic r1 x k); congruence. Qed.

Lemma run_alt_r (ic : bool) (r1 r2 : regex) (x : state) (k : cont) :
  run ic r2 x k <> None -> run ic (Alt r1 r2) x k <> None.
Proof. cbn [run]. destruct (run ic r1 x k); [discriminate|tauto]. Qed.

(** An alternation matches where one of its members does. *)
Lemma run_alt_member (ic : bool) (r : regex) (rs : list regex) (r' : regex)
      (x : state) (k : cont) :
  In r' (r :: rs) -> run ic r' x k <> None -> run ic (alt r rs) x k <> None.
Proof.
  unfold alt. revert r r'. induction rs as [|q rs IH]; intros r r' Hin H.
  - destruct Hin as [->|[]]. exact H.
  - cbn [fold_left]. destruct Hin as [->|[->|Hin]].
    + apply (IH (Alt r' q) (Alt r' q)); [now left|]. now apply run_alt_l.
    + apply (IH (Alt r r') (Alt r r')); [now left|]. now apply run_alt_r.
    + apply (IH (Alt r q) r'); [now right|exact H].
Qed.

(** A greedy star over a class never fails before the end of the
    pattern. *)
Lemma run_star_class_end (ic : bool) (p : N -> bool) (a b : jsstring)
      (c : list (nat * jsstring)) :
  run ic (star (Class p)) (mkState b a c) (fun y => Some y) <> None.
Proof.
  revert b. induction a as [|ch rest IH]; intros b; rewrite run_star_class.
  - discriminate.
  - destruct (p ch); [|discriminate].
    destruct (run ic (star (Class p)) _ _); discriminate.
Qed.

(** One step of a greedy plus over a class. *)
Lemma run_plus_class (ic : bool) (p : N -> bool) (b a : jsstring)
      (c : list (nat * jsstring)) (k : cont) :
  run ic (plus (Class p)) (mkState b a c) k
  = match a with
    | ch :: rest =>
      if p ch then run ic (star (Class p)) (mkState (ch :: b) rest c) k
      else None
    | [] => None
    end.
Proof.
  unfold plus. cbn [run repeatMatcher]. cbn [after Nat.add length].
  cbn [groupsOf Nat.eqb negb andb]. rewrite clearCaptures_none.
  cbn [after]. destruct a as [|ch rest]; [reflexivity|].
  destruct (p ch); [|reflexivity].
  unfold step. cbn [before captures pred option_map length].
  pose proof (run_quantifier_fuel ic true 0 None (Class p)
                (mkState (ch :: b) rest c) k 1) as F.
  cbn [after Nat.add] in F. rewrite Nat.add_1_r in F. exact F.
Qed.

(** [w\d+], with or without the ignore-case flag, matches at a [w]
    followed by a digit. *)
Lemma run_strength (ic : bool) (bef post : jsstring) (d : N) :
  isDigit d = true ->
  run ic (seq [str "w"; plus digit]) (mkState bef (119 :: d :: post) [])
      (fun y => Some y) <> None.
Proof.
  intros Hd. change (str "w") with (Seq (Lit 119) Empty).
  cbn [seq fold_right run after]. rewrite N.eqb_refl.
  unfold step. cbn [before captures].
  fold (plus digit). unfold digit. rewrite run_plus_class, Hd.
  apply run_star_class_end.
Qed.

(** One step of an optional character. *)
Lemma run_opt_lit (ic : bool) (q : N) (b a : jsstring)
      (c : list (nat * jsstring)) (k : cont) :
  run ic (opt (Lit q)) (mkState b a c) k
  = match a with
    | ch :: rest =>
      if canonicalize ic ch =? canonicalize ic q then
        match k (mkState (ch :: b) rest c) with
        | Some z => Some z
        | None => k (mkState b a c)
        end
      else k (mkState b a c)
    | [] => k (mkState b a c)
    end.
Proof.
  unfold opt. cbn [run repeatMatcher]. cbn [after Nat.add length].
  cbn [groupsOf Nat.eqb negb andb]. rewrite clearCaptures_none.
  cbn [after]. destruct a as [|ch rest]; [reflexivity|].
  destruct (_ =? _); [|reflexivity].
  cbn [length]. rewrite length_neq_S. unfold step.
  cbn [before captures pred option_map].
  destruct rest; reflexivity.
Qed.

(** The number pattern needs a digit: on a text without any it matches
    nowhere. *)
Lemma run_number_none (bef aft : jsstring) (c : list (nat * jsstring))
      (k : cont) :
  forallb (fun ch => negb (isDigit ch)) aft = true ->
  run false numberPattern (mkState bef aft c) k = None.
Proof.
  intros H. unfold numberPattern. cbn [seq fold_right].
  cbn [run]. fold (opt (Lit 45)). rewrite run_opt_lit.
  fold (plus digit). unfold digit.
  destruct aft as [|ch rest]; [now rewrite run_plus_class|].
  cbn [forallb] in H. apply andb_true_iff in H. destruct H as [H1 H2].
  apply negb_true_iff in H1.
  rewrite !run_plus_class, H1.
  destruct (_ =? _); [|reflexivity].
  destruct rest as [|ch' rest']; [reflexivity|].
  cbn [forallb] in H2. apply andb_true_iff in H2. destruct H2 as [H3 _].
  apply negb_true_iff in H3. now rewrite H3.
Qed.

Lemma execFrom_number_none (bef aft : jsstring) :
  forallb (fun ch => negb (isDigit ch)) aft = true ->
  execFrom false numberPattern bef aft = None.
Proof.
  revert bef. induction aft as [|ch rest IH]; intros bef H;
    cbn [execFrom]; rewrite run_number_none by exact H; [reflexivity|].
  apply IH. cbn [forallb] in H. now apply andb_true_iff in H.
Qed.

End SearchFacts.

Module SignalProperties.
Import Tutor SearchFacts.

Lemma strength_marker_found (msg : jsstring) :
  has msg "w260" = true \/ has msg "w320" = true ->
  test true unitsPattern msg = true /\ test false strengthPattern msg = true.
Proof.
  intros H.
  assert (S : exists a d post, isDigit d = true
                               /\ msg = a ++ 119 :: d :: post).
  { destruct H as [H|H]; destruct (includes_split _ _ H) as (a & b & ->);
      exists a, 50, (tl (tl (lit "w260")) ++ b) + exists a, 51, (tl (tl (lit "w320")) ++ b);
      split; reflexivity. }
  destruct S as (a & d & post & Hd & ->). split.
  - apply test_found. unfold unitsPattern.
    apply run_alt_member with (r' := seq [str "w"; plus digit]).
    + cbn [In]. tauto.
    + now apply run_strength.
  - apply test_found. now apply run_strength.
Qed.

(** X10: the two strength markers add nothing to the test for variables: a
    text has variables exactly when it holds a finite number and a unit
    marker, because [w260] and [w320] are unit markers themselves. *)
Theorem hasVariables_is_number_and_unit
        (toLowerCase : jsstring -> jsstring) (message : jsstring) :
  let s := getSignals toLowerCase message in
  hasVariables s = (0 <? length (nums s))%nat && hasUnits s.
Proof.
  cbn [getSignals hasVariables nums hasUnits]. f_equal.
  set (msg := toLowerCase message).
  destruct (test true unitsPattern msg) eqn:U; [reflexivity|].
  destruct (has msg "w260") eqn:A.
  - destruct (strength_marker_found msg (or_introl A)). congruence.
  - destruct (has msg "w320") eqn:B; [|reflexivity].
    destruct (strength_marker_found msg (or_intror B)). congruence.
Qed.

(** X11: a text that names W260 or W320 is always read as a comparison of
    flours with a unit marker; in deep mode, a graph without charts then
    gets the flour radar first and the bar chart that opposes W260 to
    W320, even when the text names one of them only. *)
Theorem strength_marker_compares_flours
        (toLowerCase : jsstring -> jsstring) (graph : value)
        (message : jsstring) :
  has (toLowerCase message) "w260" = true
  \/ has (toLowerCase message) "w320" = true ->
  isObject graph = true ->
  chartsOf graph = [] ->
  let s := getSignals toLowerCase message in
  let charts :=
    chartsOf (ensureGenericChartsAlways toLowerCase graph APPROFONDIE message) in
  hasUnits s = true /\ isComparison s = true /\ topic s = farines
  /\ hd_error charts = Some (radarChart farines)
  /\ In (barChart farines) charts.
Proof.
  intros H Hobj Hempty s charts. destruct (strength_marker_found _ H) as (U & T).
  assert (HU : hasUnits s = true) by exact U.
  assert (HC : isComparison s = true).
  { cbn [s getSignals isComparison].
    destruct H as [-> | ->]; rewrite ?orb_true_r; reflexivity. }
  assert (HT : topic s = farines).
  { cbn [s getSignals topic]. rewrite T, orb_true_r. reflexivity. }
  repeat (split; [assumption|]).
  unfold charts.
  rewrite chartsOf_ensure by exact Hobj. fold s. rewrite Hempty.
  unfold needCharts. rewrite HC, orb_true_r. cbn [Speed_eqb andb length Nat.eqb].
  unfold autoCharts. rewrite HC, HT. split; [reflexivity|].
  cbn [app]. right. apply in_or_app. right. now left.
Qed.

Lemma strength_marker_compares_flours_witness :
  let s := getSignals toLowerCaseLatin1 (lit "Ma W320 est trop tenace") in
  let charts :=
    chartsOf (ensureGenericChartsAlways toLowerCaseLatin1 (VObj []) APPROFONDIE
                (lit "Ma W320 est trop tenace")) in
  hasUnits s = true /\ isComparison s = true /\ topic s = farines
  /\ hd_error charts = Some (radarChart farines)
  /\ In (barChart farines) charts.
Proof.
  apply (strength_marker_compares_flours toLowerCaseLatin1 (VObj [])
           (lit "Ma W320 est trop tenace")); [right| |]; vm_compute; reflexivity.
Defined.

(** X12: a text without a digit has no number and no variables: in deep
    mode it gets charts for comparison or protocol words only. *)
Theorem no_digit_no_variables
        (toLowerCase : jsstring -> jsstring) (message : jsstring)
        (speed : Speed) :
  forallb (fun c => negb (isDigit c)) (toLowerCase message) = true ->
  let s := getSignals toLowerCase message in
  nums s = [] /\ hasVariables s = false
  /\ needCharts speed s
     = Speed_eqb speed APPROFONDIE && (isComparison s || isProtocol s).
Proof.
  intros H s.
  assert (N : nums s = []).
  { cbn [s getSignals nums]. unfold matchAll. cbn [matchAllFrom].
    now rewrite execFrom_number_none by exact H. }
  assert (V : hasVariables s = false).
  { cbn [s getSignals nums] in N. cbn [s getSignals hasVariables].
    now rewrite N. }
  repeat split; [exact N|exact V|]. unfold needCharts. now rewrite V.
Qed.

Lemma no_digit_no_variables_witness :
  let s := getSignals toLowerCaseLatin1 (lit "Quelle farine pour la pâte ?") in
  nums s = [] /\ hasVariables s = false
  /\ needCharts APPROFONDIE s
     = Speed_eqb APPROFONDIE APPROFONDIE && (isComparison s || isProtocol s).
Proof.
  apply (no_digit_no_variables toLowerCaseLatin1
           (lit "Quelle farine pour la pâte ?") APPROFONDIE).
  vm_compute. reflexivity.
Defined.

End SignalProperties.

Module HandlerFacts.
Import Tutor Tutor.BlockSpec.

(** A text trims to nothing exactly when it is whitespace throughout. *)
Lemma trim_nil_iff (s : jsstring) :
  trim s = [] <-> forallb isWhiteSpace s = true.
Proof.
  split.
  - unfold trim, trimStart, trimEnd. intros H.
    apply dropWhile_nil_iff in H. rewrite forallb_rev in H.
    destruct (dropWhile isWhiteSpace (rev s)) as [|c r] eqn:E.
    + apply dropWhile_nil_iff in E. now rewrite forallb_rev in E.
    + pose proof (dropWhile_head _ _ _ _ E) as Hc.
      cbn [forallb] in H. rewrite Hc in H. discriminate.
  - intros H. unfold trim. now rewrite trimEnd_all.
Qed.

(** The repair stage, by the parse of the candidate: a value that
    parses and is truthy is kept; in every other case the repair call is
    made. *)
Lemma repair_cases (gw : Gateway) (raw1 : jsstring) (sp : Speed)
      (message : jsstring) :
  let e := extractGraphJsonBlock raw1 in
  let again :=
    bind (create gw (RepairPrompt sp message
                       (match json e with
                        | Some j => j
                        | None => lit "(vide)"
                        end)))
         (fun raw2 => ret (text e, parseOr (trim raw2) placeholder)) in
  repair gw raw1 sp message
  = match json e with
    | Some j =>
      match parse j with
      | Some v => if truthy v then ret (text e, v) else again
      | None => again
      end
    | None => again
    end.
Proof.
  intros e again. unfold repair. fold e.
  destruct (json e) as [[|c cs]|]; try reflexivity.
  unfold parseOr. destruct (parse (c :: cs)) as [v|]; [|reflexivity].
  now destruct (truthy v).
Qed.

Lemma log_grows {A} (log calls : list A) (p : A) :
  log <> log ++ calls ++ [p].
Proof.
  intros H. apply (f_equal (@length A)) in H.
  rewrite !length_app in H. cbn in H. lia.
Qed.

Lemma log_one_call {A} (log calls : list A) (p p1 : A) :
  log ++ [p1] = log ++ calls ++ [p] -> calls = [] /\ p = p1.
Proof.
  intros H. apply app_inv_head in H. destruct calls as [|c calls].
  - now injection H as <-.
  - destruct calls; discriminate.
Qed.

Lemma log_two_calls {A} (log calls : list A) (p p1 p2 : A) :
  log ++ [p1; p2] = log ++ calls ++ [p] -> calls = [p1] /\ p = p2.
Proof.
  intros H. apply app_inv_head in H. destruct calls as [|c calls].
  - discriminate.
  - destruct calls as [|c' calls].
    + now injection H as <- <-.
    + destruct calls; discriminate.
Qed.

Section WithHost.
Variable toLowerCase : jsstring -> jsstring.

(** The handler once the key and the message are there. *)
Lemma POST_valid (key : option jsstring) (gw : Gateway) (body : requestBody)
      (m : jsstring) :
  nonEmpty key = true ->
  message body = Some m ->
  forallb isWhiteSpace m = false ->
  let sp := match speed body with Some s => s | None => VITE end in
  let first := match isFirstTurn body with Some b => b | None => false end in
  POST toLowerCase key gw (Readable body)
  = bind (create gw (PrimaryPrompt sp first m))
         (fun raw1 =>
            bind (repair gw raw1 sp m)
                 (fun tg =>
                    ret (TutorResponse (fst tg)
                           (ensureGenericChartsAlways toLowerCase (snd tg) sp m)))).
Proof.
  intros Hk Hm Hb sp first. unfold POST. rewrite Hk, Hm. cbn [negb].
  destruct (trim m) as [|c cs] eqn:T; [|reflexivity].
  apply trim_nil_iff in T. congruence.
Qed.

(** Every way through the handler for a request with a key and a
    message: the calls made and the answer given. *)
Lemma POST_paths (key : option jsstring) (gw : Gateway) (body : requestBody)
      (m : jsstring) (log : list prompt) :
  nonEmpty key = true ->
  message body = Some m ->
  forallb isWhiteSpace m = false ->
  let sp := match speed body with Some s => s | None => VITE end in
  let first := match isFirstTurn body with Some b => b | None => false end in
  let p1 := PrimaryPrompt sp first m in
  match gw (length log) p1 with
  | Rejected => POST toLowerCase key gw (Readable body) log = (None, log ++ [p1])
  | Resolved o1 =>
    let e := extractGraphJsonBlock (match o1 with Some t => t | None => [] end) in
    let p2 := RepairPrompt sp m (match json e with
                                 | Some j => j
                                 | None => lit "(vide)"
                                 end) in
    match match json e with
          | Some j => match parse j with
                      | Some v => if truthy v then Some v else None
                      | None => None
                      end
          | None => None
          end with
    | Some v =>
      POST toLowerCase key gw (Readable body) log
      = (Some (TutorResponse (text e)
                 (ensureGenericChartsAlways toLowerCase v sp m)),
         log ++ [p1])
    | None =>
      match gw (S (length log)) p2 with
      | Rejected =>
        POST toLowerCase key gw (Readable body) log = (None, log ++ [p1; p2])
      | Resolved o2 =>
        POST toLowerCase key gw (Readable body) log
        = (Some (TutorResponse (text e)
                   (ensureGenericChartsAlways toLowerCase
                      (parseOr (trim (match o2 with Some t => t | None => [] end))
                               placeholder) sp m)),
           log ++ [p1; p2])
      end
    end
  end.
Proof.
  intros Hk Hm Hb sp first p1.
  assert (E1 : POST toLowerCase key gw (Readable body) log
               = match gw (length log) p1 with
                 | Rejected => (None, log ++ [p1])
                 | Resolved o1 =>
                   bind (repair gw (match o1 with Some t => t | None => [] end)
                                sp m)
                        (fun tg => ret (TutorResponse (fst tg)
                                          (ensureGenericChartsAlways toLowerCase
                                             (snd tg) sp m)))
                        (log ++ [p1])
                 end).
  { rewrite (POST_valid key gw body m Hk Hm Hb). fold sp first p1.
    unfold bind at 1. unfold create at 1.
    now destruct (gw (length log) p1). }
  rewrite E1. clear E1.
  destruct (gw (length log) p1) as [|o1] eqn:G1; [reflexivity|].
  cbv beta zeta. rewrite repair_cases.
  set (e := extractGraphJsonBlock (match o1 with Some t => t | None => [] end)).
  set (p2 := RepairPrompt sp m (match json e with
                                | Some j => j
                                | None => lit "(vide)"
                                end)).
  assert (A : forall o2 : completion,
             gw (S (length log)) p2 = o2 ->
             bind (bind (create gw p2)
                        (fun raw2 => ret (text e, parseOr (trim raw2) placeholder)))
                  (fun tg => ret (TutorResponse (fst tg)
                                    (ensureGenericChartsAlways toLowerCase
                                       (snd tg) sp m)))
                  (log ++ [p1])
             = match o2 with
               | Rejected => (None, log ++ [p1; p2])
               | Resolved o2 =>
                 (Some (TutorResponse (text e)
                          (ensureGenericChartsAlways toLowerCase
                             (parseOr (trim (match o2 with
                                             | Some t => t
                                             | None => []
                                             end)) placeholder) sp m)),
                  log ++ [p1; p2])
               end).
  { intros o2 G2. unfold bind, create, ret.
    rewrite length_app. cbn [length]. rewrite Nat.add_1_r, G2.
    rewrite <- app_assoc. cbn [app]. now destruct o2. }
  destruct (json e) as [j|].
  - destruct (parse j) as [v|].
    + destruct (truthy v).
      * reflexivity.
      * specialize (A _ eq_refl). destruct (gw (S (length log)) p2); exact A.
    + specialize (A _ eq_refl). destruct (gw (S (length log)) p2); exact A.
  - specialize (A _ eq_refl). destruct (gw (S (length log)) p2); exact A.
Qed.


(** A body that cannot be destructured: the handler throws before it
    looks at the key. *)
Lemma POST_unreadable (key : option jsstring) (gw : Gateway)
      (log : list prompt) :
  POST toLowerCase key gw Unreadable log = (None, log).
Proof. reflexivity. Qed.

(** A message of another type than string: 500 without the key, an
    exception with it. *)
Lemma POST_ill_typed (key : option jsstring) (gw : Gateway)
      (log : list prompt) :
  POST toLowerCase key gw IllTyped log
  = if nonEmpty key then (None, log)
    else (Some (ErrorResponse 500 (lit "Missing OPENAI_API_KEY")), log).
Proof. unfold POST. now destruct (nonEmpty key). Qed.

(** What the handler does with a request it cannot go on with: nothing is
    sent to the gateway. *)
Lemma POST_stopped (key : option jsstring) (gw : Gateway) (req : request)
      (log : list prompt) (o : option response) :
  POST toLowerCase key gw req log = (o, log) ->
  ~ exists calls p,
      snd (POST toLowerCase key gw req log) = log ++ calls ++ [p]
      /\ gw (length (log ++ calls)) p = Rejected.
Proof.
  intros E (calls & p & H & _). rewrite E in H. cbn [snd] in H.
  now apply log_grows in H.
Qed.

End WithHost.

End HandlerFacts.
Import HandlerFacts.

Module HandlerProperties.
Import Tutor Tutor.BlockSpec.

(** X13: what the extraction returns is trimmed: the narrative text always,
    and the candidate, which is never empty; without a candidate the
    narrative text is the whole raw output, trimmed. *)
Theorem extraction_trimmed (raw : jsstring) :
  let e := extractGraphJsonBlock raw in
  trim (text e) = text e
  /\ match json e with
     | Some j => j <> [] /\ trim j = j
     | None => text e = trim raw
     end.
Proof.
  destruct (findBlock raw) as [b|] eqn:F.
  - rewrite (extract_block _ _ F).
    destruct (trim (body b)) as [|c cs] eqn:T; cbn [text json].
    + split; [apply trim_idempotent|reflexivity].
    + split; [apply trim_idempotent|]. split; [discriminate|].
      rewrite <- T. apply trim_idempotent.
  - rewrite (extract_no_block _ F). cbn [text json].
    split; [apply trim_idempotent|reflexivity].
Qed.

(** X14: the handler answers with an error in two cases only, and then
    without any call to the gateway: 500 when the key is missing or empty
    and the body could be destructured, whatever the message, and 400
    when the key is there and the message is missing, empty or whitespace
    throughout.  It gives an answer only when the key is there and the
    message is a string that is not blank; and it throws only when the
    body cannot be destructured, or when the key is there and the message
    is of another type than string or is not blank. *)
Theorem POST_error_responses
        (toLowerCase : jsstring -> jsstring) (key : option jsstring)
        (gw : Gateway) (req : request) (log : list prompt) :
  let blank := fun body => match message body with
                           | Some m => forallb isWhiteSpace m
                           | None => true
                           end in
  match fst (POST toLowerCase key gw req log) with
  | Some (ErrorResponse status error) =>
    snd (POST toLowerCase key gw req log) = log
    /\ ((nonEmpty key = false /\ req <> Unreadable /\ status = 500%Z
         /\ error = lit "Missing OPENAI_API_KEY")
        \/ (nonEmpty key = true
            /\ (exists body, req = Readable body /\ blank body = true)
            /\ status = 400%Z /\ error = lit "Empty message"))
  | Some (TutorResponse _ _) =>
    nonEmpty key = true
    /\ exists body, req = Readable body /\ blank body = false
  | None =>
    req = Unreadable
    \/ (nonEmpty key = true
        /\ (req = IllTyped
            \/ exists body, req = Readable body /\ blank body = false))
  end.
Proof.
  cbv beta zeta. destruct req as [| |body].
  - cbn. now left.
  - unfold POST. destruct (nonEmpty key) eqn:Hk; cbn [negb ret throw fst snd].
    + right. split; [reflexivity|]. now left.
    + split; [reflexivity|]. left. repeat split. discriminate.
  - destruct (nonEmpty key) eqn:Hk.
    + destruct (message body) as [m|] eqn:Hm.
      * destruct (forallb isWhiteSpace m) eqn:Hb.
        -- unfold POST. rewrite Hk, Hm. cbn [negb].
           rewrite (proj2 (trim_nil_iff m) Hb). cbn [ret fst snd].
           split; [reflexivity|]. right. split; [reflexivity|].
           split; [|now split]. exists body. now rewrite Hm.
        -- assert (V : exists body0,
                      Readable body = Readable body0
                      /\ match message body0 with
                         | Some m0 => forallb isWhiteSpace m0
                         | None => true
                         end = false)
             by (exists body; now rewrite Hm).
           pose proof (POST_paths toLowerCase key gw body m log Hk Hm Hb) as P.
           cbv zeta in P.
           destruct (gw (length log) _) as [|o1];
             [rewrite P; cbn [fst]; right; split; [reflexivity|now right]|].
           set (e := extractGraphJsonBlock _) in *.
           set (kept := match json e with
                        | Some j => match parse j with
                                    | Some v => if truthy v then Some v else None
                                    | None => None
                                    end
                        | None => None
                        end) in *.
           destruct kept as [v|]; [rewrite P; cbn [fst]; now split|].
           destruct (gw (S (length log)) _); rewrite P; cbn [fst];
             [right; split; [reflexivity|now right]|now split].
      * unfold POST. rewrite Hk, Hm. cbn [negb ret fst snd].
        split; [reflexivity|]. right. split; [reflexivity|].
        split; [|now split]. exists body. now rewrite Hm.
    + unfold POST. rewrite Hk. cbn [negb ret fst snd].
      split; [reflexivity|]. left. repeat split. discriminate.
Qed.

(** X15: the handler throws in three cases only: the body cannot be
    destructured; the key is there and the message is neither nullish nor
    a string; or a call it made to the gateway was rejected.  The
    placeholder stands in for an answer that does not parse, not for a
    call that fails. *)
Theorem POST_throws_iff
        (toLowerCase : jsstring -> jsstring) (key : option jsstring)
        (gw : Gateway) (req : request) (log : list prompt) :
  fst (POST toLowerCase key gw req log) = None
  <-> req = Unreadable
      \/ (req = IllTyped /\ nonEmpty key = true)
      \/ exists calls p,
           snd (POST toLowerCase key gw req log) = log ++ calls ++ [p]
           /\ gw (length (log ++ calls)) p = Rejected.
Proof.
  destruct req as [| |body].
  - split; [now left|reflexivity].
  - destruct (nonEmpty key) eqn:Hk.
    + split; [intros _; right; left; now split|].
      intros _. unfold POST. now rewrite Hk.
    + split; [unfold POST; rewrite Hk; discriminate|].
      intros [H|[[_ H]|H]]; [discriminate H|discriminate H|].
      exfalso. revert H.
      apply (POST_stopped toLowerCase key gw IllTyped log
               (Some (ErrorResponse 500 (lit "Missing OPENAI_API_KEY")))).
      unfold POST. now rewrite Hk.
  - assert (R : forall P : Prop,
               (Readable body = Unreadable
                \/ (Readable body = IllTyped /\ nonEmpty key = true) \/ P)
               <-> P).
    { intros P. split; [|intros H; right; now right].
      intros [H|[[H _]|H]]; [discriminate H|discriminate H|exact H]. }
    refine (iff_trans _ (iff_sym (R _))). clear R.
    assert (Err : forall r,
               POST toLowerCase key gw (Readable body) log = (Some r, log) ->
               fst (POST toLowerCase key gw (Readable body) log) = None
               <-> exists calls p,
                   snd (POST toLowerCase key gw (Readable body) log)
                   = log ++ calls ++ [p]
                   /\ gw (length (log ++ calls)) p = Rejected).
    { intros r E. split; [rewrite E; discriminate|]. intros H. exfalso.
      revert H. exact (POST_stopped toLowerCase key gw _ log _ E). }
    destruct (nonEmpty key) eqn:Hk;
      [|apply (Err (ErrorResponse 500 (lit "Missing OPENAI_API_KEY")));
        unfold POST; now rewrite Hk].
    destruct (message body) as [m|] eqn:Hm;
      [|apply (Err (ErrorResponse 400 (lit "Empty message")));
        unfold POST; now rewrite Hk, Hm].
    destruct (forallb isWhiteSpace m) eqn:Hb;
      [apply (Err (ErrorResponse 400 (lit "Empty message")));
       unfold POST; rewrite Hk, Hm; cbn [negb];
       now rewrite (proj2 (trim_nil_iff m) Hb)|].
    clear Err.
    pose proof (POST_paths toLowerCase key gw body m log Hk Hm Hb) as P.
    cbv zeta in P.
    set (p1 := PrimaryPrompt _ _ m) in *.
    destruct (gw (length log) p1) as [|o1] eqn:G1.
    + rewrite P. cbn [fst snd]. split; [intros _|reflexivity].
      exists [], p1. now rewrite app_nil_r.
    + set (p2 := RepairPrompt _ m _) in *.
      set (e := extractGraphJsonBlock _) in *.
      set (kept := match json e with
                   | Some j => match parse j with
                               | Some v => if truthy v then Some v else None
                               | None => None
                               end
                   | None => None
                   end) in *.
      destruct kept as [v|] eqn:K.
      * rewrite P. cbn [fst snd]. split; [discriminate|].
        intros (calls & p & H & R). apply log_one_call in H.
        destruct H as [-> ->]. rewrite app_nil_r in R. congruence.
      * destruct (gw (S (length log)) p2) as [|o2] eqn:G2; rewrite P;
          cbn [fst snd].
        -- split; [intros _|reflexivity]. exists [p1], p2.
           split; [reflexivity|]. rewrite length_app. cbn [length].
           now rewrite Nat.add_1_r.
        -- split; [discriminate|].
           intros (calls & p & H & R). apply log_two_calls in H.
           destruct H as [-> ->]. rewrite length_app in R. cbn [length] in R.
           rewrite Nat.add_1_r in R. congruence.
Qed.

Lemma POST_throws_iff_witness :
  fst (POST toLowerCaseLatin1 (Some (lit "k")) (fun _ _ => Rejected)
            (Readable (mkBody (Some (lit "Quelle farine ?")) None None)) [])
  = None.
Proof.
  apply (proj2 (POST_throws_iff toLowerCaseLatin1
                  (Some (lit "k")) (fun _ _ => Rejected)
                  (Readable (mkBody (Some (lit "Quelle farine ?")) None None))
                  [])).
  right. right.
  exists [], (PrimaryPrompt VITE false (lit "Quelle farine ?")).
  split; reflexivity.
Defined.



(** X17: a candidate that is valid JSON but parses to a falsy value ([null],
    [false], [0], the empty string) is treated as missing: the repair
    call is made, with the candidate as the text to repair. *)
Theorem falsy_candidate_is_repaired
        (toLowerCase : jsstring -> jsstring) (key : option jsstring)
        (gw : Gateway) (body : requestBody) (log : list prompt)
        (m : jsstring) (o1 : option jsstring) (j : jsstring) (v : value) :
  nonEmpty key = true ->
  message body = Some m ->
  forallb isWhiteSpace m = false ->
  let sp := match speed body with Some s => s | None => VITE end in
  let first := match isFirstTurn body with Some b => b | None => false end in
  let p1 := PrimaryPrompt sp first m in
  gw (length log) p1 = Resolved o1 ->
  json (extractGraphJsonBlock (match o1 with Some t => t | None => [] end))
  = Some j ->
  parse j = Some v ->
  truthy v = false ->
  snd (POST toLowerCase key gw (Readable body) log) = log ++ [p1; RepairPrompt sp m j].
Proof.
  intros Hk Hm Hb sp first p1 G1 J Pj T.
  pose proof (POST_paths toLowerCase key gw body m log Hk Hm Hb) as P.
  cbv zeta in P. fold sp first p1 in P. rewrite G1, J, Pj, T in P.
  destruct (gw (S (length log)) _); now rewrite P.
Qed.

Lemma falsy_candidate_is_repaired_witness :
  snd (POST toLowerCaseLatin1 (Some (lit "k"))
         (answering "Voici. <GRAPH_JSON> null </GRAPH_JSON>")
         (Readable (mkBody (Some (lit "Quelle farine ?")) None
                           (Some APPROFONDIE))) [])
  = [] ++ [PrimaryPrompt APPROFONDIE false (lit "Quelle farine ?");
           RepairPrompt APPROFONDIE (lit "Quelle farine ?") (lit "null")].
Proof.
  apply (falsy_candidate_is_repaired toLowerCaseLatin1 (Some (lit "k"))
           (answering "Voici. <GRAPH_JSON> null </GRAPH_JSON>")
           (mkBody (Some (lit "Quelle farine ?")) None (Some APPROFONDIE)) []
           (lit "Quelle farine ?")
           (Some (lit "Voici. <GRAPH_JSON> null </GRAPH_JSON>"))
           (lit "null") VNull); vm_compute; reflexivity.
Defined.

(** X18: the candidate is not checked against the schema: any value it
    parses to, if truthy, is taken as the graph without a repair call; a
    number, a string or [true] is answered as it is, an object or an
    array goes through the chart pass. *)
Theorem candidate_accepted_unvalidated
        (toLowerCase : jsstring -> jsstring) (key : option jsstring)
        (gw : Gateway) (body : requestBody) (log : list prompt)
        (m : jsstring) (o1 : option jsstring) (j : jsstring) (v : value) :
  nonEmpty key = true ->
  message body = Some m ->
  forallb isWhiteSpace m = false ->
  let sp := match speed body with Some s => s | None => VITE end in
  let first := match isFirstTurn body with Some b => b | None => false end in
  let p1 := PrimaryPrompt sp first m in
  let e := extractGraphJsonBlock (match o1 with Some t => t | None => [] end) in
  gw (length log) p1 = Resolved o1 ->
  json e = Some j ->
  parse j = Some v ->
  truthy v = true ->
  POST toLowerCase key gw (Readable body) log
  = (Some (TutorResponse (text e)
             (if isObject v
              then ensureGenericChartsAlways toLowerCase v sp m
              else v)),
     log ++ [p1]).
Proof.
  intros Hk Hm Hb sp first p1 e G1 J Pj T.
  pose proof (POST_paths toLowerCase key gw body m log Hk Hm Hb) as P.
  cbv zeta in P. fold sp first p1 in P. rewrite G1 in P. fold e in P.
  rewrite J, Pj, T in P. rewrite P.
  destruct (isObject v) eqn:O; [reflexivity|].
  now rewrite ensure_not_object by exact O.
Qed.

Lemma candidate_accepted_unvalidated_witness :
  POST toLowerCaseLatin1 (Some (lit "k"))
       (answering "Voici. <GRAPH_JSON> 42 </GRAPH_JSON>")
       (Readable (mkBody (Some (lit "Comparer W260 vs W320")) None
                         (Some APPROFONDIE))) []
  = (Some (TutorResponse (lit "Voici.") (num 42)),
     [] ++ [PrimaryPrompt APPROFONDIE false (lit "Comparer W260 vs W320")]).
Proof.
  apply (candidate_accepted_unvalidated toLowerCaseLatin1 (Some (lit "k"))
           (answering "Voici. <GRAPH_JSON> 42 </GRAPH_JSON>")
           (mkBody (Some (lit "Comparer W260 vs W320")) None (Some APPROFONDIE))
           [] (lit "Comparer W260 vs W320")
           (Some (lit "Voici. <GRAPH_JSON> 42 </GRAPH_JSON>"))
           (lit "42") (num 42)); vm_compute; reflexivity.
Defined.

(** X19: the answer to the repair call is not checked either: whatever it
    parses to is the graph of the answer, [null] included; the
    placeholder is for an answer that does not parse. *)
Theorem repair_answer_unvalidated
        (toLowerCase : jsstring -> jsstring) (key : option jsstring)
        (gw : Gateway) (body : requestBody) (log : list prompt)
        (m : jsstring) (o1 o2 : option jsstring) (v : value) :
  nonEmpty key = true ->
  message body = Some m ->
  forallb isWhiteSpace m = false ->
  let sp := match speed body with Some s => s | None => VITE end in
  let first := match isFirstTurn body with Some b => b | None => false end in
  let p1 := PrimaryPrompt sp first m in
  let e := extractGraphJsonBlock (match o1 with Some t => t | None => [] end) in
  let p2 := RepairPrompt sp m (match json e with
                               | Some j => j
                               | None => lit "(vide)"
                               end) in
  gw (length log) p1 = Resolved o1 ->
  match json e with
  | Some j => match parse j with Some v0 => truthy v0 | None => false end
  | None => false
  end = false ->
  gw (S (length log)) p2 = Resolved o2 ->
  parse (trim (match o2 with Some t => t | None => [] end)) = Some v ->
  POST toLowerCase key gw (Readable body) log
  = (Some (TutorResponse (text e)
             (if isObject v
              then ensureGenericChartsAlways toLowerCase v sp m
              else v)),
     log ++ [p1; p2]).
Proof.
  intros Hk Hm Hb sp first p1 e p2 G1 J G2 Pj.
  pose proof (POST_paths toLowerCase key gw body m log Hk Hm Hb) as P.
  cbv zeta in P. fold sp first p1 in P. rewrite G1 in P. fold e in P.
  fold p2 in P.
  assert (K : match json e with
              | Some j => match parse j with
                          | Some v0 => if truthy v0 then Some v0 else None
                          | None => None
                          end
              | None => None
              end = None).
  { destruct (json e) as [j|]; [|reflexivity].
    destruct (parse j) as [v0|]; [|reflexivity]. now rewrite J. }
  rewrite K, G2 in P. rewrite P. unfold parseOr. rewrite Pj.
  destruct (isObject v) eqn:O; [reflexivity|].
  now rewrite ensure_not_object by exact O.
Qed.

Lemma repair_answer_unvalidated_witness :
  POST toLowerCaseLatin1 (Some (lit "k")) (answering " null ")
       (Readable (mkBody (Some (lit "Comparer W260 vs W320")) None
                         (Some APPROFONDIE))) []
  = (Some (TutorResponse (lit "null") VNull),
     [] ++ [PrimaryPrompt APPROFONDIE false (lit "Comparer W260 vs W320");
            RepairPrompt APPROFONDIE (lit "Comparer W260 vs W320")
                         (lit "(vide)")]).
Proof.
  apply (repair_answer_unvalidated toLowerCaseLatin1 (Some (lit "k"))
           (answering " null ")
           (mkBody (Some (lit "Comparer W260 vs W320")) None (Some APPROFONDIE))
           [] (lit "Comparer W260 vs W320")
           (Some (lit " null ")) (Some (lit " null ")) VNull);
    vm_compute; reflexivity.
Defined.

End HandlerProperties.

Module PromptFacts.
Import Rag.

Lemma trimEnd_idempotent (b : jsstring) : trimEnd (trimEnd b) = trimEnd b.
Proof.
  unfold trimEnd. rewrite rev_involutive.
  destruct (dropWhile isWhiteSpace (rev b)) as [|x l] eqn:D; [reflexivity|].
  pose proof (dropWhile_head _ _ _ _ D) as Hx. cbn [dropWhile]. now rewrite Hx.
Qed.

Lemma trim_as_trimEnd (b : jsstring) :
  trim b = trimEnd (dropWhile isWhiteSpace b).
Proof.
  rewrite (takeWhile_dropWhile isWhiteSpace b) at 1.
  apply trim_leading; [apply takeWhile_all|].
  intros c r E. exact (dropWhile_head _ _ _ _ E).
Qed.

Lemma trimEnd_trim (b : jsstring) : trimEnd (trim b) = trim b.
Proof. rewrite trim_as_trimEnd. apply trimEnd_idempotent. Qed.

Lemma trimEnd_whitespace_suffix (a w : jsstring) :
  forallb isWhiteSpace w = true -> trimEnd (a ++ w) = trimEnd a.
Proof.
  intros H. unfold trimEnd. rewrite rev_app_distr.
  rewrite dropWhile_all by (now rewrite forallb_rev). reflexivity.
Qed.

(** [trim] takes from a template its first and its last line break
    when the first line starts with a unit that is not whitespace and the
    last one is a trimmed text that is not empty. *)
Lemma trim_template (c : N) (hdr mid x : jsstring) :
  isWhiteSpace c = false ->
  trim x <> [] ->
  trim (nl ++ (c :: hdr) ++ mid ++ trim x ++ nl) = (c :: hdr) ++ mid ++ trim x.
Proof.
  intros Hc Hx.
  rewrite trim_leading; [|reflexivity|now intros c' r [= <- _]].
  replace ((c :: hdr) ++ mid ++ trim x ++ nl)
    with ((((c :: hdr) ++ mid) ++ trim x) ++ nl)
    by (now rewrite <- !app_assoc).
  rewrite trimEnd_whitespace_suffix by reflexivity.
  rewrite trimEnd_app.
  - rewrite trimEnd_trim. now rewrite <- app_assoc.
  - destruct (forallb isWhiteSpace (trim x)) eqn:E; [|reflexivity].
    apply trimEnd_all in E. rewrite trimEnd_trim in E. congruence.
Qed.

Lemma excerpts_nth (l : list chunk) (k i : nat) (m : chunk) :
  nth_error l i = Some m ->
  nth_error (excerpts k l) i
  = Some (lit "EXTRAIT #" ++ digitsOf (N.of_nat (k + i + 1)) ++ lit " (sim="
          ++ toFixed (similarityOf m) 2 ++ lit "):" ++ nl ++ content m).
Proof.
  revert k i. induction l as [|a l IH]; intros k [|i]; cbn [nth_error excerpts];
    try discriminate.
  - intros [= ->]. now rewrite Nat.add_0_r.
  - intros H. rewrite (IH (S k) i H). do 4 f_equal. lia.
Qed.

Lemma join_part (sep : jsstring) (parts : list jsstring) (i : nat)
      (p : jsstring) :
  nth_error parts i = Some p -> exists a b, join sep parts = a ++ p ++ b.
Proof.
  revert i. induction parts as [|q parts IH]; intros [|i]; cbn [nth_error];
    try discriminate.
  - intros [= ->]. exists []. destruct parts as [|q' parts].
    + exists []. cbn [join app]. now rewrite app_nil_r.
    + exists (sep ++ join sep (q' :: parts)). reflexivity.
  - intros H. destruct (IH i H) as (a & b & E).
    destruct parts as [|q' parts]; [destruct i; discriminate|].
    exists (q ++ sep ++ a), b. cbn [join]. cbn [join] in E. rewrite E.
    now rewrite <- !app_assoc.
Qed.

Lemma trim_template_parts
      (c : N) (h hdr p1 p2 p3 p4 p5 p6 p7 p8 p9 p10 p11 x : jsstring) :
  h = c :: hdr ->
  isWhiteSpace c = false ->
  trim x <> [] ->
  trim (nl ++ h ++ p1 ++ p2 ++ p3 ++ p4 ++ p5 ++ p6 ++ p7 ++ p8 ++ p9
        ++ p10 ++ p11 ++ trim x ++ nl)
  = h ++ p1 ++ p2 ++ p3 ++ p4 ++ p5 ++ p6 ++ p7 ++ p8 ++ p9 ++ p10 ++ p11
    ++ trim x.
Proof.
  intros -> Hc Hx.
  pose proof (trim_template c hdr
                (p1 ++ p2 ++ p3 ++ p4 ++ p5 ++ p6 ++ p7 ++ p8 ++ p9 ++ p10
                 ++ p11) x Hc Hx)
    as T.
  rewrite <- !app_assoc in T. exact T.
Qed.

Lemma includes_inside_parts (h1 h2 a a' needle b t : jsstring) :
  includes (h1 ++ h2 ++ (a ++ (a' ++ needle) ++ b) ++ t) needle = true.
Proof.
  replace (h1 ++ h2 ++ (a ++ (a' ++ needle) ++ b) ++ t)
    with ((h1 ++ h2 ++ a ++ a') ++ needle ++ (b ++ t))
    by (now rewrite <- !app_assoc).
  apply includes_app.
Qed.

Lemma below_floor : geb posZero floor = false.
Proof. vm_compute. reflexivity. Qed.

(** The prompt is the template without its first and its last line
    break. *)
Lemma prompt_template (retrieved : list chunk) (contextText : option jsstring)
      (x : jsstring) :
  trim x <> [] ->
  userPromptText retrieved contextText (trim x)
  = lit "DOCUMENTS EPPPN / LIVRES (extraits) :" ++ nl
    ++ retrievedContext retrieved ++ nl
    ++ nl ++ lit "Contexte utilisateur (optionnel) :" ++ nl
    ++ (match contextText with Some c => c | None => lit "(non fourni)" end)
    ++ nl
    ++ nl ++ lit "Question :" ++ nl
    ++ trim x.
Proof.
  intros Hx. unfold userPromptText.
  assert (G : forall ctx,
             trim (nl ++ lit "DOCUMENTS EPPPN / LIVRES (extraits) :" ++ nl
                   ++ retrievedContext retrieved ++ nl
                   ++ nl ++ lit "Contexte utilisateur (optionnel) :" ++ nl
                   ++ ctx ++ nl
                   ++ nl ++ lit "Question :" ++ nl
                   ++ trim x ++ nl)
             = lit "DOCUMENTS EPPPN / LIVRES (extraits) :" ++ nl
               ++ retrievedContext retrieved ++ nl
               ++ nl ++ lit "Contexte utilisateur (optionnel) :" ++ nl
               ++ ctx ++ nl
               ++ nl ++ lit "Question :" ++ nl
               ++ trim x).
  { intros ctx.
    generalize (lit "Contexte utilisateur (optionnel) :") as c.
    generalize (lit "Question :") as q.
    assert (Hh : lit "DOCUMENTS EPPPN / LIVRES (extraits) :"
                 = 68 :: tl (lit "DOCUMENTS EPPPN / LIVRES (extraits) :"))
      by (vm_compute; reflexivity).
    revert Hh.
    generalize (tl (lit "DOCUMENTS EPPPN / LIVRES (extraits) :")) as hdr.
    generalize (lit "DOCUMENTS EPPPN / LIVRES (extraits) :") as h.
    intros h hdr Hh q c.
    exact (trim_template_parts 68 h hdr nl (retrievedContext retrieved) nl nl
             c nl ctx nl nl q nl x Hh eq_refl Hx). }
  destruct contextText as [c0|]; apply G.
Qed.

(** The handler past its checks. *)
Lemma POST_checked (env : environment) (w : world) (body : requestBody) :
  body <> Unreadable ->
  POST env w body
  = if negb (Tutor.nonEmpty (OPENAI_API_KEY env))
    then ErrorResponse 500 (lit "Missing OPENAI_API_KEY")
    else if negb (Tutor.nonEmpty (SUPABASE_URL env))
            || negb (Tutor.nonEmpty (SUPABASE_SERVICE_ROLE_KEY env))
    then ErrorResponse 500
           (lit "Missing SUPABASE_URL or SUPABASE_SERVICE_ROLE_KEY")
    else
      match messageOf body with
      | [] => ErrorResponse 400 (lit "Empty message")
      | _ =>
        match createClient w (orEmpty (SUPABASE_URL env))
                           (orEmpty (SUPABASE_SERVICE_ROLE_KEY env)) with
        | None => serverError
        | Some supabase =>
          match embed w (messageOf body) with
          | None => serverError
          | Some queryEmbedding =>
            match match_chunks supabase queryEmbedding 6 with
            | RpcRejected => serverError
            | RpcResult matches matchErr =>
              match complete w
                      (mkRequest
                         (userPromptText (retrieve matches)
                            (contextTextOf body) (messageOf body))
                         (imageDataUrlOf body)) with
              | Tutor.Rejected => serverError
              | Tutor.Resolved output_text =>
                Answer (orEmpty output_text)
                       (length (retrieve matches))
                       (map topOf (retrieve matches))
                       (isSome (imageDataUrlOf body))
              end
            end
          end
        end
      end.
Proof. intros B. destruct body; [congruence|reflexivity|reflexivity]. Qed.

End PromptFacts.

Module RagProperties.
Import Rag PromptFacts.

(** X20: what the handler sends to the completion gateway, once the
    Supabase client is made and the embedding and the rows are returned:
    the template without its first and its last line break, with the
    excerpts (or the fallback line), the context text (or "(non fourni)")
    and the trimmed message in it; [trim] takes nothing from them. *)
Theorem rag_prompt_as_sent
        (env : environment) (w : world) (body : requestBody)
        (supabase : client)
        (queryEmbedding : list number) (matches : option (list chunk))
        (matchErr : bool) :
  Tutor.nonEmpty (OPENAI_API_KEY env) = true ->
  Tutor.nonEmpty (SUPABASE_URL env) = true ->
  Tutor.nonEmpty (SUPABASE_SERVICE_ROLE_KEY env) = true ->
  body <> Unreadable ->
  messageOf body <> [] ->
  createClient w (orEmpty (SUPABASE_URL env))
               (orEmpty (SUPABASE_SERVICE_ROLE_KEY env)) = Some supabase ->
  embed w (messageOf body) = Some queryEmbedding ->
  match_chunks supabase queryEmbedding 6 = RpcResult matches matchErr ->
  let retrieved := retrieve matches in
  let prompt :=
    lit "DOCUMENTS EPPPN / LIVRES (extraits) :" ++ nl
    ++ retrievedContext retrieved ++ nl
    ++ nl ++ lit "Contexte utilisateur (optionnel) :" ++ nl
    ++ (match contextTextOf body with
        | Some c => c
        | None => lit "(non fourni)"
        end) ++ nl
    ++ nl ++ lit "Question :" ++ nl
    ++ messageOf body in
  POST env w body
  = match complete w (mkRequest prompt (imageDataUrlOf body)) with
    | Tutor.Rejected => serverError
    | Tutor.Resolved output_text =>
      Answer (orEmpty output_text) (length retrieved) (map topOf retrieved)
             (isSome (imageDataUrlOf body))
    end.
Proof.
  intros K1 K2 K3 B Hm Hs He Hr retrieved prompt.
  rewrite (POST_checked env w body B), K1, K2, K3. cbn [negb orb].
  assert (L : userPromptText retrieved (contextTextOf body) (messageOf body)
              = prompt)
    by (unfold messageOf in *; now apply prompt_template).
  destruct (messageOf body) as [|c cs] eqn:M; [congruence|].
  rewrite Hs, He, Hr. fold retrieved. now rewrite L.
Qed.

Lemma rag_prompt_as_sent_witness :
  POST settings quietWorld (JsonBody (Some (lit " Quelle farine ? ")) None)
  = Answer (lit "Bonjour") 0 [] false.
Proof.
  apply (rag_prompt_as_sent settings quietWorld
           (JsonBody (Some (lit " Quelle farine ? ")) None)
           quietClient [] (Some [lowChunk]) true);
    try reflexivity; vm_compute; discriminate.
Defined.

(** X21: every retrieved row is in the prompt, under a header that numbers
    the rows from 1 in the order retrieved and gives the similarity with
    two decimals; in particular its content is in the prompt. *)
Theorem prompt_carries_excerpts
        (retrieved : list chunk) (contextText : option jsstring)
        (x : jsstring) (i : nat) (m : chunk) :
  trim x <> [] ->
  nth_error retrieved i = Some m ->
  let prompt := userPromptText retrieved contextText (trim x) in
  includes prompt
    (lit "EXTRAIT #" ++ digitsOf (N.of_nat (i + 1)) ++ lit " (sim="
     ++ toFixed (similarityOf m) 2 ++ lit "):" ++ nl ++ content m) = true
  /\ includes prompt (content m) = true.
Proof.
  intros Hx Hi prompt. unfold prompt. rewrite (prompt_template _ _ _ Hx).
  assert (R : retrievedContext retrieved
              = join (nl ++ nl ++ lit "---" ++ nl ++ nl) (excerpts 0 retrieved))
    by (destruct retrieved; [destruct i; discriminate|reflexivity]).
  pose proof (excerpts_nth retrieved 0 i m Hi) as E. cbn [Nat.add] in E.
  destruct (join_part (nl ++ nl ++ lit "---" ++ nl ++ nl) _ _ _ E)
    as (a & b & J).
  rewrite R, J. split.
  - apply (includes_inside_parts _ nl a []).
  - generalize (lit "DOCUMENTS EPPPN / LIVRES (extraits) :") as h.
    generalize (lit "EXTRAIT #") as p. generalize (lit " (sim=") as q.
    generalize (lit "):") as r. intros r q p h.
    replace (p ++ digitsOf (N.of_nat (i + 1)) ++ q
             ++ toFixed (similarityOf m) 2 ++ r ++ nl ++ content m)
      with ((p ++ digitsOf (N.of_nat (i + 1)) ++ q
             ++ toFixed (similarityOf m) 2 ++ r ++ nl) ++ content m)
      by (now rewrite <- !app_assoc).
    apply (includes_inside_parts _ nl a).
Qed.

Lemma prompt_carries_excerpts_witness :
  let m := mkChunk (Some (Number (lit "0.5"))) (lit "Pointage : 2 h") VNull VNull in
  let prompt := userPromptText [lowChunk; m] None (trim (lit "Quelle farine ?")) in
  includes prompt
    (lit "EXTRAIT #" ++ digitsOf (N.of_nat (1 + 1)) ++ lit " (sim="
     ++ toFixed (similarityOf m) 2 ++ lit "):" ++ nl ++ content m) = true
  /\ includes prompt (content m) = true.
Proof.
  apply (prompt_carries_excerpts
           [lowChunk;
            mkChunk (Some (Number (lit "0.5"))) (lit "Pointage : 2 h") VNull VNull]
           None (lit "Quelle farine ?") 1
           (mkChunk (Some (Number (lit "0.5"))) (lit "Pointage : 2 h") VNull VNull));
    [vm_compute; discriminate|reflexivity].
Defined.

(** X22: the handler gives an answer only when the three settings are
    there and the message is not blank; the answer reports as many rows
    used as it lists, six at most, each with a similarity of 0.2 at
    least (a row without similarity is never used), and reports an image
    exactly when the form carried one. *)
Theorem rag_answer_inversion
        (env : environment) (w : world) (body : requestBody)
        (answer_fr : jsstring) (used : nat) (top : list ragTop)
        (received_image : bool) :
  POST env w body = Answer answer_fr used top received_image ->
  Tutor.nonEmpty (OPENAI_API_KEY env) = true
  /\ Tutor.nonEmpty (SUPABASE_URL env) = true
  /\ Tutor.nonEmpty (SUPABASE_SERVICE_ROLE_KEY env) = true
  /\ messageOf body <> []
  /\ used = length top
  /\ (used <= 6)%nat
  /\ Forall (fun t => exists s, top_similarity t = Some s
                                /\ geb s floor = true) top
  /\ received_image = match body with
                      | FormData _ _ (Some _) => true
                      | _ => false
                      end.
Proof.
  intros H.
  assert (B : body <> Unreadable)
    by (intros ->; unfold POST in H; discriminate H).
  rewrite (POST_checked env w body B) in H.
  destruct (Tutor.nonEmpty (OPENAI_API_KEY env)); [|discriminate].
  destruct (Tutor.nonEmpty (SUPABASE_URL env)); [|discriminate].
  destruct (Tutor.nonEmpty (SUPABASE_SERVICE_ROLE_KEY env)); [|discriminate].
  cbn [negb orb] in H.
  destruct (messageOf body) as [|c cs] eqn:M; [discriminate|].
  destruct (createClient w _ _) as [supabase|]; [|discriminate].
  destruct (embed w (c :: cs)) as [q|]; [|discriminate].
  destruct (match_chunks supabase q 6) as [|matches err]; [discriminate|].
  destruct (complete w _) as [|o]; [discriminate|].
  injection H as <- <- <- <-.
  pose proof (RagClaims.retrieve_bounds matches) as (L & F).
  repeat split; try reflexivity; try discriminate.
  - now rewrite length_map.
  - exact L.
  - apply Forall_forall. intros t Ht. apply in_map_iff in Ht.
    destruct Ht as (m & <- & Hm). destruct (F m Hm) as (_ & G).
    unfold similarityOf in G. cbn [topOf top_similarity].
    destruct (similarity m) as [s|]; [now exists s|].
    rewrite below_floor in G. discriminate.
  - now destruct body as [|? ? [[]|]|].
Qed.

Lemma rag_answer_inversion_witness :
  let env := settings in
  let body := JsonBody (Some (lit " Quelle farine ? ")) None in
  Tutor.nonEmpty (OPENAI_API_KEY env) = true
  /\ Tutor.nonEmpty (SUPABASE_URL env) = true
  /\ Tutor.nonEmpty (SUPABASE_SERVICE_ROLE_KEY env) = true
  /\ messageOf body <> []
  /\ 0%nat = length (@nil ragTop)
  /\ (0 <= 6)%nat
  /\ Forall (fun t => exists s, top_similarity t = Some s
                                /\ geb s floor = true) []
  /\ false = false.
Proof.
  apply (rag_answer_inversion settings quietWorld
           (JsonBody (Some (lit " Quelle farine ? ")) None)
           (lit "Bonjour") 0 [] false).
  vm_compute. reflexivity.
Defined.

(** X23: the 400 answer for an empty message comes after every other check:
    it is given exactly when the request was readable, the three settings
    are there and the message is missing or blank; a setting that is
    missing is reported first, with a 500. *)
Theorem rag_empty_message_iff
        (env : environment) (w : world) (body : requestBody)
        (error : jsstring) :
  POST env w body = ErrorResponse 400 error
  <-> body <> Unreadable
      /\ Tutor.nonEmpty (OPENAI_API_KEY env) = true
      /\ Tutor.nonEmpty (SUPABASE_URL env) = true
      /\ Tutor.nonEmpty (SUPABASE_SERVICE_ROLE_KEY env) = true
      /\ forallb isWhiteSpace
           (orEmpty (match body with
                     | FormData m _ _ | JsonBody m _ => m
                     | Unreadable => None
                     end)) = true
      /\ error = lit "Empty message".
Proof.
  assert (M : forall b, messageOf b = []
                        <-> forallb isWhiteSpace
                              (orEmpty (match b with
                                        | FormData m _ _ | JsonBody m _ => m
                                        | Unreadable => None
                                        end)) = true)
    by (intros b; apply trim_nil_iff).
  split.
  - intros H.
    assert (B : body <> Unreadable)
      by (intros ->; unfold POST in H; discriminate H).
    rewrite (POST_checked env w body B) in H. split; [exact B|].
    destruct (Tutor.nonEmpty (OPENAI_API_KEY env)); [|discriminate].
    destruct (Tutor.nonEmpty (SUPABASE_URL env)); [|discriminate].
    destruct (Tutor.nonEmpty (SUPABASE_SERVICE_ROLE_KEY env)); [|discriminate].
    cbn [negb orb] in H. repeat (split; [reflexivity|]).
    destruct (messageOf body) as [|c cs] eqn:Hm.
    + split; [now apply M|]. now injection H as <-.
    + destruct (createClient w _ _) as [supabase|]; [|discriminate].
      destruct (embed w (c :: cs)) as [q|]; [|discriminate].
      destruct (match_chunks supabase q 6) as [|matches err]; [discriminate|].
      destruct (complete w _); discriminate.
  - intros (B & K1 & K2 & K3 & Hb & ->).
    rewrite (POST_checked env w body B), K1, K2, K3. cbn [negb orb].
    now rewrite (proj2 (M body) Hb).
Qed.

Lemma rag_empty_message_iff_witness :
  POST settings quietWorld (JsonBody (Some (lit "  ")) None)
  = ErrorResponse 400 (lit "Empty message").
Proof.
  apply (proj2 (rag_empty_message_iff settings quietWorld
                  (JsonBody (Some (lit "  ")) None)
                  (lit "Empty message"))).
  repeat split; try reflexivity. discriminate.
Defined.

(** X24: an empty context text is read differently by the two request
    forms: sent as a form field it counts as not given, and the prompt
    says so; sent in a JSON body it is kept, and the prompt shows an empty
    context. *)
Theorem empty_context_form_vs_json
        (retrieved : list chunk) (x : jsstring) (m : option jsstring)
        (image : option (jsstring * jsstring)) :
  trim x <> [] ->
  userPromptText retrieved (contextTextOf (FormData m (Some []) image)) (trim x)
  = userPromptText retrieved (contextTextOf (FormData m None image)) (trim x)
  /\ userPromptText retrieved (contextTextOf (JsonBody m (Some []))) (trim x)
     <> userPromptText retrieved (contextTextOf (JsonBody m None)) (trim x)
  /\ includes
       (userPromptText retrieved (contextTextOf (FormData m (Some []) image))
          (trim x))
       (lit "(non fourni)") = true.
Proof.
  intros Hx. split; [reflexivity|]. cbn [contextTextOf Tutor.nonEmpty].
  rewrite !(prompt_template _ _ _ Hx). split.
  - intros H.
    apply app_inv_head in H. apply app_inv_head in H. apply app_inv_head in H.
    apply app_inv_head in H. apply app_inv_head in H. apply app_inv_head in H.
    apply app_inv_head in H. discriminate H.
  - generalize (lit "DOCUMENTS EPPPN / LIVRES (extraits) :") as h.
    generalize (lit "Contexte utilisateur (optionnel) :") as c.
    generalize (lit "Question :") as q.
    generalize (lit "(non fourni)") as n.
    intros n q c h.
    replace (h ++ nl ++ retrievedContext retrieved ++ nl ++ nl ++ c ++ nl ++ n
             ++ nl ++ nl ++ q ++ nl ++ trim x)
      with ((h ++ nl ++ retrievedContext retrieved ++ nl ++ nl ++ c ++ nl) ++ n
            ++ (nl ++ nl ++ q ++ nl ++ trim x))
      by (now rewrite <- !app_assoc).
    apply includes_app.
Qed.

Lemma empty_context_form_vs_json_witness :
  let x := lit "Quelle farine ?" in
  userPromptText [] (contextTextOf (FormData None (Some []) None)) (trim x)
  = userPromptText [] (contextTextOf (FormData None None None)) (trim x)
  /\ userPromptText [] (contextTextOf (JsonBody None (Some []))) (trim x)
     <> userPromptText [] (contextTextOf (JsonBody None None)) (trim x)
  /\ includes
       (userPromptText [] (contextTextOf (FormData None (Some []) None))
          (trim x))
       (lit "(non fourni)") = true.
Proof.
  apply (empty_context_form_vs_json [] (lit "Quelle farine ?") None None).
  vm_compute. discriminate.
Defined.

End RagProperties.

Module SplitFacts.

(** A text without the separator is its own single segment. *)
Lemma split_single (sep : N) (a : jsstring) :
  ~ In sep a -> split sep a = [a].
Proof.
  induction a as [|c a IH]; intros H; [reflexivity|]. cbn [split].
  destruct (c =? sep) eqn:E.
  - apply N.eqb_eq in E. subst c. exfalso. apply H. now left.
  - rewrite IH by (intros Hin; apply H; now right). reflexivity.
Qed.

(** The first segment ends at the first separator. *)
Lemma split_app (sep : N) (a t : jsstring) :
  ~ In sep a -> split sep (a ++ sep :: t) = a :: split sep t.
Proof.
  induction a as [|c a IH]; intros H; cbn [app split].
  - now rewrite N.eqb_refl.
  - destruct (c =? sep) eqn:E.
    + apply N.eqb_eq in E. subst c. exfalso. apply H. now left.
    + rewrite IH by (intros Hin; apply H; now right). reflexivity.
Qed.

Lemma split_cases (sep : N) (s : jsstring) :
  (~ In sep s /\ split sep s = [s])
  \/ exists a t, ~ In sep a /\ s = a ++ sep :: t
                 /\ split sep s = a :: split sep t.
Proof.
  induction s as [|c s IH].
  - left. split; [intros []|reflexivity].
  - destruct (c =? sep) eqn:E.
    + apply N.eqb_eq in E. subst c. right. exists [], s.
      split; [intros []|]. split; [reflexivity|].
      cbn [split]. now rewrite N.eqb_refl.
    + assert (Hc : c <> sep) by (now apply N.eqb_neq).
      destruct IH as [(Hn & Hs)|(a & t & Hn & -> & Hs)].
      * left. split; [intros [?|?]; [congruence|tauto]|].
        apply split_single. intros [?|?]; [congruence|tauto].
      * right. exists (c :: a), t.
        assert (Hn' : ~ In sep (c :: a)) by (intros [?|?]; [congruence|tauto]).
        split; [exact Hn'|]. split; [reflexivity|].
        apply (split_app sep (c :: a) t Hn').
Qed.

(** The first two segments of a text, as the destructuring
    [[a, b] = s.split(sep)] reads them. *)
Lemma split_first_two (sep : N) (s a b : jsstring) :
  nth_error (split sep s) 0 = Some a /\ nth_error (split sep s) 1 = Some b
  <-> ~ In sep a /\ ~ In sep b
      /\ (s = a ++ sep :: b \/ exists more, s = a ++ sep :: b ++ sep :: more).
Proof.
  split.
  - intros (H0 & H1).
    destruct (split_cases sep s) as [(_ & Hs)|(a' & t & Hn & -> & Hs)];
      rewrite Hs in H0, H1; [discriminate|].
    cbn [nth_error] in H0, H1. injection H0 as ->.
    destruct (split_cases sep t) as [(Hn' & Ht)|(b' & t' & Hn' & -> & Ht)];
      rewrite Ht in H1; cbn [nth_error] in H1; injection H1 as ->.
    + split; [exact Hn|]. split; [exact Hn'|]. now left.
    + split; [exact Hn|]. split; [exact Hn'|]. right. now exists t'.
  - intros (Ha & Hb & [-> | (more & ->)]).
    + rewrite (split_app _ _ _ Ha), (split_single _ _ Hb). now split.
    + rewrite (split_app _ _ _ Ha), (split_app _ _ _ Hb). now split.
Qed.

End SplitFacts.

Module MiddlewareProperties.
Import Middleware SplitFacts.

(** X25: the middleware lets a request through only when a user name and a
    password are configured, neither empty nor holding a colon, and the
    header is [Basic], one space and a token without space (followed by
    nothing, or by a space and anything) that decodes to the user name, a
    colon and the password (followed by nothing, or by a colon and
    anything). *)
Theorem middleware_accepts_only
        (decode : jsstring -> jsstring) (USER PASS : option jsstring)
        (authorization : option jsstring) :
  middleware decode USER PASS authorization = Next ->
  exists u p enc,
    USER = Some u /\ PASS = Some p /\ u <> [] /\ p <> []
    /\ ~ In 58 u /\ ~ In 58 p
    /\ enc <> [] /\ ~ In 32 enc
    /\ (authorization = Some (lit "Basic " ++ enc)
        \/ exists rest, authorization = Some (lit "Basic " ++ enc ++ 32 :: rest))
    /\ (decode enc = u ++ 58 :: p
        \/ exists more, decode enc = u ++ 58 :: p ++ 58 :: more).
Proof.
  unfold middleware.
  destruct USER as [[|u0 u]|]; try discriminate.
  destruct PASS as [[|p0 p]|]; try discriminate.
  cbn [Tutor.nonEmpty negb orb].
  destruct authorization as [[|a auth]|]; try discriminate.
  destruct (nth_error (split 32 (a :: auth)) 0) as [scheme|] eqn:S0;
    [|discriminate].
  destruct (nth_error (split 32 (a :: auth)) 1) as [[|e enc]|] eqn:S1;
    try discriminate.
  destruct (JsString.eqb scheme (lit "Basic")) eqn:B; [|discriminate].
  cbn [negb].
  destruct (nth_error (split 58 (decode (e :: enc))) 0) as [user|] eqn:C0;
    [|discriminate].
  destruct (nth_error (split 58 (decode (e :: enc))) 1) as [pass|] eqn:C1;
    [|discriminate].
  destruct (JsString.eqb user (u0 :: u)) eqn:EU; [|discriminate].
  destruct (JsString.eqb pass (p0 :: p)) eqn:EP; [|discriminate].
  intros _. apply eqb_eq in B, EU, EP. subst scheme user pass.
  destruct (proj1 (split_first_two 32 _ _ _) (conj S0 S1)) as (_ & He & Ha).
  destruct (proj1 (split_first_two 58 _ _ _) (conj C0 C1)) as (Hu & Hp & Hd).
  exists (u0 :: u), (p0 :: p), (e :: enc).
  repeat (split; [first [reflexivity | discriminate | assumption]|]).
  split; [|exact Hd].
  destruct Ha as [Ha | (rest & Ha)]; rewrite Ha;
    [now left|right; now exists rest].
Qed.

Lemma middleware_accepts_only_witness :
  exists u p enc,
    Some (lit "admin") = Some u /\ Some (lit "secret") = Some p
    /\ u <> [] /\ p <> []
    /\ ~ In 58 u /\ ~ In 58 p
    /\ enc <> [] /\ ~ In 32 enc
    /\ (Some (lit "Basic YWRtaW46c2VjcmV0") = Some (lit "Basic " ++ enc)
        \/ exists rest, Some (lit "Basic YWRtaW46c2VjcmV0")
                        = Some (lit "Basic " ++ enc ++ 32 :: rest))
    /\ (decodeBase64 enc = u ++ 58 :: p
        \/ exists more, decodeBase64 enc = u ++ 58 :: p ++ 58 :: more).
Proof.
  apply (middleware_accepts_only decodeBase64 (Some (lit "admin"))
           (Some (lit "secret")) (Some (lit "Basic YWRtaW46c2VjcmV0"))).
  vm_compute. reflexivity.
Defined.

(** X26: conversely every such request is let through: the middleware
    compares the first two colon-separated parts of the decoded
    credentials and the first two space-separated parts of the header,
    and ignores what follows them. *)
Theorem middleware_accepts
        (decode : jsstring -> jsstring) (u p enc header : jsstring) :
  u <> [] -> p <> [] -> ~ In 58 u -> ~ In 58 p ->
  enc <> [] -> ~ In 32 enc ->
  (header = lit "Basic " ++ enc
   \/ exists rest, header = lit "Basic " ++ enc ++ 32 :: rest) ->
  (decode enc = u ++ 58 :: p
   \/ exists more, decode enc = u ++ 58 :: p ++ 58 :: more) ->
  middleware decode (Some u) (Some p) (Some header) = Next.
Proof.
  intros Hu Hp Cu Cp He Se Hh Hd.
  assert (SB : ~ In 32 (lit "Basic")) by (vm_compute; intuition discriminate).
  assert (Hh' : header = lit "Basic" ++ 32 :: enc
                \/ exists more, header = lit "Basic" ++ 32 :: enc ++ 32 :: more).
  { destruct Hh as [-> | (rest & ->)]; [now left|right; now exists rest]. }
  destruct (proj2 (split_first_two 32 header (lit "Basic") enc)
                  (conj SB (conj Se Hh'))) as (S0 & S1).
  destruct (proj2 (split_first_two 58 (decode enc) u p)
                  (conj Cu (conj Cp Hd))) as (C0 & C1).
  unfold middleware.
  destruct u as [|u0 u]; [congruence|]. destruct p as [|p0 p]; [congruence|].
  cbn [Tutor.nonEmpty negb orb].
  destruct header as [|a auth];
    [destruct Hh' as [H|(more & H)]; discriminate H|].
  rewrite S0, S1. destruct enc as [|e enc']; [congruence|].
  rewrite eqb_refl. cbn [negb]. rewrite C0, C1, !eqb_refl. reflexivity.
Qed.

Lemma middleware_accepts_witness :
  decodeBase64 (lit "YWRtaW46c2VjcmV0OmF1dHJl") = lit "admin:secret:autre"
  /\ middleware decodeBase64 (Some (lit "admin")) (Some (lit "secret"))
       (Some (lit "Basic YWRtaW46c2VjcmV0OmF1dHJl et la suite")) = Next.
Proof.
  split; [vm_compute; reflexivity|].
  apply (middleware_accepts decodeBase64 (lit "admin") (lit "secret")
           (lit "YWRtaW46c2VjcmV0OmF1dHJl")
           (lit "Basic YWRtaW46c2VjcmV0OmF1dHJl et la suite"));
    try (vm_compute; intuition discriminate).
  - right. exists (lit "et la suite"). vm_compute. reflexivity.
  - right. exists (lit "autre"). vm_compute. reflexivity.
Defined.

End MiddlewareProperties.

Module PageProperties.
Import Page.

(** X27: a request sent by the page never carries a blank message: the
    only error the handler can answer it with is the 500 for a missing
    key, never the 400 for an empty message.  The page sends nothing for
    a blank text or while it awaits an answer, and marks the request as a
    first turn exactly when the chat is empty. *)
Theorem page_request_never_blank
        (chat : list ChatMsg) (loading : bool) (speed : Tutor.Speed)
        (text : jsstring) (body : Tutor.requestBody)
        (toLowerCase : jsstring -> jsstring) (key : option jsstring)
        (gw : Tutor.Gateway) (log : list Tutor.prompt) :
  askTutorRequest chat loading speed text = Some body ->
  loading = false
  /\ trim text <> []
  /\ body = Tutor.mkBody (Some (trim text)) (Some (Nat.eqb (length chat) 0))
                         (Some speed)
  /\ match fst (Tutor.POST toLowerCase key gw (Tutor.Readable body) log) with
     | Some (Tutor.ErrorResponse status error) =>
       status = 500%Z /\ Tutor.nonEmpty key = false
     | _ => True
     end.
Proof.
  unfold askTutorRequest. intros H.
  destruct (trim text) as [|c cs] eqn:T; [discriminate|].
  destruct loading; [discriminate|]. injection H as <-.
  split; [reflexivity|]. split; [discriminate|]. split; [reflexivity|].
  destruct (Tutor.nonEmpty key) eqn:K.
  - assert (B : forallb isWhiteSpace (c :: cs) = false).
    { destruct (forallb isWhiteSpace (c :: cs)) eqn:B; [|reflexivity].
      apply trim_nil_iff in B. rewrite <- T, trim_idempotent, T in B.
      discriminate. }
    pose proof (POST_paths toLowerCase key gw
                  (Tutor.mkBody (@Some jsstring (c :: cs))
                                (Some (Nat.eqb (length chat) 0)) (Some speed))
                  (c :: cs) log K eq_refl B) as P.
    cbv zeta in P. cbn [Tutor.speed Tutor.isFirstTurn] in P.
    destruct (gw (length log) _) as [|o1]; [now rewrite P|].
    set (e := Tutor.extractGraphJsonBlock _) in *.
    set (kept := match Tutor.json e with
                 | Some j => match parse j with
                             | Some v => if truthy v then Some v else None
                             | None => None
                             end
                 | None => None
                 end) in *.
    destruct kept as [v|]; [now rewrite P|].
    destruct (gw (S (length log)) _); now rewrite P.
  - unfold Tutor.POST. rewrite K. cbn [negb Tutor.ret fst]. now split.
Qed.

Lemma page_request_never_blank_witness :
  let body := Tutor.mkBody (Some (trim (lit " Quelle farine ? ")))
                           (Some (Nat.eqb (length (@nil ChatMsg)) 0))
                           (Some Tutor.VITE) in
  false = false
  /\ trim (lit " Quelle farine ? ") <> []
  /\ body = body
  /\ match fst (Tutor.POST toLowerCaseLatin1 None (Tutor.answering "Bonjour")
                            (Tutor.Readable body) []) with
     | Some (Tutor.ErrorResponse status error) =>
       status = 500%Z /\ Tutor.nonEmpty None = false
     | _ => True
     end.
Proof.
  apply (page_request_never_blank [] false Tutor.VITE
           (lit " Quelle farine ? ")
           (Tutor.mkBody (Some (trim (lit " Quelle farine ? ")))
                         (Some (Nat.eqb (length (@nil ChatMsg)) 0))
                         (Some Tutor.VITE))
           toLowerCaseLatin1 None (Tutor.answering "Bonjour") []).
  vm_compute. reflexivity.
Defined.

End PageProperties.
